(** * Geometric consensus, partition detection and dual recovery

    A shallow embedding of the TypeScript sources
    - [geometric-types.ts]      (shape catalog and its queries),
    - [betti-numbers.ts]        (class [BettiCalculator]),
    - [geometric-consensus.ts]  (class [GeometricConsensus]),
    - [partition-detection.ts]  (class [PartitionDetector]),
    - [dual-recovery.ts]        (class [DualPartitionRecovery]),
    followed by the properties established about them.

    Modelling conventions.
    - A JavaScript [number] that holds a count (array lengths, vertex, edge
      and face counts, Betti numbers) is a [Z].  A [number] that holds a
      threshold or a ratio is an exact rational [Q]: the decimal literal the
      source writes is the rational it denotes, and IEEE rounding is not
      part of the model ([catalog_required_agreement_binary64] shows that
      binary64 arithmetic gives the same required counts on the catalog).
      Where the source divides, the quotient is a [number], which also has
      the two infinities and NaN.
    - A string enum ([GeometricType]) is the [string] it is at run time, so
      that identifiers outside the enum can be given to the functions.
    - An object literal read by a key, [literal[key]], also answers for the
      names that it inherits from [Object.prototype] ([toString],
      [constructor], ...; the list is [Object_prototype_members]).  Where
      the source only enumerates what it finds, the embedding follows it: an
      inherited member has no enumerable property.  Where the source returns
      what it finds as a shape, the value is no record of the embedding and
      the execution ends with the outcome [Inherited].
    - [throw] / [try]-[catch] are the [Throw] outcome of the [js] monad.
    - The recursive depth-first search is written with a fuel argument; the
      [Fuel] outcome records its exhaustion and is shown never to arise.
    - [NonFinite] is the outcome of an execution in which a field that the
      model keeps in [Z] or [Q] would receive an infinity or NaN.
    - Clock, random source and number formatting come from a [Host].
    - A [Set] of which the source only tests membership is a [gset], a
      [Map] that it reads by key a [gmap]; the value of an [async] method is
      the value with which its promise is fulfilled. *)

From Stdlib Require Import QArith Qround Qminmax ZArith Sorted.
From Stdlib Require Floats Uint63.
From stdpp Require Import gmap strings list fin_maps pretty.

Local Open Scope Z_scope.

(** ** Outcomes of a call *)

Inductive js (A : Type) : Type :=
  | Ret (a : A)
  | Throw (message : string)
  | Fuel
  | NonFinite
  | Inherited.
Arguments Ret {A} a.
Arguments Throw {A} message.
Arguments Fuel {A}.
Arguments NonFinite {A}.
Arguments Inherited {A}.

#[global] Instance js_ret : MRet js := @Ret.
#[global] Instance js_bind : MBind js := fun A B f m =>
  match m with
  | Ret a => f a
  | Throw e => Throw e
  | Fuel => Fuel
  | NonFinite => NonFinite
  | Inherited => Inherited
  end.

(** [try { body } catch (error) { handler(error.message) }] *)
Definition try_catch {A} (body : js A) (handler : string → js A) : js A :=
  match body with
  | Throw e => handler e
  | other => other
  end.

(** A [for] loop over the indices (or the elements) [l], threading the
    mutable state [s]; a [throw] inside the body leaves the loop. *)
Fixpoint for_each {A S : Type} (l : list A) (s : S) (body : A → S → js S) : js S :=
  match l with
  | [] => Ret s
  | x :: l => s' ← body x s; for_each l s' body
  end.

(** ** Numbers *)

(** The value of a division or of a product with a quotient. *)
Inductive number :=
  | Finite (q : Q)
  | PosInfinity
  | NegInfinity
  | NaN.

Definition Qsign (q : Q) : Z := Z.sgn (Qnum q).

Definition signed_infinity (sign : Z) : number :=
  if sign >? 0 then PosInfinity else if sign <? 0 then NegInfinity else NaN.

(** [x / y] on finite operands; the divisors of the sources are counts, so
    a zero divisor is [+0]. *)
Definition number_div (x y : Q) : number :=
  if Qsign y =? 0 then signed_infinity (Qsign x) else Finite (x / y)%Q.

(** [x * y] *)
Definition number_mul (x y : number) : number :=
  match x, y with
  | NaN, _ | _, NaN => NaN
  | Finite a, Finite b => Finite (a * b)%Q
  | Finite a, PosInfinity | PosInfinity, Finite a => signed_infinity (Qsign a)
  | Finite a, NegInfinity | NegInfinity, Finite a => signed_infinity (- Qsign a)
  | PosInfinity, PosInfinity | NegInfinity, NegInfinity => PosInfinity
  | PosInfinity, NegInfinity | NegInfinity, PosInfinity => NegInfinity
  end.

(** [Math.min(x, y)] and [Math.max(x, y)] *)
Definition Math_min (x y : number) : number :=
  match x, y with
  | NaN, _ | _, NaN => NaN
  | NegInfinity, _ | _, NegInfinity => NegInfinity
  | PosInfinity, other | other, PosInfinity => other
  | Finite a, Finite b => Finite (Qmin a b)
  end.

Definition Math_max (x y : number) : number :=
  match x, y with
  | NaN, _ | _, NaN => NaN
  | PosInfinity, _ | _, PosInfinity => PosInfinity
  | NegInfinity, other | other, NegInfinity => other
  | Finite a, Finite b => Finite (Qmax a b)
  end.

(** [Math.ceil] of a finite value *)
Definition Math_ceil (x : Q) : Z := Qceiling x.

(** What the embedding takes from the run-time environment. *)
Record Host := {
  date_now : Z;                      (* Date.now() *)
  date_iso : string;                 (* new Date().toISOString() *)
  random36 : string;                 (* Math.random().toString(36).substring(2, 8) *)
  toFixed : number → nat → string;   (* Number.prototype.toFixed *)
  show_number : Q → string           (* a number interpolated in a template *)
}.

(** ** Object literals *)

(** The properties of [Object.prototype].  Every object literal inherits
    them: for one of these names [literal[key]] is the inherited member (a
    function, or the prototype itself for [__proto__]), which is truthy and
    has no enumerable property of its own. *)
Definition Object_prototype_members : list string := [
  "constructor"; "hasOwnProperty"; "isPrototypeOf"; "propertyIsEnumerable";
  "toLocaleString"; "toString"; "valueOf"; "__proto__";
  "__defineGetter__"; "__defineSetter__"; "__lookupGetter__"; "__lookupSetter__"
].

(** ** geometric-types.ts *)

Module GeometricTypes.

Definition GeometricType := string.

Definition POINT : GeometricType := "POINT".
Definition LINE : GeometricType := "LINE".
Definition TRIANGLE : GeometricType := "TRIANGLE".
Definition SQUARE : GeometricType := "SQUARE".
Definition TETRAHEDRON : GeometricType := "TETRAHEDRON".
Definition CUBE : GeometricType := "CUBE".
Definition OCTAHEDRON : GeometricType := "OCTAHEDRON".
Definition DODECAHEDRON : GeometricType := "DODECAHEDRON".
Definition ICOSAHEDRON : GeometricType := "ICOSAHEDRON".
Definition FIVE_CELL : GeometricType := "FIVE_CELL".
Definition EIGHT_CELL : GeometricType := "EIGHT_CELL".
Definition SIXTEEN_CELL : GeometricType := "SIXTEEN_CELL".
Definition TWENTY_FOUR_CELL : GeometricType := "TWENTY_FOUR_CELL".
Definition SIX_HUNDRED_CELL : GeometricType := "SIX_HUNDRED_CELL".
Definition TRUNCATED_TETRAHEDRON : GeometricType := "TRUNCATED_TETRAHEDRON".
Definition CUBOCTAHEDRON : GeometricType := "CUBOCTAHEDRON".
Definition TRUNCATED_CUBE : GeometricType := "TRUNCATED_CUBE".
Definition TRUNCATED_OCTAHEDRON : GeometricType := "TRUNCATED_OCTAHEDRON".
Definition RHOMBICUBOCTAHEDRON : GeometricType := "RHOMBICUBOCTAHEDRON".
Definition TRUNCATED_CUBOCTAHEDRON : GeometricType := "TRUNCATED_CUBOCTAHEDRON".
Definition SNUB_CUBE : GeometricType := "SNUB_CUBE".
Definition ICOSIDODECAHEDRON : GeometricType := "ICOSIDODECAHEDRON".
Definition TRUNCATED_DODECAHEDRON : GeometricType := "TRUNCATED_DODECAHEDRON".
Definition TRUNCATED_ICOSAHEDRON : GeometricType := "TRUNCATED_ICOSAHEDRON".
Definition RHOMBICOSIDODECAHEDRON : GeometricType := "RHOMBICOSIDODECAHEDRON".
Definition TRUNCATED_ICOSIDODECAHEDRON : GeometricType := "TRUNCATED_ICOSIDODECAHEDRON".
Definition SNUB_DODECAHEDRON : GeometricType := "SNUB_DODECAHEDRON".

Inductive Context := local | federation | global.

Definition toUpperCase (c : Context) : string :=
  match c with
  | local => "LOCAL"
  | federation => "FEDERATION"
  | global => "GLOBAL"
  end.

Definition show_context (c : Context) : string :=
  match c with
  | local => "local"
  | federation => "federation"
  | global => "global"
  end.

Record GeometricShape := {
  type : GeometricType;
  name : string;
  vertices : Z;
  edges : Z;
  faces : Z;
  threshold : Q;
  dual : option GeometricType;
  isSelfDual : bool;
  dimension : Z;
  schlaefli : option string;
  context : Context;
  description : string
}.

(** One entry of the [GEOMETRIC_SHAPES] literal. *)
Definition entry (t : GeometricType) (n : string) (v e f : Z) (th : Q)
    (d : option GeometricType) (sd : bool) (dim : Z) (sch : option string)
    (c : Context) (descr : string) : GeometricType * GeometricShape :=
  (t, {| type := t; name := n; vertices := v; edges := e; faces := f;
         threshold := th; dual := d; isSelfDual := sd; dimension := dim;
         schlaefli := sch; context := c; description := descr |}).

Definition GEOMETRIC_SHAPES_entries : list (GeometricType * GeometricShape) := [
  entry POINT "Point" 1 0 0 1.0%Q None true 0 None local
    "0D point - unanimous consensus required";
  entry LINE "Line" 2 1 0 1.0%Q None true 1 None local
    "1D line - bilateral consensus";
  entry TRIANGLE "Triangle" 3 3 1 1.0%Q None true 2 None local
    "2D triangle - trilateral consensus";
  entry SQUARE "Square" 4 4 1 0.75%Q (Some SQUARE) true 2 None local
    "2D square - quadrilateral consensus";
  entry TETRAHEDRON "Tetrahedron" 4 6 4 1.0%Q (Some TETRAHEDRON) true 3
    (Some "{3,3}") local "3D tetrahedron - MUST (unanimous)";
  entry CUBE "Cube" 8 12 6 0.5%Q (Some OCTAHEDRON) false 3
    (Some "{4,3}") local "3D cube - MAY (majority)";
  entry OCTAHEDRON "Octahedron" 6 12 8 0.833%Q (Some CUBE) false 3
    (Some "{3,4}") local "3D octahedron - SHOULD (strong consensus)";
  entry DODECAHEDRON "Dodecahedron" 20 30 12 0.6%Q (Some ICOSAHEDRON) false 3
    (Some "{5,3}") local "3D dodecahedron - committee consensus";
  entry ICOSAHEDRON "Icosahedron" 12 30 20 0.75%Q (Some DODECAHEDRON) false 3
    (Some "{3,5}") local "3D icosahedron - high consensus";
  entry FIVE_CELL "5-cell" 5 10 10 1.0%Q (Some FIVE_CELL) true 4
    (Some "{3,3,3}") federation "4D 5-cell - MUST_FEDERATION (unanimous)";
  entry EIGHT_CELL "8-cell" 16 32 24 0.5%Q (Some SIXTEEN_CELL) false 4
    (Some "{4,3,3}") federation "4D 8-cell - MAY_FEDERATION (majority)";
  entry SIXTEEN_CELL "16-cell" 8 24 32 0.75%Q (Some EIGHT_CELL) false 4
    (Some "{3,3,4}") federation
    "4D 16-cell - SHOULD_FEDERATION (strong consensus)";
  entry TWENTY_FOUR_CELL "24-cell" 24 96 96 0.833%Q (Some TWENTY_FOUR_CELL)
    true 4 (Some "{3,4,3}") federation
    "4D 24-cell - SHOULD_FEDERATION (strong consensus)";
  entry SIX_HUNDRED_CELL "600-cell" 120 720 1200 0.6%Q
    (Some SIX_HUNDRED_CELL) false 4 (Some "{3,3,5}") federation
    "4D 600-cell - large federation consensus";
  entry TRUNCATED_TETRAHEDRON "Truncated Tetrahedron" 12 18 8 1.0%Q None
    false 3 None global "3D truncated tetrahedron - MUST_GLOBAL (unanimous)";
  entry CUBOCTAHEDRON "Cuboctahedron" 12 24 14 0.833%Q None false 3 None
    global "3D cuboctahedron - SHOULD_GLOBAL (strong consensus)";
  entry TRUNCATED_CUBE "Truncated Cube" 24 36 14 0.5%Q None false 3 None
    global "3D truncated cube - MAY_GLOBAL (majority)";
  entry TRUNCATED_OCTAHEDRON "Truncated Octahedron" 24 36 14 0.75%Q None
    false 3 None global "3D truncated octahedron - committee consensus";
  entry RHOMBICUBOCTAHEDRON "Rhombicuboctahedron" 24 48 26 0.625%Q None
    false 3 None global "3D rhombicuboctahedron - balanced consensus";
  entry TRUNCATED_CUBOCTAHEDRON "Truncated Cuboctahedron" 48 72 26 0.5%Q
    None false 3 None global
    "3D truncated cuboctahedron - MAY_GLOBAL (majority)";
  entry SNUB_CUBE "Snub Cube" 24 60 38 0.75%Q None false 3 None global
    "3D snub cube - committee consensus";
  entry ICOSIDODECAHEDRON "Icosidodecahedron" 30 60 32 0.8%Q None false 3
    None global "3D icosidodecahedron - strong consensus";
  entry TRUNCATED_DODECAHEDRON "Truncated Dodecahedron" 60 90 32 0.5%Q None
    false 3 None global "3D truncated dodecahedron - MAY_GLOBAL (majority)";
  entry TRUNCATED_ICOSAHEDRON "Truncated Icosahedron" 60 90 32 0.75%Q None
    false 3 None global "3D truncated icosahedron - committee consensus";
  entry RHOMBICOSIDODECAHEDRON "Rhombicosidodecahedron" 60 120 62 0.6%Q None
    false 3 None global "3D rhombicosidodecahedron - balanced consensus";
  entry TRUNCATED_ICOSIDODECAHEDRON "Truncated Icosidodecahedron" 120 180 62
    0.5%Q None false 3 None global
    "3D truncated icosidodecahedron - MAY_GLOBAL (majority)";
  entry SNUB_DODECAHEDRON "Snub Dodecahedron" 60 150 92 0.75%Q None false 3
    None global "3D snub dodecahedron - committee consensus"
].

(** The own properties of the [GEOMETRIC_SHAPES] object, keyed by
    identifier. *)
Definition GEOMETRIC_SHAPES : gmap string GeometricShape :=
  list_to_map GEOMETRIC_SHAPES_entries.

(** [GEOMETRIC_SHAPES[type]] is a shape of the literal, an inherited member,
    which passes the test [!shape] and is returned as it is, or
    [undefined]. *)
Definition getGeometricShape (type : GeometricType) : js GeometricShape :=
  match GEOMETRIC_SHAPES !! type with
  | Some shape => Ret shape
  | None =>
      if bool_decide (type ∈ Object_prototype_members) then Inherited
      else Throw ("Unknown geometric type: " +:+ type)
  end.

(** [if (shape.dual)] holds for a declared, non-empty identifier. *)
Definition getDual (shape : GeometricShape) : js (option GeometricShape) :=
  if isSelfDual shape then Ret (Some shape)
  else match dual shape with
       | Some (String c rest) => s ← getGeometricShape (String c rest); Ret (Some s)
       | _ => Ret None
       end.

Definition calculateRequiredAgreement (shape : GeometricShape) : Z :=
  Math_ceil (inject_Z (vertices shape) * threshold shape).

Definition isValidForConsensus (shape : GeometricShape) (agreesCount : Z) : bool :=
  let required := calculateRequiredAgreement shape in
  agreesCount >=? required.

Definition getConsensusKeyword (shape : GeometricShape) : string :=
  if Qle_bool 1.0 (threshold shape) then "MUST_" +:+ toUpperCase (context shape)
  else if Qle_bool 0.8 (threshold shape) then "SHOULD_" +:+ toUpperCase (context shape)
  else "MAY_" +:+ toUpperCase (context shape).

#[global] Instance Context_eq_dec : EqDecision Context.
Proof. solve_decision. Defined.

(** [Object.values(GEOMETRIC_SHAPES)]: the shapes in the order in which the
    literal lists them. *)
Definition GEOMETRIC_SHAPES_values : list GeometricShape :=
  GEOMETRIC_SHAPES_entries.*2.

Definition getShapesByContext (ctx : Context) : list GeometricShape :=
  filter (λ shape, context shape = ctx) GEOMETRIC_SHAPES_values.

Definition findShapesByVertexRange (minVertices maxVertices : Z)
    : list GeometricShape :=
  filter (λ shape, minVertices ≤ vertices shape ∧ vertices shape ≤ maxVertices)
    GEOMETRIC_SHAPES_values.

(** [Array.prototype.sort] with the comparator [(a, b) => a.vertices -
    b.vertices].  The sort of an array is stable, which fixes its result;
    it is written here as an insertion sort that keeps equal shapes in
    their order. *)
Fixpoint insert_by_vertices (shape : GeometricShape) (sorted : list GeometricShape)
    : list GeometricShape :=
  match sorted with
  | [] => [shape]
  | other :: rest =>
      if vertices shape <=? vertices other then shape :: other :: rest
      else other :: insert_by_vertices shape rest
  end.

Definition sort_by_vertices (shapes : list GeometricShape) : list GeometricShape :=
  foldr insert_by_vertices [] shapes.

Definition getSuitableShapes (participantCount : Z) : list GeometricShape :=
  sort_by_vertices
    (filter (λ shape, participantCount ≤ vertices shape) GEOMETRIC_SHAPES_values).

End GeometricTypes.

(** ** betti-numbers.ts *)

Module Vertex.
Record t := mk {
  id : string;
  name : string;
  connected : gset string
}.
End Vertex.

Module Edge.
Record t := mk {
  id : string;
  from : string;
  to : string
}.
End Edge.

Record BettiNumbers := {
  beta_0 : Z;
  beta_1 : Z;
  beta_2 : Z
}.

Module SimplicialComplex.
Record t := mk {
  vertices : list Vertex.t;
  edges : list Edge.t;
  faces : list (list Z)
}.
End SimplicialComplex.

Module BettiCalculator.

(** [vertices.forEach((v, i) => vertexIndex.set(v.id, i))] *)
Definition vertexIndex (vertices : list Vertex.t) : gmap string nat :=
  foldl (λ index '(i, v), <[Vertex.id v := i]> index) ∅ (imap pair vertices).

(** [matrix[fromIndex][toIndex] = 1]; the indices come from [vertexIndex] and
    are below the size of the matrix. *)
Definition set_cell (fromIndex toIndex : nat) (matrix : list (list Z)) : list (list Z) :=
  alter (<[toIndex := 1]>) fromIndex matrix.

Definition buildAdjacencyMatrix (vertices : list Vertex.t) (edges : list Edge.t)
    : list (list Z) :=
  let n := length vertices in
  let matrix := replicate n (replicate n 0) in
  let vertexIndex := vertexIndex vertices in
  foldl (λ matrix edge,
           match vertexIndex !! Edge.from edge, vertexIndex !! Edge.to edge with
           | Some fromIndex, Some toIndex =>
               set_cell toIndex fromIndex (set_cell fromIndex toIndex matrix)
           | _, _ => matrix
           end) matrix edges.

(** [adjacency[vertex][i] === 1] *)
Definition adjacent (adjacency : list (list Z)) (vertex i : nat) : bool :=
  bool_decide (adjacency !! vertex ≫= (.!! i) = Some 1).

(** [visited[i]] as a condition *)
Definition is_visited (visited : list bool) (i : nat) : bool :=
  default false (visited !! i).

(** [visited[i] = x]: an assignment past the end extends the array, and the
    holes it leaves read as [undefined], which is [false] as a condition. *)
Definition array_set (i : nat) (x : bool) (visited : list bool) : list bool :=
  if decide (i < length visited)%nat then <[i := x]> visited
  else visited ++ replicate (i - length visited) false ++ [x].

(** The search recurses once per vertex it marks; [fuel] bounds the depth
    of the recursion.  Reading the row of a vertex that the matrix does not
    have is a [TypeError]. *)
Fixpoint dfs (fuel : nat) (vertex : nat) (adjacency : list (list Z))
    (visited : list bool) : js (list bool) :=
  match fuel with
  | O => Fuel
  | S fuel =>
      let visited := array_set vertex true visited in
      match adjacency !! vertex with
      | None => Throw "Cannot read properties of undefined (reading 'length')"
      | Some row =>
          for_each (seq 0 (length row)) visited
            (λ i visited,
               if adjacent adjacency vertex i && negb (is_visited visited i)
               then dfs fuel i adjacency visited
               else Ret visited)
      end
  end.

(** Each level of a search marks a vertex that was not marked, so [n] levels
    suffice ([calculateConnectedComponents_total]). *)
Definition calculateConnectedComponents (vertices : list Vertex.t)
    (adjacency : list (list Z)) : js Z :=
  let n := length vertices in
  let visited := replicate n false in
  '(_, components) ←
    for_each (seq 0 n) (visited, 0)
      (λ i '(visited, components),
         if negb (is_visited visited i)
         then visited ← dfs n i adjacency visited; Ret (visited, components + 1)
         else Ret (visited, components));
  Ret components.

Definition calculateCycles (vertices : list Vertex.t) (edges : list Edge.t) : js Z :=
  let V := Z.of_nat (length vertices) in
  let E := Z.of_nat (length edges) in
  C ← calculateConnectedComponents vertices (buildAdjacencyMatrix vertices edges);
  Ret (Z.max 0 (E - V + C)).

Definition calculateVoids (_vertices : list Vertex.t) (_edges : list Edge.t) : Z := 0.

Definition calculateBettiNumbers (vertices : list Vertex.t) (edges : list Edge.t)
    : js BettiNumbers :=
  let n := length vertices in
  if decide (n = 0%nat) then Ret {| beta_0 := 0; beta_1 := 0; beta_2 := 0 |}
  else
    let adjacency := buildAdjacencyMatrix vertices edges in
    beta_0 ← calculateConnectedComponents vertices adjacency;
    beta_1 ← calculateCycles vertices edges;
    let beta_2 := calculateVoids vertices edges in
    Ret {| beta_0 := beta_0; beta_1 := beta_1; beta_2 := beta_2 |}.

Definition detectPartition (betti : BettiNumbers) : bool := beta_0 betti >? 1.

Definition countPartitions (betti : BettiNumbers) : Z := beta_0 betti.

(** The pairs [i < j] below [n], in the order of the two nested loops
    [for (i = 0; i < n; i++) for (j = i + 1; j < n; j++)]. *)
Definition index_pairs (n : nat) : list (nat * nat) :=
  i ← seq 0 n; j ← seq (i + 1) (n - (i + 1)); [(i, j)].

(** [edges.push({ id, from: vertices[from].id, to: vertices[to].id })] for
    each connection in turn, [index] being its position; reading the [id]
    of a vertex that the array does not have is a [TypeError]. *)
Definition push_edges (vertices : list Vertex.t)
    (edge_id : nat → nat * nat → string) (connections : list (nat * nat))
    (edges : list Edge.t) : js (list Edge.t) :=
  for_each (imap pair connections) edges
    (λ '(index, (from, to)) edges,
       match vertices !! from, vertices !! to with
       | Some a, Some b =>
           Ret (edges ++ [ {| Edge.id := edge_id index (from, to);
                              Edge.from := Vertex.id a;
                              Edge.to := Vertex.id b |} ])
       | _, _ => Throw "Cannot read properties of undefined (reading 'id')"
       end).

Definition buildTetrahedronEdges (vertices : list Vertex.t) (edges : list Edge.t)
    : js (list Edge.t) :=
  if decide (length vertices ≠ 4%nat)
  then Throw "Tetrahedron requires exactly 4 vertices"
  else push_edges vertices
         (λ _ '(i, j), "edge-" +:+ pretty i +:+ "-" +:+ pretty j)
         (index_pairs 4) edges.

Definition buildTetrahedronFaces (_vertices : list Vertex.t) (faces : list (list Z))
    : list (list Z) :=
  faces ++ [[0; 1; 2]; [0; 1; 3]; [0; 2; 3]; [1; 2; 3]].

Definition cubeConnections : list (nat * nat) := [
  (0, 1); (1, 2); (2, 3); (3, 0);
  (4, 5); (5, 6); (6, 7); (7, 4);
  (0, 4); (1, 5); (2, 6); (3, 7)
]%nat.

Definition buildCubeEdges (vertices : list Vertex.t) (edges : list Edge.t)
    : js (list Edge.t) :=
  if decide (length vertices ≠ 8%nat)
  then Throw "Cube requires exactly 8 vertices"
  else push_edges vertices (λ index _, "cube-edge-" +:+ pretty index)
         cubeConnections edges.

Definition cubeFaces : list (list Z) := [
  [0; 1; 2]; [0; 2; 3];
  [4; 5; 6]; [4; 6; 7];
  [0; 1; 5]; [0; 5; 4];
  [2; 3; 7]; [2; 7; 6];
  [0; 3; 7]; [0; 7; 4];
  [1; 2; 6]; [1; 6; 5]
].

Definition buildCubeFaces (_vertices : list Vertex.t) (faces : list (list Z))
    : list (list Z) :=
  faces ++ cubeFaces.

Definition octaConnections : list (nat * nat) := [
  (0, 1); (0, 2); (0, 3); (0, 4);
  (1, 2); (1, 3); (1, 5);
  (2, 4); (2, 5);
  (3, 4); (3, 5);
  (4, 5)
]%nat.

Definition buildOctahedronEdges (vertices : list Vertex.t) (edges : list Edge.t)
    : js (list Edge.t) :=
  if decide (length vertices ≠ 6%nat)
  then Throw "Octahedron requires exactly 6 vertices"
  else push_edges vertices (λ index _, "octa-edge-" +:+ pretty index)
         octaConnections edges.

Definition octaFaces : list (list Z) := [
  [0; 1; 2]; [0; 2; 4]; [0; 4; 3]; [0; 3; 1];
  [5; 1; 2]; [5; 2; 4]; [5; 4; 3]; [5; 3; 1]
].

Definition buildOctahedronFaces (_vertices : list Vertex.t) (faces : list (list Z))
    : list (list Z) :=
  faces ++ octaFaces.

Definition buildCompleteGraphEdges (vertices : list Vertex.t) (edges : list Edge.t)
    : js (list Edge.t) :=
  push_edges vertices
    (λ _ '(i, j), "complete-edge-" +:+ pretty i +:+ "-" +:+ pretty j)
    (index_pairs (length vertices)) edges.

Definition buildSimplicialComplex (shapeType : string) (vertices : list Vertex.t)
    : js SimplicialComplex.t :=
  let edges : list Edge.t := [] in
  let faces : list (list Z) := [] in
  if decide (shapeType = "TETRAHEDRON") then
    edges ← buildTetrahedronEdges vertices edges;
    let faces := buildTetrahedronFaces vertices faces in
    Ret {| SimplicialComplex.vertices := vertices;
           SimplicialComplex.edges := edges;
           SimplicialComplex.faces := faces |}
  else if decide (shapeType = "CUBE") then
    edges ← buildCubeEdges vertices edges;
    let faces := buildCubeFaces vertices faces in
    Ret {| SimplicialComplex.vertices := vertices;
           SimplicialComplex.edges := edges;
           SimplicialComplex.faces := faces |}
  else if decide (shapeType = "OCTAHEDRON") then
    edges ← buildOctahedronEdges vertices edges;
    let faces := buildOctahedronFaces vertices faces in
    Ret {| SimplicialComplex.vertices := vertices;
           SimplicialComplex.edges := edges;
           SimplicialComplex.faces := faces |}
  else
    edges ← buildCompleteGraphEdges vertices edges;
    Ret {| SimplicialComplex.vertices := vertices;
           SimplicialComplex.edges := edges;
           SimplicialComplex.faces := faces |}.

Definition verifyBettiProperties (betti : BettiNumbers) (vertices : list Vertex.t)
    (edges : list Edge.t) : bool :=
  if (beta_0 betti <? 0) || (beta_1 betti <? 0) || (beta_2 betti <? 0) then false
  else if beta_0 betti >? Z.of_nat (length vertices) then false
  else if beta_0 betti =? 1 then
    let expectedBeta1 :=
      Z.max 0 (Z.of_nat (length edges) - Z.of_nat (length vertices) + 1) in
    if Z.abs (beta_1 betti - expectedBeta1) >? 1 then false else true
  else true.

End BettiCalculator.

(** ** geometric-consensus.ts *)

Module DecisionVertex.
Record t := mk {
  id : string;
  name : string;
  agrees : bool;
  justification : option string;
  weight : option Q
}.
End DecisionVertex.

(** The [partitionInfo] field of a certificate. *)
Record PartitionFlags := {
  isPartitioned : bool;
  partitionCount : Z
}.

Module ConsensusCertificate.
Record t := mk {
  certificateId : string;
  geometricType : GeometricTypes.GeometricType;
  shape : GeometricTypes.GeometricShape;
  vertices : list DecisionVertex.t;
  agreesCount : Z;
  requiredCount : Z;
  thresholdPercentage : Q;
  valid : bool;
  proof : string;
  timestamp : string;
  bettiNumbers : option BettiNumbers;
  partitionInfo : option PartitionFlags
}.
End ConsensusCertificate.

Module ConsensusResult.
Record t := mk {
  certificate : ConsensusCertificate.t;
  success : bool;
  message : string
}.
End ConsensusResult.

(** Template pieces shared by the proof narratives. *)
Definition newline : string := String (Ascii.ascii_of_nat 10) EmptyString.
Definition unlines (ls : list string) : string := String.concat newline ls.
Definition show_bool (b : bool) : string := if b then "true" else "false".
Definition percent (h : Host) (x : Q) : string := toFixed h (Finite (x * 100)%Q) 1.
(** [s || fallback] for an optional string *)
Definition or_else (s : option string) (fallback : string) : string :=
  match s with
  | Some (String c rest) => String c rest
  | _ => fallback
  end.

Module GeometricConsensus.
Import GeometricTypes.

Definition convertToVertices (criteria : list DecisionVertex.t) : list Vertex.t :=
  (λ v, {| Vertex.id := DecisionVertex.id v;
           Vertex.name := DecisionVertex.name v;
           Vertex.connected := ∅ |}) <$> criteria.

(** The body of the two nested loops for the pair [i < j]. *)
Definition consensus_edge (criteria : list DecisionVertex.t) (i j : nat) : list Edge.t :=
  match criteria !! i, criteria !! j with
  | Some v1, Some v2 =>
      if Bool.eqb (DecisionVertex.agrees v1) (DecisionVertex.agrees v2)
      then [ {| Edge.id := "consensus-edge-" +:+ pretty i +:+ "-" +:+ pretty j;
                Edge.from := DecisionVertex.id v1;
                Edge.to := DecisionVertex.id v2 |} ]
      else []
  | _, _ => []
  end.

Definition buildConsensusEdges (criteria : list DecisionVertex.t) : list Edge.t :=
  let n := length criteria in
  i ← seq 0 n; j ← seq (i + 1) (n - (i + 1)); consensus_edge criteria i j.

Definition generateMathematicalProof (h : Host) (shape : GeometricShape)
    (agreesCount requiredCount : Z) (valid : bool) : string :=
  let keyword := getConsensusKeyword shape in
  let threshold := percent h (threshold shape) in
  unlines [
    "Mathematical Proof for " +:+ keyword +:+ " Consensus:";
    "";
    "Given:";
    "- Geometric Type: " +:+ name shape +:+ " (" +:+ type shape +:+ ")";
    "- Vertices: " +:+ pretty (vertices shape);
    "- Threshold: " +:+ threshold +:+ "%";
    "- Required Agreement: " +:+ pretty requiredCount +:+ "/" +:+ pretty (vertices shape);
    "- Actual Agreement: " +:+ pretty agreesCount +:+ "/" +:+ pretty (vertices shape);
    "";
    "Verification:";
    "1. Threshold Check: " +:+ pretty agreesCount +:+ " ≥ " +:+ pretty requiredCount
      +:+ " = " +:+ show_bool (agreesCount >=? requiredCount);
    "2. Geometric Constraint: " +:+ name shape +:+ " requires " +:+ threshold
      +:+ "% agreement";
    "3. Algebraic Verification: (" +:+ pretty agreesCount +:+ "/"
      +:+ pretty (vertices shape) +:+ ") ≥ " +:+ show_number h (GeometricTypes.threshold shape)
      +:+ " = "
      +:+ toFixed h (number_div (inject_Z agreesCount) (inject_Z (vertices shape))) 3
      +:+ " ≥ " +:+ show_number h (GeometricTypes.threshold shape)
      +:+ " = " +:+ show_bool valid;
    "";
    "Conclusion: " +:+ (if valid then "CONSENSUS ACHIEVED" else "CONSENSUS FAILED");
    "";
    "Geometric Properties:";
    "- Schläfli Symbol: " +:+ or_else (schlaefli shape) "N/A";
    "- Dimension: " +:+ pretty (dimension shape) +:+ "D";
    "- Context: " +:+ show_context (context shape);
    "- Dual: " +:+ or_else (dual shape) "Self-dual";
    "";
    "This proof is mathematically verifiable and follows RFC XXXX specifications."
  ].

Definition generateCertificateId (h : Host) : string :=
  "cert-" +:+ pretty (date_now h) +:+ "-" +:+ random36 h.

Definition createConsensusCertificate (h : Host) (criteria : list DecisionVertex.t)
    (shape : GeometricShape) (_description : string) : js ConsensusCertificate.t :=
  let agreesCount := Z.of_nat (length (filter (λ v, DecisionVertex.agrees v = true) criteria)) in
  let requiredCount := calculateRequiredAgreement shape in
  let thresholdPercentage := threshold shape in
  let valid := isValidForConsensus shape agreesCount in
  let vertices := convertToVertices criteria in
  let edges := buildConsensusEdges criteria in
  bettiNumbers ← BettiCalculator.calculateBettiNumbers vertices edges;
  let isPartitioned := BettiCalculator.detectPartition bettiNumbers in
  let partitionCount := BettiCalculator.countPartitions bettiNumbers in
  Ret {|
    ConsensusCertificate.certificateId := generateCertificateId h;
    ConsensusCertificate.geometricType := type shape;
    ConsensusCertificate.shape := shape;
    ConsensusCertificate.vertices := criteria;
    ConsensusCertificate.agreesCount := agreesCount;
    ConsensusCertificate.requiredCount := requiredCount;
    ConsensusCertificate.thresholdPercentage := thresholdPercentage;
    ConsensusCertificate.valid := valid;
    ConsensusCertificate.proof :=
      generateMathematicalProof h shape agreesCount requiredCount valid;
    ConsensusCertificate.timestamp := date_iso h;
    ConsensusCertificate.bettiNumbers := Some bettiNumbers;
    ConsensusCertificate.partitionInfo :=
      Some {| isPartitioned := isPartitioned; partitionCount := partitionCount |}
  |}.

Definition createErrorCertificate (h : Host) (criteria : list DecisionVertex.t)
    (geometricType : GeometricType) (error_message : string) : js ConsensusCertificate.t :=
  let certificateId := generateCertificateId h in
  shape ← getGeometricShape geometricType;
  Ret {|
    ConsensusCertificate.certificateId := certificateId;
    ConsensusCertificate.geometricType := geometricType;
    ConsensusCertificate.shape := shape;
    ConsensusCertificate.vertices := criteria;
    ConsensusCertificate.agreesCount := 0;
    ConsensusCertificate.requiredCount := 0;
    ConsensusCertificate.thresholdPercentage := 0;
    ConsensusCertificate.valid := false;
    ConsensusCertificate.proof := "Error in consensus verification: " +:+ error_message;
    ConsensusCertificate.timestamp := date_iso h;
    ConsensusCertificate.bettiNumbers := None;
    ConsensusCertificate.partitionInfo := None
  |}.

Definition verifyConsensus (h : Host) (criteria : list DecisionVertex.t)
    (geometricType : GeometricType) (description : string) : js ConsensusResult.t :=
  try_catch
    (shape ← getGeometricShape geometricType;
     certificate ← createConsensusCertificate h criteria shape description;
     let success := ConsensusCertificate.valid certificate in
     let agreed := pretty (ConsensusCertificate.agreesCount certificate) +:+ "/"
                   +:+ pretty (length criteria) +:+ " agree" in
     let pct := " (" +:+ percent h (ConsensusCertificate.thresholdPercentage certificate)
                +:+ "%)" in
     let message :=
       if success then "Consensus achieved: " +:+ agreed +:+ pct
       else "Consensus failed: " +:+ agreed +:+ ", need "
            +:+ pretty (ConsensusCertificate.requiredCount certificate) +:+ pct in
     Ret {| ConsensusResult.certificate := certificate;
            ConsensusResult.success := success;
            ConsensusResult.message := message |})
    (λ error_message,
       certificate ← createErrorCertificate h criteria geometricType error_message;
       Ret {| ConsensusResult.certificate := certificate;
              ConsensusResult.success := false;
              ConsensusResult.message :=
                "Consensus verification failed: " +:+ error_message |}).

Definition mustLocal h criteria :=
  verifyConsensus h criteria TETRAHEDRON "MUST (Local) - Unanimous consensus required".
Definition shouldLocal h criteria :=
  verifyConsensus h criteria OCTAHEDRON "SHOULD (Local) - Strong consensus preferred".
Definition mayLocal h criteria :=
  verifyConsensus h criteria CUBE "MAY (Local) - Majority consensus sufficient".
Definition mustFederation h criteria :=
  verifyConsensus h criteria FIVE_CELL
    "MUST (Federation) - Unanimous federation consensus required".
Definition shouldFederation h criteria :=
  verifyConsensus h criteria TWENTY_FOUR_CELL
    "SHOULD (Federation) - Strong federation consensus preferred".
Definition mayFederation h criteria :=
  verifyConsensus h criteria EIGHT_CELL
    "MAY (Federation) - Majority federation consensus sufficient".
Definition mustGlobal h criteria :=
  verifyConsensus h criteria TRUNCATED_TETRAHEDRON
    "MUST (Global) - Unanimous global consensus required".
Definition shouldGlobal h criteria :=
  verifyConsensus h criteria CUBOCTAHEDRON
    "SHOULD (Global) - Strong global consensus preferred".
Definition mayGlobal h criteria :=
  verifyConsensus h criteria TRUNCATED_CUBE
    "MAY (Global) - Majority global consensus sufficient".

(** [partitionInfo?.partitionCount || 1] *)
Definition partitionCount_or_1 (info : option PartitionFlags) : Z :=
  match info with
  | Some info => if partitionCount info =? 0 then 1 else partitionCount info
  | None => 1
  end.

(** The template that [handlePartitionedConsensus] appends is trimmed before
    the concatenation, so it starts at [PARTITION DETECTION:]. *)
Definition handlePartitionedConsensus (result : ConsensusResult.t)
    (_criteria : list DecisionVertex.t) (_expectedType : GeometricType)
    : ConsensusResult.t :=
  let certificate := ConsensusResult.certificate result in
  let partitionCount :=
    partitionCount_or_1 (ConsensusCertificate.partitionInfo certificate) in
  {| ConsensusResult.certificate := {|
       ConsensusCertificate.certificateId :=
         ConsensusCertificate.certificateId certificate;
       ConsensusCertificate.geometricType :=
         ConsensusCertificate.geometricType certificate;
       ConsensusCertificate.shape := ConsensusCertificate.shape certificate;
       ConsensusCertificate.vertices := ConsensusCertificate.vertices certificate;
       ConsensusCertificate.agreesCount :=
         ConsensusCertificate.agreesCount certificate;
       ConsensusCertificate.requiredCount :=
         ConsensusCertificate.requiredCount certificate;
       ConsensusCertificate.thresholdPercentage :=
         ConsensusCertificate.thresholdPercentage certificate;
       ConsensusCertificate.valid := ConsensusCertificate.valid certificate;
       ConsensusCertificate.proof :=
         ConsensusCertificate.proof certificate +:+ unlines [
           "PARTITION DETECTION:";
           "- Network is partitioned into " +:+ pretty partitionCount +:+ " components";
           "- Consensus verification within partitions required";
           "- This certificate represents partitioned consensus state"
         ];
       ConsensusCertificate.timestamp := ConsensusCertificate.timestamp certificate;
       ConsensusCertificate.bettiNumbers :=
         ConsensusCertificate.bettiNumbers certificate;
       ConsensusCertificate.partitionInfo :=
         ConsensusCertificate.partitionInfo certificate
     |};
     ConsensusResult.success := ConsensusResult.success result;
     ConsensusResult.message :=
       "Partitioned consensus: " +:+ ConsensusResult.message result +:+ " ("
         +:+ pretty partitionCount +:+ " partitions detected)" |}.

(** The value with which the promise of the [async] method is fulfilled. *)
Definition verifyConsensusWithPartitionDetection (h : Host)
    (criteria : list DecisionVertex.t) (expectedType : GeometricType)
    : js ConsensusResult.t :=
  result ← verifyConsensus h criteria expectedType "Partition-aware consensus";
  match ConsensusCertificate.partitionInfo (ConsensusResult.certificate result) with
  | Some {| isPartitioned := true |} =>
      Ret (handlePartitionedConsensus result criteria expectedType)
  | _ => Ret result
  end.

(** [!s] is [false] for a non-empty string. *)
Definition truthy (s : string) : bool :=
  match s with
  | EmptyString => false
  | String _ _ => true
  end.

(** The [vertices] array of a certificate is an object, hence truthy; no
    statement of the [try] block throws on a certificate of the declared
    type. *)
Definition validateCertificate (certificate : ConsensusCertificate.t) : bool :=
  if negb (truthy (ConsensusCertificate.certificateId certificate))
     || negb (truthy (ConsensusCertificate.geometricType certificate))
  then false
  else
    let actualAgrees :=
      Z.of_nat (length (filter (λ v, DecisionVertex.agrees v = true)
                          (ConsensusCertificate.vertices certificate))) in
    if negb (actualAgrees =? ConsensusCertificate.agreesCount certificate) then false
    else
      let expectedRequired :=
        calculateRequiredAgreement (ConsensusCertificate.shape certificate) in
      if negb (expectedRequired =? ConsensusCertificate.requiredCount certificate)
      then false
      else
        let expectedValid :=
          isValidForConsensus (ConsensusCertificate.shape certificate)
            (ConsensusCertificate.agreesCount certificate) in
        if negb (Bool.eqb expectedValid (ConsensusCertificate.valid certificate))
        then false
        else true.

End GeometricConsensus.

(** ** dual-recovery.ts *)

Module DualMapping.
Record t := mk {
  original : GeometricTypes.GeometricType;
  dual : GeometricTypes.GeometricType;
  thresholdMapping : number
}.
End DualMapping.

Module DualRecoveryResult.
Record t := mk {
  success : bool;
  recoveredCertificate : ConsensusCertificate.t;
  recoveryProof : string;
  dualMapping : DualMapping.t;
  timestamp : string
}.
End DualRecoveryResult.

(** The object returned by [applyDualMapping]. *)
Record UnifiedConsensus := {
  totalAgrees : Z;
  totalVertices : Z;
  unifiedThreshold : Q;
  unified_valid : bool
}.

(** The strategies ['dual' | 'hierarchical' | 'federated']. *)
Module RecoveryStrategy.
Inductive t := dual | hierarchical | federated.
End RecoveryStrategy.

Module RecoveryStep.
Record t := mk {
  stepId : string;
  description : string;
  geometricType : GeometricTypes.GeometricType;
  requiredParticipants : Z;
  expectedOutcome : string;
  dependencies : list string
}.
End RecoveryStep.

Module PartitionRecoveryPlan.
Record t := mk {
  planId : string;
  partitionCertificates : list ConsensusCertificate.t;
  originalType : GeometricTypes.GeometricType;
  recoveryStrategy : RecoveryStrategy.t;
  estimatedRecoveryTime : Z;
  recoverySteps : list RecoveryStep.t
}.
End PartitionRecoveryPlan.

Module DualPartitionRecovery.
Import GeometricTypes.

Definition validatePartitionCertificates (certificates : list ConsensusCertificate.t)
    : js unit :=
  if decide (length certificates = 0%nat)
  then Throw "No partition certificates provided"
  else
    let invalidCertificates :=
      filter (λ cert, ConsensusCertificate.valid cert = false) certificates in
    if decide (0 < length invalidCertificates)%nat
    then Throw ("Invalid certificates found: " +:+ pretty (length invalidCertificates))
    else
      match certificates !! 0%nat with
      | Some first =>
          let firstType := ConsensusCertificate.geometricType first in
          let inconsistentTypes :=
            filter (λ cert, ConsensusCertificate.geometricType cert ≠ firstType)
              certificates in
          if decide (0 < length inconsistentTypes)%nat
          then Throw "Inconsistent geometric types in partition certificates"
          else Ret ()
      | None => Throw "Cannot read properties of undefined (reading 'geometricType')"
      end.

Definition mapThresholdViaDual (partitionThreshold : Q)
    (original dual : GeometricType) : js number :=
  originalShape ← getGeometricShape original;
  dualShape ← getGeometricShape dual;
  if decide (original = dual) then Ret (Finite partitionThreshold)
  else
    let faceVertexRatio :=
      number_div (inject_Z (vertices dualShape)) (inject_Z (faces originalShape)) in
    let mappedThreshold := number_mul (Finite partitionThreshold) faceVertexRatio in
    Ret (Math_max (Finite 0) (Math_min (Finite 1) mappedThreshold)).

(** The fields of the result are kept in [Z] and [Q]; a unified threshold
    that is not finite ends the modelled execution with [NonFinite]. *)
Definition applyDualMapping (partitionCertificates : list ConsensusCertificate.t)
    (originalShape dualShape : GeometricShape) : js UnifiedConsensus :=
  let totalAgrees :=
    foldl (λ sum cert, sum + ConsensusCertificate.agreesCount cert) 0
      partitionCertificates in
  let totalVertices :=
    foldl (λ sum cert, sum + Z.of_nat (length (ConsensusCertificate.vertices cert))) 0
      partitionCertificates in
  unifiedThreshold ←
    mapThresholdViaDual (threshold originalShape) (type originalShape) (type dualShape);
  match unifiedThreshold with
  | Finite unifiedThreshold =>
      let requiredAgreement := Math_ceil (inject_Z totalVertices * unifiedThreshold) in
      let valid := totalAgrees >=? requiredAgreement in
      Ret {| totalAgrees := totalAgrees; totalVertices := totalVertices;
             unifiedThreshold := unifiedThreshold; unified_valid := valid |}
  | _ => NonFinite
  end.

Definition calculateThresholdMapping (original dual : GeometricShape) : number :=
  if decide (type original = type dual) then Finite 1.0
  else number_div (inject_Z (vertices dual)) (inject_Z (faces original)).

Definition shape_line (h : Host) (shape : GeometricShape) : string :=
  pretty (vertices shape) +:+ " vertices, " +:+ pretty (faces shape)
    +:+ " faces, threshold " +:+ percent h (threshold shape) +:+ "%".

Definition generateRecoveryProof (h : Host)
    (partitionCertificates : list ConsensusCertificate.t)
    (originalShape dualShape : GeometricShape) (unifiedConsensus : UnifiedConsensus)
    : string :=
  let partitionCount := length partitionCertificates in
  let totalAgrees := totalAgrees unifiedConsensus in
  let totalVertices := totalVertices unifiedConsensus in
  let unifiedThreshold := unifiedThreshold unifiedConsensus in
  unlines [
    "Dual Recovery Proof:";
    "";
    "Given:";
    "- Original Geometric Type: " +:+ name originalShape +:+ " (" +:+ type originalShape +:+ ")";
    "- Dual Geometric Type: " +:+ name dualShape +:+ " (" +:+ type dualShape +:+ ")";
    "- Partition Count: " +:+ pretty partitionCount;
    "- Total Agreements: " +:+ pretty totalAgrees +:+ "/" +:+ pretty totalVertices;
    "- Unified Threshold: " +:+ percent h unifiedThreshold +:+ "%";
    "";
    "Dual Mapping:";
    "1. Original: " +:+ shape_line h originalShape;
    "2. Dual: " +:+ shape_line h dualShape;
    "3. Face-Vertex Ratio: " +:+ pretty (vertices dualShape) +:+ "/"
      +:+ pretty (faces originalShape) +:+ " = "
      +:+ toFixed h
            (number_div (inject_Z (vertices dualShape)) (inject_Z (faces originalShape))) 3;
    "";
    "Recovery Process:";
    "1. Collect consensus from " +:+ pretty partitionCount +:+ " partitions";
    "2. Apply dual mapping to unify threshold semantics";
    "3. Verify geometric constraints are preserved";
    "4. Generate unified consensus certificate";
    "";
    "Mathematical Verification:";
    "- Required Agreement: ⌈" +:+ pretty totalVertices +:+ " × "
      +:+ show_number h unifiedThreshold +:+ "⌉ = "
      +:+ pretty (Math_ceil (inject_Z totalVertices * unifiedThreshold));
    "- Actual Agreement: " +:+ pretty totalAgrees;
    "- Consensus: " +:+ (if unified_valid unifiedConsensus then "ACHIEVED" else "FAILED");
    "";
    "Geometric Properties:";
    "- Duality preserves consensus semantics";
    "- Threshold mapping maintains geometric constraints";
    "- Topological invariants preserved across recovery";
    "";
    "This recovery follows RFC XXXX Appendix I dual recovery specifications."
  ].

Definition generateCertificateId (h : Host) : string :=
  "recovery-cert-" +:+ pretty (date_now h) +:+ "-" +:+ random36 h.

Definition createRecoveredCertificate (h : Host) (unifiedConsensus : UnifiedConsensus)
    (originalType : GeometricType) (partitionCertificates : list ConsensusCertificate.t)
    : js ConsensusCertificate.t :=
  originalShape ← getGeometricShape originalType;
  let allVertices := cert ← partitionCertificates; ConsensusCertificate.vertices cert in
  Ret {|
    ConsensusCertificate.certificateId := generateCertificateId h;
    ConsensusCertificate.geometricType := originalType;
    ConsensusCertificate.shape := originalShape;
    ConsensusCertificate.vertices := allVertices;
    ConsensusCertificate.agreesCount := totalAgrees unifiedConsensus;
    ConsensusCertificate.requiredCount :=
      Math_ceil (inject_Z (totalVertices unifiedConsensus)
                 * unifiedThreshold unifiedConsensus);
    ConsensusCertificate.thresholdPercentage := unifiedThreshold unifiedConsensus;
    ConsensusCertificate.valid := unified_valid unifiedConsensus;
    ConsensusCertificate.proof :=
      "Recovered from " +:+ pretty (length partitionCertificates)
        +:+ " partitions using dual mapping";
    ConsensusCertificate.timestamp := date_iso h;
    ConsensusCertificate.bettiNumbers :=
      Some {| beta_0 := 1; beta_1 := 0; beta_2 := 0 |};
    ConsensusCertificate.partitionInfo :=
      Some {| isPartitioned := false; partitionCount := 1 |}
  |}.

Definition createErrorCertificate (h : Host) (originalType : GeometricType)
    (error_message : string) : js ConsensusCertificate.t :=
  originalShape ← getGeometricShape originalType;
  Ret {|
    ConsensusCertificate.certificateId := generateCertificateId h;
    ConsensusCertificate.geometricType := originalType;
    ConsensusCertificate.shape := originalShape;
    ConsensusCertificate.vertices := [];
    ConsensusCertificate.agreesCount := 0;
    ConsensusCertificate.requiredCount := 0;
    ConsensusCertificate.thresholdPercentage := 0;
    ConsensusCertificate.valid := false;
    ConsensusCertificate.proof := "Recovery failed: " +:+ error_message;
    ConsensusCertificate.timestamp := date_iso h;
    ConsensusCertificate.bettiNumbers := None;
    ConsensusCertificate.partitionInfo := None
  |}.

Definition recoverFromPartition (h : Host)
    (partitionCertificates : list ConsensusCertificate.t)
    (originalType : GeometricType) : js DualRecoveryResult.t :=
  try_catch
    (validatePartitionCertificates partitionCertificates;;
     originalShape ← getGeometricShape originalType;
     dualShape ← getDual originalShape;
     match dualShape with
     | None => Throw ("No dual available for geometric type: " +:+ originalType)
     | Some dualShape =>
         unifiedConsensus ←
           applyDualMapping partitionCertificates originalShape dualShape;
         let recoveryProof :=
           generateRecoveryProof h partitionCertificates originalShape dualShape
             unifiedConsensus in
         recoveredCertificate ←
           createRecoveredCertificate h unifiedConsensus originalType
             partitionCertificates;
         Ret {|
           DualRecoveryResult.success := true;
           DualRecoveryResult.recoveredCertificate := recoveredCertificate;
           DualRecoveryResult.recoveryProof := recoveryProof;
           DualRecoveryResult.dualMapping :=
             {| DualMapping.original := originalType;
                DualMapping.dual := type dualShape;
                DualMapping.thresholdMapping :=
                  calculateThresholdMapping originalShape dualShape |};
           DualRecoveryResult.timestamp := date_iso h
         |}
     end)
    (λ error_message,
       recoveredCertificate ← createErrorCertificate h originalType error_message;
       Ret {|
         DualRecoveryResult.success := false;
         DualRecoveryResult.recoveredCertificate := recoveredCertificate;
         DualRecoveryResult.recoveryProof := "Recovery failed: " +:+ error_message;
         DualRecoveryResult.dualMapping :=
           {| DualMapping.original := originalType;
              DualMapping.dual := originalType;
              DualMapping.thresholdMapping := Finite 0 |};
         DualRecoveryResult.timestamp := date_iso h
       |}).

Definition determineRecoveryStrategy (partitionCertificates : list ConsensusCertificate.t)
    (_originalShape : GeometricShape) : RecoveryStrategy.t :=
  let partitionCount := length partitionCertificates in
  if decide (partitionCount ≤ 4)%nat then RecoveryStrategy.dual
  else if decide (partitionCount ≤ 8)%nat then RecoveryStrategy.hierarchical
  else RecoveryStrategy.federated.

(** [dualShape?.type || originalShape.type] *)
Definition dual_type_or (dualShape : option GeometricShape)
    (originalShape : GeometricShape) : GeometricType :=
  or_else (type <$> dualShape) (type originalShape).

Definition generateRecoverySteps (partitionCertificates : list ConsensusCertificate.t)
    (originalShape : GeometricShape) (dualShape : option GeometricShape)
    (strategy : RecoveryStrategy.t) : list RecoveryStep.t :=
  let n := Z.of_nat (length partitionCertificates) in
  match strategy with
  | RecoveryStrategy.dual => [
      {| RecoveryStep.stepId := "dual-1";
         RecoveryStep.description := "Apply dual mapping to unify threshold semantics";
         RecoveryStep.geometricType := dual_type_or dualShape originalShape;
         RecoveryStep.requiredParticipants := n;
         RecoveryStep.expectedOutcome := "Unified threshold calculated";
         RecoveryStep.dependencies := [] |};
      {| RecoveryStep.stepId := "dual-2";
         RecoveryStep.description := "Verify geometric constraints are preserved";
         RecoveryStep.geometricType := type originalShape;
         RecoveryStep.requiredParticipants := n;
         RecoveryStep.expectedOutcome := "Constraints verified";
         RecoveryStep.dependencies := ["dual-1"] |};
      {| RecoveryStep.stepId := "dual-3";
         RecoveryStep.description := "Generate unified consensus certificate";
         RecoveryStep.geometricType := type originalShape;
         RecoveryStep.requiredParticipants := n;
         RecoveryStep.expectedOutcome := "Recovery complete";
         RecoveryStep.dependencies := ["dual-1"; "dual-2"] |} ]
  | RecoveryStrategy.hierarchical => [
      {| RecoveryStep.stepId := "hier-1";
         RecoveryStep.description := "Group partitions into hierarchical levels";
         RecoveryStep.geometricType := TETRAHEDRON;
         RecoveryStep.requiredParticipants := Math_ceil (inject_Z n / 2);
         RecoveryStep.expectedOutcome := "Hierarchical structure established";
         RecoveryStep.dependencies := [] |};
      {| RecoveryStep.stepId := "hier-2";
         RecoveryStep.description := "Recover consensus at each hierarchical level";
         RecoveryStep.geometricType := OCTAHEDRON;
         RecoveryStep.requiredParticipants := Math_ceil (inject_Z n / 4);
         RecoveryStep.expectedOutcome := "Level-wise consensus achieved";
         RecoveryStep.dependencies := ["hier-1"] |};
      {| RecoveryStep.stepId := "hier-3";
         RecoveryStep.description := "Aggregate hierarchical consensus";
         RecoveryStep.geometricType := type originalShape;
         RecoveryStep.requiredParticipants := 1;
         RecoveryStep.expectedOutcome := "Final consensus recovered";
         RecoveryStep.dependencies := ["hier-1"; "hier-2"] |} ]
  | RecoveryStrategy.federated => [
      {| RecoveryStep.stepId := "fed-1";
         RecoveryStep.description := "Establish federation protocol";
         RecoveryStep.geometricType := TWENTY_FOUR_CELL;
         RecoveryStep.requiredParticipants := n;
         RecoveryStep.expectedOutcome := "Federation protocol established";
         RecoveryStep.dependencies := [] |};
      {| RecoveryStep.stepId := "fed-2";
         RecoveryStep.description := "Execute federated consensus";
         RecoveryStep.geometricType := TWENTY_FOUR_CELL;
         RecoveryStep.requiredParticipants := Math_ceil (inject_Z n * 0.8);
         RecoveryStep.expectedOutcome := "Federated consensus achieved";
         RecoveryStep.dependencies := ["fed-1"] |};
      {| RecoveryStep.stepId := "fed-3";
         RecoveryStep.description := "Reconcile with original geometric type";
         RecoveryStep.geometricType := type originalShape;
         RecoveryStep.requiredParticipants := n;
         RecoveryStep.expectedOutcome := "Recovery complete";
         RecoveryStep.dependencies := ["fed-1"; "fed-2"] |} ]
  end.

(** The weight that a step adds to [complexityMultiplier]. *)
Definition step_complexity (step : RecoveryStep.t) : Q :=
  if decide (RecoveryStep.geometricType step = TWENTY_FOUR_CELL) then 2
  else if decide (RecoveryStep.geometricType step = OCTAHEDRON) then 1.5
  else if decide (RecoveryStep.geometricType step = TETRAHEDRON) then 1
  else 1.

Definition estimateRecoveryTime (steps : list RecoveryStep.t) : Z :=
  let baseTimePerStep := 1000 in
  let complexityMultiplier :=
    foldl (λ sum step, sum + step_complexity step)%Q 0%Q steps in
  Math_ceil (inject_Z (Z.of_nat (length steps)) * inject_Z baseTimePerStep
             * complexityMultiplier).

Definition generatePlanId (h : Host) : string :=
  "recovery-plan-" +:+ pretty (date_now h) +:+ "-" +:+ random36 h.

Definition createRecoveryPlan (h : Host)
    (partitionCertificates : list ConsensusCertificate.t)
    (originalType : GeometricType) : js PartitionRecoveryPlan.t :=
  originalShape ← getGeometricShape originalType;
  dualShape ← getDual originalShape;
  let recoveryStrategy := determineRecoveryStrategy partitionCertificates originalShape in
  let recoverySteps :=
    generateRecoverySteps partitionCertificates originalShape dualShape
      recoveryStrategy in
  let estimatedRecoveryTime := estimateRecoveryTime recoverySteps in
  Ret {| PartitionRecoveryPlan.planId := generatePlanId h;
         PartitionRecoveryPlan.partitionCertificates := partitionCertificates;
         PartitionRecoveryPlan.originalType := originalType;
         PartitionRecoveryPlan.recoveryStrategy := recoveryStrategy;
         PartitionRecoveryPlan.estimatedRecoveryTime := estimatedRecoveryTime;
         PartitionRecoveryPlan.recoverySteps := recoverySteps |}.

(** [x < bound] and [x > bound] for a [number]; a comparison with NaN is
    [false]. *)
Definition number_lt (x : number) (bound : Q) : bool :=
  match x with
  | Finite q => negb (Qle_bool bound q)
  | NegInfinity => true
  | PosInfinity | NaN => false
  end.

Definition number_gt (x : number) (bound : Q) : bool :=
  match x with
  | Finite q => negb (Qle_bool q bound)
  | PosInfinity => true
  | NegInfinity | NaN => false
  end.

(** The two fields that the first test reads are objects, hence truthy. *)
Definition validateRecoveryResult (result : DualRecoveryResult.t) : js bool :=
  try_catch
    (originalShape ←
       getGeometricShape (DualMapping.original (DualRecoveryResult.dualMapping result));
     if decide (type originalShape
                ≠ ConsensusCertificate.geometricType
                    (DualRecoveryResult.recoveredCertificate result))
     then Ret false
     else
       let thresholdMapping :=
         DualMapping.thresholdMapping (DualRecoveryResult.dualMapping result) in
       if number_lt thresholdMapping 0 || number_gt thresholdMapping 10 then Ret false
       else Ret true)
    (λ _, Ret false).

End DualPartitionRecovery.

(** ** partition-detection.ts *)

Module PartitionInfo.
Record t := mk {
  isPartitioned : bool;
  partitionCount : Z;
  components : list (gset string);
  bettiNumbers : BettiNumbers;
  originalGeometricType : GeometricTypes.GeometricType;
  decomposedGeometricType : option GeometricTypes.GeometricType;
  partitionVertices : list (list DecisionVertex.t)
}.
End PartitionInfo.

(** The object returned by [analyzePartitionImpact]. *)
Module PartitionImpact.
Record t := mk {
  consensusPossible : bool;
  requiredAgreementPerPartition : list Z;
  totalRequiredAgreement : Z;
  impactAssessment : string
}.
End PartitionImpact.

Module PartitionDetector.
Import GeometricTypes.

(** The [decompositionMap] literal of [decomposeGeometricType]; an inner
    record is the list of its entries in the order of [Object.entries]
    (ascending keys, which is also the order of the literal). *)
Definition decompositionMap_entries : list (GeometricType * list (Z * GeometricType)) := [
  (CUBE, [(2, TETRAHEDRON); (4, TRIANGLE); (8, POINT)]);
  (OCTAHEDRON, [(2, TRIANGLE); (3, LINE); (6, POINT)]);
  (TETRAHEDRON, [(2, LINE); (4, POINT)]);
  (TWENTY_FOUR_CELL,
    [(2, DODECAHEDRON); (3, OCTAHEDRON); (4, TETRAHEDRON); (6, SQUARE);
     (8, TRIANGLE); (12, LINE); (24, POINT)]);
  (FIVE_CELL, [(2, TRIANGLE); (5, POINT)]);
  (DODECAHEDRON,
    [(2, ICOSAHEDRON); (4, OCTAHEDRON); (5, TETRAHEDRON); (10, TRIANGLE); (20, POINT)]);
  (ICOSAHEDRON,
    [(2, DODECAHEDRON); (3, OCTAHEDRON); (4, TETRAHEDRON); (6, TRIANGLE); (12, POINT)]);
  (POINT, [(1, POINT)]);
  (LINE, [(1, LINE); (2, POINT)]);
  (TRIANGLE, [(1, TRIANGLE); (2, LINE); (3, POINT)]);
  (SQUARE, [(1, SQUARE); (2, LINE); (4, POINT)]);
  (EIGHT_CELL, [(1, EIGHT_CELL); (2, CUBE); (4, TETRAHEDRON); (8, POINT)]);
  (SIXTEEN_CELL,
    [(1, SIXTEEN_CELL); (2, OCTAHEDRON); (4, TETRAHEDRON); (8, TRIANGLE); (16, POINT)]);
  (SIX_HUNDRED_CELL,
    [(1, SIX_HUNDRED_CELL); (2, ICOSAHEDRON); (3, DODECAHEDRON); (4, OCTAHEDRON);
     (5, TETRAHEDRON); (6, TRIANGLE); (10, LINE); (20, POINT)]);
  (TRUNCATED_TETRAHEDRON, [(1, TRUNCATED_TETRAHEDRON); (2, TRIANGLE); (4, POINT)]);
  (CUBOCTAHEDRON, [(1, CUBOCTAHEDRON); (2, TETRAHEDRON); (3, TRIANGLE); (6, POINT)]);
  (TRUNCATED_CUBE, [(1, TRUNCATED_CUBE); (2, CUBE); (4, TETRAHEDRON); (8, POINT)]);
  (TRUNCATED_OCTAHEDRON,
    [(1, TRUNCATED_OCTAHEDRON); (2, OCTAHEDRON); (3, TETRAHEDRON); (6, POINT)]);
  (RHOMBICUBOCTAHEDRON,
    [(1, RHOMBICUBOCTAHEDRON); (2, CUBE); (4, TETRAHEDRON); (8, POINT)]);
  (TRUNCATED_CUBOCTAHEDRON,
    [(1, TRUNCATED_CUBOCTAHEDRON); (2, CUBOCTAHEDRON); (3, TETRAHEDRON); (6, POINT)]);
  (SNUB_CUBE, [(1, SNUB_CUBE); (2, CUBE); (4, TETRAHEDRON); (8, POINT)]);
  (ICOSIDODECAHEDRON,
    [(1, ICOSIDODECAHEDRON); (2, DODECAHEDRON); (3, ICOSAHEDRON); (6, TETRAHEDRON);
     (12, POINT)]);
  (TRUNCATED_DODECAHEDRON,
    [(1, TRUNCATED_DODECAHEDRON); (2, DODECAHEDRON); (3, ICOSAHEDRON); (6, TETRAHEDRON);
     (12, POINT)]);
  (TRUNCATED_ICOSAHEDRON,
    [(1, TRUNCATED_ICOSAHEDRON); (2, ICOSAHEDRON); (3, DODECAHEDRON); (6, TETRAHEDRON);
     (12, POINT)]);
  (RHOMBICOSIDODECAHEDRON,
    [(1, RHOMBICOSIDODECAHEDRON); (2, DODECAHEDRON); (3, ICOSAHEDRON); (6, TETRAHEDRON);
     (12, POINT)]);
  (TRUNCATED_ICOSIDODECAHEDRON,
    [(1, TRUNCATED_ICOSIDODECAHEDRON); (2, ICOSAHEDRON); (3, DODECAHEDRON);
     (6, TETRAHEDRON); (12, POINT)]);
  (SNUB_DODECAHEDRON,
    [(1, SNUB_DODECAHEDRON); (2, DODECAHEDRON); (3, ICOSAHEDRON); (6, TETRAHEDRON);
     (12, POINT)])
].

Definition decompositionMap : gmap string (list (Z * GeometricType)) :=
  list_to_map decompositionMap_entries.

(** [Math.floor(x) >= bound] for a quotient [x] *)
Definition floor_ge (x : number) (bound : Z) : bool :=
  match x with
  | Finite q => Qfloor q >=? bound
  | PosInfinity => true
  | NegInfinity | NaN => false
  end.

Definition getDefaultDecomposition (original : GeometricType) (partitionCount : Z)
    : js GeometricType :=
  shape ← getGeometricShape original;
  let verticesPerPartition :=
    number_div (inject_Z (vertices shape)) (inject_Z partitionCount) in
  if floor_ge verticesPerPartition 20 then Ret DODECAHEDRON
  else if floor_ge verticesPerPartition 12 then Ret ICOSAHEDRON
  else if floor_ge verticesPerPartition 8 then Ret CUBE
  else if floor_ge verticesPerPartition 6 then Ret OCTAHEDRON
  else if floor_ge verticesPerPartition 4 then Ret TETRAHEDRON
  else if floor_ge verticesPerPartition 3 then Ret TRIANGLE
  else if floor_ge verticesPerPartition 2 then Ret LINE
  else Ret POINT.

(** One iteration of the loop over [Object.entries(typeDecompositions)]. *)
Definition best_step (partitionCount : Z) (best : GeometricType * Z)
    (entry : Z * GeometricType) : GeometricType * Z :=
  let '(bestMatch, bestPartitionCount) := best in
  let '(count, decomposedType) := entry in
  if (count <=? partitionCount) && (count >? bestPartitionCount)
  then (decomposedType, count)
  else (bestMatch, bestPartitionCount).

(** [decompositionMap[original]], as the list that [Object.entries] makes of
    it: the table of the literal; no entry for a member inherited from
    [Object.prototype]; [None] for [undefined]. *)
Definition typeDecompositions (original : GeometricType)
    : option (list (Z * GeometricType)) :=
  match decompositionMap !! original with
  | Some table => Some table
  | None => if bool_decide (original ∈ Object_prototype_members) then Some [] else None
  end.

Definition decomposeGeometricType (original : GeometricType) (partitionCount : Z)
    : js GeometricType :=
  match typeDecompositions original with
  | None => getDefaultDecomposition original partitionCount
  | Some entries =>
      let '(bestMatch, _) := foldl (best_step partitionCount) (POINT, 0) entries in
      Ret bestMatch
  end.

Definition vertexToType : list (Z * GeometricType) := [
  (1, POINT); (2, LINE); (3, TRIANGLE); (4, TETRAHEDRON); (5, FIVE_CELL);
  (6, OCTAHEDRON); (8, CUBE); (12, ICOSAHEDRON); (16, EIGHT_CELL);
  (20, DODECAHEDRON); (24, TWENTY_FOUR_CELL); (120, SIX_HUNDRED_CELL)
].

Definition inferGeometricType (vertexCount : Z) : GeometricType :=
  default CUBE ((list_to_map vertexToType : gmap Z GeometricType) !! vertexCount).

(** The detector has its own copies of the two graph builders of the
    verifier. *)
Definition convertToVertices (vertices : list DecisionVertex.t) : list Vertex.t :=
  (λ v, {| Vertex.id := DecisionVertex.id v;
           Vertex.name := DecisionVertex.name v;
           Vertex.connected := ∅ |}) <$> vertices.

Definition buildConsensusEdges (vertices : list DecisionVertex.t) : list Edge.t :=
  let n := length vertices in
  i ← seq 0 n; j ← seq (i + 1) (n - (i + 1));
  match vertices !! i, vertices !! j with
  | Some v1, Some v2 =>
      if Bool.eqb (DecisionVertex.agrees v1) (DecisionVertex.agrees v2)
      then [ {| Edge.id := "consensus-edge-" +:+ pretty i +:+ "-" +:+ pretty j;
                Edge.from := DecisionVertex.id v1;
                Edge.to := DecisionVertex.id v2 |} ]
      else []
  | _, _ => []
  end.

(** The adjacency lists, a [Map] from an identifier to the array of its
    neighbours: [adjacency.get(k)?.push(x)] does nothing when [k] is not a
    key. *)
Definition adjacency_lists (vertices : list DecisionVertex.t) (edges : list Edge.t)
    : gmap string (list string) :=
  let adjacency :=
    foldl (λ adjacency v, <[DecisionVertex.id v := []]> adjacency) ∅ vertices in
  foldl (λ adjacency edge,
           let adjacency :=
             alter (λ neighbors, neighbors ++ [Edge.to edge]) (Edge.from edge)
               adjacency in
           alter (λ neighbors, neighbors ++ [Edge.from edge]) (Edge.to edge)
             adjacency)
    adjacency edges.

(** The state of a search is the pair of the sets [visited] and
    [component], of which the source only tests membership.  [fuel] bounds
    the depth of the recursion. *)
Fixpoint dfs (fuel : nat) (vertexId : string) (adjacency : gmap string (list string))
    (state : gset string * gset string) : js (gset string * gset string) :=
  match fuel with
  | O => Fuel
  | S fuel =>
      let '(visited, component) := state in
      let visited := {[vertexId]} ∪ visited in
      let component := {[vertexId]} ∪ component in
      let neighbors := default [] (adjacency !! vertexId) in
      for_each neighbors (visited, component)
        (λ neighborId state,
           if decide (neighborId ∈ state.1) then Ret state
           else dfs fuel neighborId adjacency state)
  end.

(** A search visits identifiers of vertices and end points of edges, each
    at most once, which bounds the depth of its recursion
    ([findConnectedComponents_total]). *)
Definition findConnectedComponents (vertices : list DecisionVertex.t)
    (edges : list Edge.t) : js (list (gset string)) :=
  let adjacency := adjacency_lists vertices edges in
  let fuel := (length vertices + 2 * length edges)%nat in
  '(_, components) ←
    for_each vertices (∅, [])
      (λ vertex '(visited, components),
         if decide (DecisionVertex.id vertex ∈ visited)
         then Ret (visited, components)
         else
           '(visited, component) ←
             dfs fuel (DecisionVertex.id vertex) adjacency (visited, ∅);
           Ret (visited, components ++ [component]));
  Ret components.

Definition groupVerticesByPartition (vertices : list DecisionVertex.t)
    (components : list (gset string)) : list (list DecisionVertex.t) :=
  (λ component, filter (λ vertex, DecisionVertex.id vertex ∈ component) vertices)
    <$> components.

Definition detectViaBettiNumbers (vertices : list DecisionVertex.t)
    : js PartitionInfo.t :=
  let topologicalVertices := convertToVertices vertices in
  let edges := buildConsensusEdges vertices in
  bettiNumbers ← BettiCalculator.calculateBettiNumbers topologicalVertices edges;
  let isPartitioned := BettiCalculator.detectPartition bettiNumbers in
  let partitionCount := BettiCalculator.countPartitions bettiNumbers in
  components ← findConnectedComponents vertices edges;
  let originalGeometricType := inferGeometricType (Z.of_nat (length vertices)) in
  decomposedGeometricType ←
    (if isPartitioned
     then decomposed ← decomposeGeometricType originalGeometricType partitionCount;
          Ret (Some decomposed)
     else Ret None);
  let partitionVertices := groupVerticesByPartition vertices components in
  Ret {| PartitionInfo.isPartitioned := isPartitioned;
         PartitionInfo.partitionCount := partitionCount;
         PartitionInfo.components := components;
         PartitionInfo.bettiNumbers := bettiNumbers;
         PartitionInfo.originalGeometricType := originalGeometricType;
         PartitionInfo.decomposedGeometricType := decomposedGeometricType;
         PartitionInfo.partitionVertices := partitionVertices |}.

(** [partition.filter(v => v.agrees).length] *)
Definition agreesCount (partition : list DecisionVertex.t) : Z :=
  Z.of_nat (length (filter (λ v, DecisionVertex.agrees v = true) partition)).

Definition analyzePartitionImpact (partitionInfo : PartitionInfo.t)
    : js PartitionImpact.t :=
  let partitionVertices := PartitionInfo.partitionVertices partitionInfo in
  match PartitionInfo.decomposedGeometricType partitionInfo with
  | Some (String c rest) =>
      decomposedShape ← getGeometricShape (String c rest);
      let requiredAgreementPerPartition :=
        (λ partition : list DecisionVertex.t,
           Math_ceil (inject_Z (Z.of_nat (length partition)) * threshold decomposedShape))
          <$> partitionVertices in
      let totalRequiredAgreement :=
        foldl (λ sum req, sum + req) 0 requiredAgreementPerPartition in
      let consensusPossible :=
        forallb (λ '(partition, required), agreesCount partition >=? required)
          (zip partitionVertices requiredAgreementPerPartition) in
      let impactAssessment :=
        if consensusPossible
        then "Consensus achievable within all "
             +:+ pretty (PartitionInfo.partitionCount partitionInfo) +:+ " partitions"
        else
          let failedPartitions :=
            length (filter (λ '(partition, required), agreesCount partition < required)
                      (zip partitionVertices requiredAgreementPerPartition)) in
          "Consensus failed in " +:+ pretty failedPartitions +:+ "/"
            +:+ pretty (PartitionInfo.partitionCount partitionInfo) +:+ " partitions" in
      Ret {| PartitionImpact.consensusPossible := consensusPossible;
             PartitionImpact.requiredAgreementPerPartition :=
               requiredAgreementPerPartition;
             PartitionImpact.totalRequiredAgreement := totalRequiredAgreement;
             PartitionImpact.impactAssessment := impactAssessment |}
  | _ =>
      Ret {| PartitionImpact.consensusPossible := false;
             PartitionImpact.requiredAgreementPerPartition := [];
             PartitionImpact.totalRequiredAgreement := 0;
             PartitionImpact.impactAssessment :=
               "No decomposition available for partitioned network" |}
  end.

Definition validatePartitionDetection (partitionInfo : PartitionInfo.t) : js bool :=
  try_catch
    (if PartitionInfo.partitionCount partitionInfo <? 1 then Ret false
     else if negb (beta_0 (PartitionInfo.bettiNumbers partitionInfo)
                   =? PartitionInfo.partitionCount partitionInfo)
     then Ret false
     else if negb (Z.of_nat (length (PartitionInfo.components partitionInfo))
                   =? PartitionInfo.partitionCount partitionInfo)
     then Ret false
     else
       for_each (PartitionInfo.partitionVertices partitionInfo) (∅ : gset string)
         (λ partition allVertexIds,
            for_each partition allVertexIds
              (λ vertex allVertexIds,
                 if decide (DecisionVertex.id vertex ∈ allVertexIds)
                 then Throw "Vertex appears in multiple partitions"
                 else Ret ({[DecisionVertex.id vertex]} ∪ allVertexIds)));;
       Ret true)
    (λ _, Ret false).

End PartitionDetector.

(** * Vocabulary of the statements *)

(** The number of entries of [visited] that are still [false]. *)
Definition unvisited (visited : list bool) : nat :=
  length (filter (λ b, b = false) visited).

(** [visited'] has every mark of [visited]. *)
Definition extends (visited visited' : list bool) : Prop :=
  Forall2 (λ a b, a = true → b = true) visited visited'.

(** An [n] by [n] matrix. *)
Definition square (n : nat) (matrix : list (list Z)) : Prop :=
  length matrix = n ∧ Forall (λ row, length row = n) matrix.

(** [matrix[a][b]] *)
Definition cell (matrix : list (list Z)) (a b : nat) : option Z :=
  matrix !! a ≫= (.!! b).

(** An edge [e] links the indices [a] and [b]. *)
Definition links (index : gmap string nat) (e : Edge.t) (a b : nat) : Prop :=
  (index !! Edge.from e = Some a ∧ index !! Edge.to e = Some b) ∨
  (index !! Edge.from e = Some b ∧ index !! Edge.to e = Some a).

(** The agreement value of the vote at index [k]. *)
Definition side (criteria : list DecisionVertex.t) (k : nat) : bool :=
  default false (DecisionVertex.agrees <$> criteria !! k).

(** Whether a vote of value [c] occurs among the first [i] votes. *)
Definition seen (criteria : list DecisionVertex.t) (i : nat) (c : bool) : bool :=
  existsb (λ v, Bool.eqb (DecisionVertex.agrees v) c) (take i criteria).

Definition b2z (b : bool) : Z := if b then 1 else 0.

(** The number of agreement values that occur among the first [i] votes. *)
Definition sides_seen (criteria : list DecisionVertex.t) (i : nat) : Z :=
  b2z (seen criteria i true) + b2z (seen criteria i false).

(** [r] is the least integer that is not below [x]. *)
Definition is_ceiling (r : Z) (x : Q) : Prop :=
  (inject_Z (r - 1) < x)%Q ∧ (x <= inject_Z r)%Q.

(** The same required count in IEEE binary64: the threshold is the double
    nearest to the decimal literal (the correctly rounded quotient of its
    numerator and denominator), the product is rounded, then [Math.ceil]. *)
Definition binary64_of_Z (z : Z) : PrimFloat.float :=
  PrimFloat.of_uint63 (Uint63.of_Z z).

Definition binary64_of_Q (q : Q) : PrimFloat.float :=
  PrimFloat.div (binary64_of_Z (Qnum q)) (binary64_of_Z (Z.pos (Qden q))).

Definition binary64_ceil (x : PrimFloat.float) : option Z :=
  match FloatOps.Prim2SF x with
  | SpecFloat.S754_zero _ => Some 0
  | SpecFloat.S754_finite sign m e =>
      let v := if sign then Z.neg m else Z.pos m in
      Some (if 0 <=? e then v * 2 ^ e else - ((- v) / 2 ^ (- e)))
  | _ => None
  end.

Definition binary64_calculateRequiredAgreement (shape : GeometricTypes.GeometricShape)
    : option Z :=
  binary64_ceil
    (PrimFloat.mul (binary64_of_Z (GeometricTypes.vertices shape))
       (binary64_of_Q (GeometricTypes.threshold shape))).

(** The number of votes whose agreement flag is [true]. *)
Definition agreeing (criteria : list DecisionVertex.t) : Z :=
  Z.of_nat (count_occ Bool.bool_dec (DecisionVertex.agrees <$> criteria) true).

(** The sum of the agreement counts of the piece certificates. *)
Definition sum_agreesCount (certificates : list ConsensusCertificate.t) : Z :=
  foldr (λ cert total, ConsensusCertificate.agreesCount cert + total) 0 certificates.

(** [x] brought into the interval from 0 to 1. *)
Definition clamp01 (x : Q) : Q := Qmax 0 (Qmin 1 x).

(** The unified threshold as the specification words it: the ratio of the
    dual's vertex count to the original's face count, clamped. *)
Definition spec_unifiedThreshold (originalShape dualShape : GeometricTypes.GeometricShape)
    : Q :=
  clamp01 (inject_Z (GeometricTypes.vertices dualShape)
           / inject_Z (GeometricTypes.faces originalShape)).

(** [(key, value)] is the entry of [table] with the largest key that does not
    exceed [partitionCount]. *)
Definition largest_key_le (table : list (Z * GeometricTypes.GeometricType))
    (partitionCount key : Z) (value : GeometricTypes.GeometricType) : Prop :=
  (key, value) ∈ table ∧ key ≤ partitionCount ∧
  ∀ key' value', (key', value') ∈ table → key' ≤ partitionCount → key' ≤ key.

(** A host and votes for the examples. *)
Definition sample_host : Host := {|
  date_now := 0;
  date_iso := "1970-01-01T00:00:00.000Z";
  random36 := "000000";
  toFixed := λ _ _, "?";
  show_number := λ _, "?"
|}.

Definition vote (id : string) (agrees : bool) : DecisionVertex.t :=
  {| DecisionVertex.id := id; DecisionVertex.name := id;
     DecisionVertex.agrees := agrees;
     DecisionVertex.justification := None; DecisionVertex.weight := None |}.

(** The certificates that the runs of the verifier returned. *)
Definition certificates_of (runs : list (js ConsensusResult.t))
    : list ConsensusCertificate.t :=
  run ← runs;
  match run with
  | Ret result => [ConsensusResult.certificate result]
  | _ => []
  end.

(** Two pieces of two agreeing votes each, verified against the line (both
    valid) and against the tetrahedron (both invalid: 2 of 4). *)
Definition piece_A : list DecisionVertex.t := [vote "node1" true; vote "node2" true].
Definition piece_B : list DecisionVertex.t := [vote "node3" true; vote "node4" true].

Definition line_pieces : list ConsensusCertificate.t :=
  certificates_of [
    GeometricConsensus.verifyConsensus sample_host piece_A GeometricTypes.LINE "piece A";
    GeometricConsensus.verifyConsensus sample_host piece_B GeometricTypes.LINE "piece B"
  ].

Definition tetrahedron_pieces : list ConsensusCertificate.t :=
  certificates_of [
    GeometricConsensus.mustLocal sample_host piece_A;
    GeometricConsensus.mustLocal sample_host piece_B
  ].

(** Two pieces of four agreeing and four disagreeing votes each, verified
    against the cube (both valid: 4 of 8). *)
Definition piece_C : list DecisionVertex.t :=
  [vote "c1" true; vote "c2" true; vote "c3" true; vote "c4" true;
   vote "c5" false; vote "c6" false; vote "c7" false; vote "c8" false].
Definition piece_D : list DecisionVertex.t :=
  [vote "d1" true; vote "d2" true; vote "d3" true; vote "d4" true;
   vote "d5" false; vote "d6" false; vote "d7" false; vote "d8" false].

Definition cube_pieces : list ConsensusCertificate.t :=
  certificates_of [
    GeometricConsensus.mayLocal sample_host piece_C;
    GeometricConsensus.mayLocal sample_host piece_D
  ].

(** The Betti numbers that a recovery writes into its certificate, and those
    of the agreement graph of the votes of that certificate. *)
Definition recovered_betti (run : js DualRecoveryResult.t)
    : js (option BettiNumbers * BettiNumbers) :=
  result ← run;
  let certificate := DualRecoveryResult.recoveredCertificate result in
  recomputed ←
    BettiCalculator.calculateBettiNumbers
      (GeometricConsensus.convertToVertices (ConsensusCertificate.vertices certificate))
      (GeometricConsensus.buildConsensusEdges (ConsensusCertificate.vertices certificate));
  Ret (ConsensusCertificate.bettiNumbers certificate, recomputed).

(** The counts and the verdict of a run of the verifier. *)
Definition verdict (run : js ConsensusResult.t) : js (Z * Z * bool) :=
  result ← run;
  let certificate := ConsensusResult.certificate result in
  Ret (ConsensusCertificate.agreesCount certificate,
       ConsensusCertificate.requiredCount certificate,
       ConsensusCertificate.valid certificate).

(** The success flag, the counts and the verdict of a recovery. *)
Definition recovery_verdict (run : js DualRecoveryResult.t) : js (bool * Z * Z * bool) :=
  result ← run;
  let certificate := DualRecoveryResult.recoveredCertificate result in
  Ret (DualRecoveryResult.success result,
       ConsensusCertificate.agreesCount certificate,
       ConsensusCertificate.requiredCount certificate,
       ConsensusCertificate.valid certificate).

(** The Betti numbers of the agreement graph of a vote list. *)
Definition betti_of_votes (criteria : list DecisionVertex.t) : js BettiNumbers :=
  BettiCalculator.calculateBettiNumbers (GeometricConsensus.convertToVertices criteria)
    (GeometricConsensus.buildConsensusEdges criteria).

(** Votes for the examples of the agreement graph. *)
Definition unanimous_votes : list DecisionVertex.t :=
  [vote "a" true; vote "b" true; vote "c" true; vote "d" true].

Definition split_votes : list DecisionVertex.t :=
  [vote "a" true; vote "b" true; vote "c" true;
   vote "d" false; vote "e" false; vote "f" false].

Definition same_id_votes : list DecisionVertex.t :=
  [vote "x" true; vote "x" true; vote "x" true].

Definition octahedron_votes : list DecisionVertex.t :=
  [vote "a" true; vote "b" true; vote "c" true; vote "d" true; vote "e" true;
   vote "f" false].

(** ** Vocabulary of the further results *)

(** [b] is found from [a] along cells of the matrix that hold 1. *)
Definition reaches (adjacency : list (list Z)) : nat → nat → Prop :=
  rtc (λ a b, BettiCalculator.adjacent adjacency a b = true).

(** Every neighbour of a marked vertex is marked. *)
Definition marks_closed (adjacency : list (list Z)) (visited : list bool) : Prop :=
  ∀ a b, BettiCalculator.is_visited visited a = true →
         BettiCalculator.adjacent adjacency a b = true →
         BettiCalculator.is_visited visited b = true.

(** Two vertices are linked when an edge has their identifiers as its end
    points, in either direction; a graph is connected when every two of its
    vertices are joined by a chain of links. *)
Definition linked (vertices : list Vertex.t) (edges : list Edge.t) (x y : string) : Prop :=
  x ∈ Vertex.id <$> vertices ∧ y ∈ Vertex.id <$> vertices ∧
  ∃ e, e ∈ edges ∧ ((Edge.from e = x ∧ Edge.to e = y) ∨
                    (Edge.from e = y ∧ Edge.to e = x)).

Definition connected (vertices : list Vertex.t) (edges : list Edge.t) : Prop :=
  ∀ x y, x ∈ Vertex.id <$> vertices → y ∈ Vertex.id <$> vertices →
         rtc (linked vertices edges) x y.

(** The adjacency matrix of the graph on [n] vertices whose edges join the
    index pairs [pairs]. *)
Definition matrix_of_pairs (n : nat) (pairs : list (nat * nat)) : list (list Z) :=
  foldl (λ matrix p,
           BettiCalculator.set_cell p.2 p.1 (BettiCalculator.set_cell p.1 p.2 matrix))
    (replicate n (replicate n 0)) pairs.

(** The edge that [push_edges] makes of a connection between two vertices
    of the list. *)
Definition edge_of (vertices : list Vertex.t) (edge_id : nat → nat * nat → string)
    (entry : nat * (nat * nat)) : Edge.t :=
  {| Edge.id := edge_id entry.1 entry.2;
     Edge.from := default "" ((Vertex.id <$> vertices) !! entry.2.1);
     Edge.to := default "" ((Vertex.id <$> vertices) !! entry.2.2) |}.

(** The number of pairs of votes with the same agreement value. *)
Fixpoint pairs_same (votes : list DecisionVertex.t) : nat :=
  match votes with
  | [] => 0
  | v :: votes =>
      length (filter (λ w, DecisionVertex.agrees w = DecisionVertex.agrees v) votes)
      + pairs_same votes
  end.

(** The number of votes whose agreement flag is [false]. *)
Definition disagreeing (criteria : list DecisionVertex.t) : Z :=
  Z.of_nat (count_occ Bool.bool_dec (DecisionVertex.agrees <$> criteria) false).

(** Twice the number of independent cycles of a complete graph on [k]
    vertices. *)
Definition clique_cycles2 (k : Z) : Z := if k =? 0 then 0 else (k - 1) * (k - 2).

(** The nine convenience methods of the verifier and the keyword that the
    name of each spells. *)
Definition keyword_methods
    : list ((Host → list DecisionVertex.t → js ConsensusResult.t) * string) := [
  (GeometricConsensus.mustLocal, "MUST_LOCAL");
  (GeometricConsensus.shouldLocal, "SHOULD_LOCAL");
  (GeometricConsensus.mayLocal, "MAY_LOCAL");
  (GeometricConsensus.mustFederation, "MUST_FEDERATION");
  (GeometricConsensus.shouldFederation, "SHOULD_FEDERATION");
  (GeometricConsensus.mayFederation, "MAY_FEDERATION");
  (GeometricConsensus.mustGlobal, "MUST_GLOBAL");
  (GeometricConsensus.shouldGlobal, "SHOULD_GLOBAL");
  (GeometricConsensus.mayGlobal, "MAY_GLOBAL")
].

(** An edge [e] joins [k] to [x] in the adjacency lists of the detector. *)
Definition joins (e : Edge.t) (k x : string) : Prop :=
  (Edge.from e = k ∧ Edge.to e = x) ∨ (Edge.to e = k ∧ Edge.from e = x).

(** Every identifier that a search of the detector can meet. *)
Definition identifiers (vertices : list DecisionVertex.t) (edges : list Edge.t)
    : gset string :=
  list_to_set ((DecisionVertex.id <$> vertices)
               ++ (Edge.from <$> edges) ++ (Edge.to <$> edges)).

(** The identifiers of the votes whose agreement value is [c]. *)
Definition side_ids (votes : list DecisionVertex.t) (c : bool) : gset string :=
  list_to_set (DecisionVertex.id
               <$> filter (λ v, DecisionVertex.agrees v = c) votes).

(** The agreement values of the votes, in the order of their first
    occurrence. *)
Definition sides_in_order (votes : list DecisionVertex.t) : list bool :=
  foldl (λ sides v, if decide (DecisionVertex.agrees v ∈ sides) then sides
                    else sides ++ [DecisionVertex.agrees v]) [] votes.

(** The votes grouped by agreement value, in that order. *)
Definition pieces (votes : list DecisionVertex.t) : list (list DecisionVertex.t) :=
  (λ c, filter (λ v, DecisionVertex.agrees v = c) votes) <$> sides_in_order votes.

(** Vertices and graphs for the examples of the further results. *)
Definition four_vertices : list Vertex.t :=
  GeometricConsensus.convertToVertices unanimous_votes.

Definition eight_vertices : list Vertex.t :=
  GeometricConsensus.convertToVertices piece_C.

Definition split_graph_vertices : list Vertex.t :=
  GeometricConsensus.convertToVertices split_votes.

Definition split_graph_edges : list Edge.t :=
  GeometricConsensus.buildConsensusEdges split_votes.

(** What a detection reports: the partition count, the numbers of
    components and of groups, the decomposed shape, and the verdict of
    [validatePartitionDetection] on it. *)
Definition detection_summary (votes : list DecisionVertex.t)
    : js (Z * nat * nat * option GeometricTypes.GeometricType * js bool) :=
  info ← PartitionDetector.detectViaBettiNumbers votes;
  Ret (PartitionInfo.partitionCount info,
       length (PartitionInfo.components info),
       length (PartitionInfo.partitionVertices info),
       PartitionInfo.decomposedGeometricType info,
       PartitionDetector.validatePartitionDetection info).

(** * Tactics *)

(** Reduction of the monad operations only. *)
Tactic Notation "js_simpl" := cbn [mbind js_bind mret js_ret try_catch].
Tactic Notation "js_simpl" "in" hyp(H) :=
  cbn [mbind js_bind mret js_ret try_catch] in H.

(** Decision of a closed statement by evaluation. *)
Ltac by_evaluation :=
  first [ vm_compute; reflexivity
        | apply (bool_decide_unpack _); vm_compute; exact I ].

(** A dependency of a recovery step is the identifier of one of the two
    steps before it. *)
Ltac earlier_step :=
  first [ by (exists 0%nat; eexists; split_and!; [lia|reflexivity|reflexivity])
        | by (exists 1%nat; eexists; split_and!; [lia|reflexivity|reflexivity]) ].

(** * The embedding on the scenarios of the specification *)

Example tetrahedron_four_of_four :
  verdict (GeometricConsensus.mustLocal sample_host unanimous_votes) = Ret (4, 4, true).
Proof. by_evaluation. Qed.

Example octahedron_five_of_six :
  verdict (GeometricConsensus.shouldLocal sample_host octahedron_votes)
  = Ret (5, 5, true).
Proof. by_evaluation. Qed.

Example cube_three_of_six :
  verdict (GeometricConsensus.mayLocal sample_host split_votes) = Ret (3, 4, false).
Proof. by_evaluation. Qed.

Example unanimous_votes_connected :
  betti_of_votes unanimous_votes = Ret {| beta_0 := 1; beta_1 := 3; beta_2 := 0 |}.
Proof. by_evaluation. Qed.

Example split_votes_two_components :
  betti_of_votes split_votes = Ret {| beta_0 := 2; beta_1 := 2; beta_2 := 0 |}.
Proof. by_evaluation. Qed.

Example no_votes_no_component :
  betti_of_votes [] = Ret {| beta_0 := 0; beta_1 := 0; beta_2 := 0 |}.
Proof. by_evaluation. Qed.

(** With a repeated identifier the index map keeps the last position, the
    other positions have no edge, and agreeing votes fall apart. *)
Example same_id_votes_three_components :
  betti_of_votes same_id_votes = Ret {| beta_0 := 3; beta_1 := 3; beta_2 := 0 |}.
Proof. by_evaluation. Qed.

Example recover_line_pieces_against_cube :
  recovery_verdict
    (DualPartitionRecovery.recoverFromPartition sample_host line_pieces
       GeometricTypes.CUBE)
  = Ret (true, 4, 2, true).
Proof. by_evaluation. Qed.

Example recover_cube_pieces_against_cube :
  recovery_verdict
    (DualPartitionRecovery.recoverFromPartition sample_host cube_pieces
       GeometricTypes.CUBE)
  = Ret (true, 8, 8, true).
Proof. by_evaluation. Qed.

(** The recovered certificate declares one component; the agreement graph of
    its sixteen votes has two. *)
Example recovered_betti_numbers_are_declared :
  recovered_betti
    (DualPartitionRecovery.recoverFromPartition sample_host cube_pieces
       GeometricTypes.CUBE)
  = Ret (Some {| beta_0 := 1; beta_1 := 0; beta_2 := 0 |},
         {| beta_0 := 2; beta_1 := 42; beta_2 := 0 |}).
Proof. by_evaluation. Qed.

Example recover_invalid_pieces_against_cube :
  recovery_verdict
    (DualPartitionRecovery.recoverFromPartition sample_host tetrahedron_pieces
       GeometricTypes.CUBE)
  = Ret (false, 0, 0, false).
Proof. by_evaluation. Qed.

Example recover_against_unknown_shape :
  DualPartitionRecovery.recoverFromPartition sample_host line_pieces "HEXAGON"
  = Throw "Unknown geometric type: HEXAGON".
Proof. by_evaluation. Qed.

Example recover_without_dual :
  recovery_verdict
    (DualPartitionRecovery.recoverFromPartition sample_host line_pieces
       GeometricTypes.CUBOCTAHEDRON)
  = Ret (false, 0, 0, false).
Proof. by_evaluation. Qed.

Example decompose_24_cell_in_two :
  PartitionDetector.decomposeGeometricType GeometricTypes.TWENTY_FOUR_CELL 2
  = Ret GeometricTypes.DODECAHEDRON.
Proof. by_evaluation. Qed.

Example decompose_24_cell_in_five :
  PartitionDetector.decomposeGeometricType GeometricTypes.TWENTY_FOUR_CELL 5
  = Ret GeometricTypes.TETRAHEDRON.
Proof. by_evaluation. Qed.

Example decompose_cube_in_one :
  PartitionDetector.decomposeGeometricType GeometricTypes.CUBE 1
  = Ret GeometricTypes.POINT.
Proof. by_evaluation. Qed.

Example decompose_unknown_shape :
  PartitionDetector.decomposeGeometricType "HEXAGON" 2
  = Throw "Unknown geometric type: HEXAGON".
Proof. by_evaluation. Qed.

(** A name that the literals inherit from [Object.prototype]: the member has
    no entry to offer to the loop of [decomposeGeometricType], and is no
    shape that the embedding could return from [getGeometricShape]. *)
Example decompose_inherited_name :
  PartitionDetector.decomposeGeometricType "toString" 2 = Ret GeometricTypes.POINT.
Proof. by_evaluation. Qed.

Example shape_of_inherited_name :
  GeometricTypes.getGeometricShape "toString" = Inherited.
Proof. by_evaluation. Qed.

(** [0.07 * 100] is [7.000000000000001] in binary64: the rounding that the
    rational model leaves out is visible to [Math.ceil] in general. *)
Example binary64_ceil_rounding :
  binary64_ceil (PrimFloat.mul (binary64_of_Z 100) (binary64_of_Q 0.07)) = Some 8
  ∧ Math_ceil (inject_Z 100 * 0.07) = 7.
Proof. split; by_evaluation. Qed.

(** * Depth-first search *)

Lemma extends_refl visited : extends visited visited.
Proof. apply Forall2_same_length_lookup_2; [done|]. intros i a b H1 H2 Ha. congruence. Qed.

Lemma extends_trans v1 v2 v3 : extends v1 v2 → extends v2 v3 → extends v1 v3.
Proof.
  unfold extends. intros H12. revert v3.
  induction H12; intros v3 H23; inversion H23; subst; constructor; eauto.
Qed.

Lemma extends_length v1 v2 : extends v1 v2 → length v1 = length v2.
Proof. apply Forall2_length. Qed.

Lemma extends_visited v1 v2 k :
  extends v1 v2 →
  BettiCalculator.is_visited v1 k = true → BettiCalculator.is_visited v2 k = true.
Proof.
  unfold BettiCalculator.is_visited. intros H. revert k.
  induction H as [|a b l l' Hab _ IH]; intros [|k]; simpl; auto.
Qed.

Lemma extends_insert visited k : extends visited (<[k:=true]> visited).
Proof.
  revert k. induction visited as [|a l IH]; intros [|k]; simpl;
    try constructor; auto; try apply extends_refl; try apply IH.
Qed.

Lemma unvisited_extends v1 v2 : extends v1 v2 → (unvisited v2 ≤ unvisited v1)%nat.
Proof.
  unfold unvisited. induction 1 as [|a b l l' Hab _ IH]; [done|].
  rewrite !filter_cons. destruct a, b; simpl; repeat case_decide; simpl; try lia; try done.
Qed.

Lemma unvisited_insert visited k :
  (k < length visited)%nat → BettiCalculator.is_visited visited k = false →
  (unvisited (<[k:=true]> visited) < unvisited visited)%nat.
Proof.
  unfold unvisited, BettiCalculator.is_visited.
  revert k. induction visited as [|a l IH]; intros [|k]; simpl; try lia.
  - intros _ ->. rewrite !filter_cons. repeat case_decide; try done. simpl. lia.
  - intros Hk Hv. rewrite !filter_cons. specialize (IH k ltac:(lia) Hv).
    case_decide; simpl; lia.
Qed.

Lemma is_visited_insert visited k :
  (k < length visited)%nat → BettiCalculator.is_visited (<[k:=true]> visited) k = true.
Proof. intros Hk. unfold BettiCalculator.is_visited. by rewrite list_lookup_insert_eq. Qed.

Lemma is_visited_insert_inv visited k j :
  BettiCalculator.is_visited (<[k:=true]> visited) j = true →
  j = k ∨ BettiCalculator.is_visited visited j = true.
Proof.
  unfold BettiCalculator.is_visited. destruct (decide (j = k)) as [->|Hne]; [auto|].
  rewrite list_lookup_insert_ne by done. auto.
Qed.

Lemma adjacent_lt n adjacency a b :
  square n adjacency → BettiCalculator.adjacent adjacency a b = true → (a < n ∧ b < n)%nat.
Proof.
  intros [Hlen Hrows] Hadj. unfold BettiCalculator.adjacent in Hadj.
  apply bool_decide_eq_true in Hadj.
  destruct (adjacency !! a) as [row|] eqn:Hrow; simpl in Hadj; [|done].
  split.
  - rewrite <- Hlen. by eapply lookup_lt_Some.
  - rewrite Forall_forall in Hrows.
    rewrite <- (Hrows row) by (by eapply list_elem_of_lookup_2).
    by eapply lookup_lt_Some.
Qed.

Lemma for_each_cons {A S : Type} (x : A) (l : list A) (s : S) (body : A → S → js S) :
  for_each (x :: l) s body = body x s ≫= λ s', for_each l s' body.
Proof. done. Qed.

Section dfs_spec.
Context (adjacency : list (list Z)) (n : nat).
Hypothesis adjacency_square : square n adjacency.
Context (P : nat → Prop).
Hypothesis P_closed :
  ∀ a b, P a → BettiCalculator.adjacent adjacency a b = true → P b.

Import BettiCalculator.

Lemma dfs_spec fuel : ∀ vertex visited,
  length visited = n → (vertex < n)%nat → is_visited visited vertex = false →
  P vertex → (unvisited visited ≤ fuel)%nat →
  ∃ visited',
    dfs fuel vertex adjacency visited = Ret visited' ∧
    extends visited visited' ∧
    is_visited visited' vertex = true ∧
    (∀ k, adjacent adjacency vertex k = true → is_visited visited' k = true) ∧
    (∀ k, is_visited visited' k = true → is_visited visited k = true ∨ P k).
Proof.
  induction fuel as [|fuel IH]; intros vertex visited Hlen Hv Hnot HP Hfuel.
  { pose proof (unvisited_insert visited vertex ltac:(lia) Hnot). lia. }
  destruct (lookup_lt_is_Some_2 adjacency vertex) as [row Hrow];
    [destruct adjacency_square; lia|].
  simpl. rewrite Hrow. unfold array_set. rewrite decide_True by lia.
  set (visited1 := <[vertex:=true]> visited).
  set (body := λ (i : nat) (visited0 : list bool), _).
  assert (Hlt : (unvisited visited1 ≤ fuel)%nat).
  { pose proof (unvisited_insert visited vertex ltac:(lia) Hnot). unfold visited1. lia. }
  assert (Hloop : ∀ (indices : list nat) (current : list bool),
    length current = n → extends visited1 current →
    (∀ k, is_visited current k = true → is_visited visited k = true ∨ P k) →
    ∃ visited',
      for_each indices current body = Ret visited' ∧
      extends current visited' ∧
      (∀ k, k ∈ indices → adjacent adjacency vertex k = true →
            is_visited visited' k = true) ∧
      (∀ k, is_visited visited' k = true → is_visited visited k = true ∨ P k)).
  { induction indices as [|i indices IHl]; intros current Hcl Hext Hcls.
    - exists current. split_and!; auto using extends_refl.
      intros k Hk. by apply elem_of_nil in Hk.
    - rewrite for_each_cons.
      assert (body i current =
              if adjacent adjacency vertex i && negb (is_visited current i)
              then dfs fuel i adjacency current else Ret current) as -> by done.
      destruct (adjacent adjacency vertex i) eqn:Hadj;
        destruct (is_visited current i) eqn:Hvis; simpl.
      2:{ destruct (IH i current) as (v2 & Hrun & Hext2 & Hi & _ & Hcls2); auto.
          { by eapply adjacent_lt. }
          { by eapply P_closed. }
          { pose proof (unvisited_extends _ _ Hext). lia. }
          rewrite Hrun. simpl.
          destruct (IHl v2) as (v3 & Hrun3 & Hext3 & Hadj3 & Hcls3).
          { rewrite <- Hcl. symmetry. by apply extends_length. }
          { by eapply extends_trans. }
          { intros k Hk. destruct (Hcls2 k Hk); auto. }
          exists v3. split_and!; auto.
          - by eapply extends_trans.
          - intros k [->|Hk]%elem_of_cons Hak; [|by auto].
            by eapply extends_visited. }
      all: destruct (IHl current) as (v3 & Hrun3 & Hext3 & Hadj3 & Hcls3); auto;
        exists v3; split_and!; auto;
        intros k [->|Hk]%elem_of_cons Hak; auto; try congruence;
        by eapply extends_visited. }
  destruct (Hloop (seq 0 (length row)) visited1)
    as (v' & Hrun & Hext & Hadj & Hcls).
  { unfold visited1. by rewrite length_insert. }
  { apply extends_refl. }
  { intros k [->|Hk]%is_visited_insert_inv; auto. }
  exists v'. split_and!; auto.
  - eapply extends_trans; [apply extends_insert|done].
  - eapply extends_visited; [done|]. apply is_visited_insert. lia.
  - intros k Hk. apply Hadj; [|done].
    unfold adjacent in Hk. apply bool_decide_eq_true in Hk.
    rewrite Hrow in Hk. simpl in Hk.
    apply elem_of_seq. split; [lia|]. apply lookup_lt_Some in Hk. lia.
Qed.
End dfs_spec.

(** * The adjacency matrix *)

Lemma set_cell_square n f t matrix :
  square n matrix → square n (BettiCalculator.set_cell f t matrix).
Proof.
  intros [Hlen Hrows]. split.
  - unfold BettiCalculator.set_cell. by rewrite length_alter.
  - apply Forall_alter; [done|]. intros row Hrow Hn. by rewrite length_insert.
Qed.

Lemma set_cell_lookup n f t matrix a b :
  square n matrix → (f < n)%nat → (t < n)%nat →
  cell (BettiCalculator.set_cell f t matrix) a b =
    if decide (a = f ∧ b = t) then Some 1 else cell matrix a b.
Proof.
  intros [Hlen Hrows] Hf Ht. unfold cell, BettiCalculator.set_cell.
  rewrite list_lookup_alter.
  destruct (decide (f = a)) as [->|Hne].
  - destruct (lookup_lt_is_Some_2 matrix a ltac:(lia)) as [row Hrow].
    rewrite Hrow. simpl.
    assert (length row = n) as Hr.
    { rewrite Forall_forall in Hrows. apply Hrows. by eapply list_elem_of_lookup_2. }
    destruct (decide (b = t)) as [->|Hbt].
    + rewrite decide_True by done. apply list_lookup_insert_eq. lia.
    + rewrite decide_False by naive_solver. by apply list_lookup_insert_ne.
  - rewrite decide_False by naive_solver. done.
Qed.

Lemma replicate_square n : square n (replicate n (replicate n 0)).
Proof.
  split; [by rewrite length_replicate|].
  apply Forall_replicate. by rewrite length_replicate.
Qed.

Lemma vertexIndex_snoc vertices v :
  BettiCalculator.vertexIndex (vertices ++ [v]) =
    <[Vertex.id v := length vertices]> (BettiCalculator.vertexIndex vertices).
Proof.
  unfold BettiCalculator.vertexIndex. rewrite imap_app, foldl_app. simpl.
  by rewrite Nat.add_0_r.
Qed.

Lemma vertexIndex_lt vertices s i :
  BettiCalculator.vertexIndex vertices !! s = Some i → (i < length vertices)%nat.
Proof.
  revert s i. induction vertices as [|v vertices IH] using rev_ind; intros s i.
  - unfold BettiCalculator.vertexIndex. simpl. by rewrite lookup_empty.
  - rewrite vertexIndex_snoc, length_app. simpl.
    destruct (decide (Vertex.id v = s)) as [->|Hne].
    + rewrite lookup_insert_eq. intros [= <-]. lia.
    + rewrite lookup_insert_ne by done. intros H%IH. lia.
Qed.

Lemma vertexIndex_lookup vertices s i :
  NoDup (Vertex.id <$> vertices) →
  BettiCalculator.vertexIndex vertices !! s = Some i ↔ (Vertex.id <$> vertices) !! i = Some s.
Proof.
  revert s i. induction vertices as [|v vertices IH] using rev_ind; intros s i Hnd.
  - unfold BettiCalculator.vertexIndex. simpl. by rewrite lookup_empty.
  - rewrite vertexIndex_snoc, fmap_app. simpl.
    rewrite fmap_app in Hnd. apply NoDup_app in Hnd as (Hnd & Hfresh & _).
    specialize (IH s i Hnd).
    destruct (decide (Vertex.id v = s)) as [<-|Hne].
    + rewrite lookup_insert_eq. split.
      * intros [= <-]. rewrite lookup_app_r; rewrite length_fmap; [|lia].
        by rewrite Nat.sub_diag.
      * intros Hl. f_equal.
        destruct (decide (i < length vertices)%nat) as [Hlt|Hge].
        -- rewrite lookup_app_l in Hl by (by rewrite length_fmap).
           exfalso. eapply Hfresh; [by eapply list_elem_of_lookup_2|]. set_solver.
        -- apply lookup_lt_Some in Hl. rewrite length_app, length_fmap in Hl.
           simpl in Hl. lia.
    + rewrite lookup_insert_ne by done. rewrite IH. split.
      * intros Hl. rewrite lookup_app_l; [done|]. by eapply lookup_lt_Some.
      * intros Hl.
        destruct (decide (i < length vertices)%nat) as [Hlt|Hge].
        -- by rewrite lookup_app_l in Hl by (by rewrite length_fmap).
        -- rewrite lookup_app_r in Hl by (rewrite length_fmap; lia).
           apply list_lookup_singleton_Some in Hl as [_ Hl]. done.
Qed.

Lemma buildAdjacencyMatrix_spec vertices edges :
  let n := length vertices in
  let matrix := BettiCalculator.buildAdjacencyMatrix vertices edges in
  square n matrix ∧
  ∀ a b, cell matrix a b = Some 1 ↔
         ∃ e, e ∈ edges ∧ links (BettiCalculator.vertexIndex vertices) e a b.
Proof.
  intros n matrix. unfold matrix, BettiCalculator.buildAdjacencyMatrix.
  fold n. set (index := BettiCalculator.vertexIndex vertices).
  set (step := λ (matrix : list (list Z)) (edge : Edge.t), _).
  assert (Hgen : ∀ es m0, square n m0 →
    square n (foldl step m0 es) ∧
    ∀ a b, cell (foldl step m0 es) a b = Some 1 ↔
           cell m0 a b = Some 1 ∨ ∃ e, e ∈ es ∧ links index e a b).
  { induction es as [|e es IH]; intros m0 Hsq; simpl.
    - split; [done|]. intros a b. split; [auto|]. intros [?|(e & He & _)]; [done|].
      by apply elem_of_nil in He.
    - assert (Hstep : square n (step m0 e) ∧ ∀ a b,
        cell (step m0 e) a b = Some 1 ↔ cell m0 a b = Some 1 ∨ links index e a b).
      { unfold step, links.
        destruct (index !! Edge.from e) as [f|] eqn:Hf;
          [destruct (index !! Edge.to e) as [t|] eqn:Ht|].
        - apply vertexIndex_lt in Hf, Ht. fold n in Hf, Ht. split.
          + by do 2 apply set_cell_square.
          + intros a b.
            rewrite (set_cell_lookup n), (set_cell_lookup n);
              auto using set_cell_square.
            repeat case_decide; naive_solver.
        - split; [done|]. naive_solver.
        - split; [done|]. naive_solver. }
      destruct Hstep as [Hsq1 Hcell1]. destruct (IH _ Hsq1) as [Hsq2 Hcell2].
      split; [done|]. intros a b. rewrite Hcell2, Hcell1.
      setoid_rewrite elem_of_cons. naive_solver. }
  destruct (Hgen edges _ (replicate_square n)) as [Hsq Hcell].
  split; [done|]. intros a b. rewrite Hcell. split; [|auto].
  intros [Hzero|?]; [|done]. exfalso. unfold cell in Hzero.
  destruct (replicate n (replicate n 0) !! a) as [row|] eqn:Hrow; simpl in Hzero; [|done].
  apply lookup_replicate in Hrow as [-> _].
  apply lookup_replicate in Hzero as [? _]. done.
Qed.

(** * Totality of the component count *)

Lemma unvisited_le_length visited : (unvisited visited ≤ length visited)%nat.
Proof. apply length_filter. Qed.

Lemma calculateConnectedComponents_total vertices adjacency :
  square (length vertices) adjacency →
  ∃ components, BettiCalculator.calculateConnectedComponents vertices adjacency
                = Ret components.
Proof.
  intros Hsq. unfold BettiCalculator.calculateConnectedComponents.
  set (n := length vertices). set (body := λ (i : nat) (st : list bool * Z), _).
  assert (Hloop : ∀ indices visited components,
    (∀ i, i ∈ indices → (i < n)%nat) → length visited = n →
    ∃ visited' components',
      for_each indices (visited, components) body = Ret (visited', components')).
  { induction indices as [|i indices IH]; intros visited components Hin Hlen.
    - by exists visited, components.
    - rewrite for_each_cons.
      assert (body i (visited, components) =
              if negb (BettiCalculator.is_visited visited i)
              then visited' ← BettiCalculator.dfs n i adjacency visited;
                   Ret (visited', components + 1)
              else Ret (visited, components)) as -> by done.
      destruct (BettiCalculator.is_visited visited i) eqn:Hvis; simpl.
      + apply IH; [|done]. intros j Hj. apply Hin. set_solver.
      + destruct (dfs_spec adjacency n Hsq (λ _, True) ltac:(done) n i visited)
          as (v' & Hrun & Hext & _); auto.
        { apply Hin. set_solver. }
        { rewrite <- Hlen. apply unvisited_le_length. }
        rewrite Hrun. simpl. apply IH.
        * intros j Hj. apply Hin. set_solver.
        * rewrite <- Hlen. symmetry. by apply extends_length. }
  destruct (Hloop (seq 0 n) (replicate n false) 0) as (v' & c' & Hrun).
  { intros i Hi%elem_of_seq. lia. }
  { by rewrite length_replicate. }
  rewrite Hrun. simpl. by exists c'.
Qed.

Lemma calculateBettiNumbers_total vertices edges :
  ∃ betti, BettiCalculator.calculateBettiNumbers vertices edges = Ret betti.
Proof.
  unfold BettiCalculator.calculateBettiNumbers, BettiCalculator.calculateCycles.
  case_decide; [by eexists|].
  destruct (buildAdjacencyMatrix_spec vertices edges) as [Hsq _].
  destruct (calculateConnectedComponents_total _ _ Hsq) as [c ->]. simpl. by eexists.
Qed.

(** * The agreement graph of a vote list *)

Section consensus_graph.
Import GeometricConsensus.
Context (criteria : list DecisionVertex.t).
Hypothesis ids_distinct : NoDup (DecisionVertex.id <$> criteria).

Let n := length criteria.
Let adjacency :=
  BettiCalculator.buildAdjacencyMatrix (convertToVertices criteria)
    (buildConsensusEdges criteria).

Lemma convertToVertices_ids :
  Vertex.id <$> convertToVertices criteria = DecisionVertex.id <$> criteria.
Proof. unfold convertToVertices. rewrite <- list_fmap_compose. done. Qed.

Lemma convertToVertices_length : length (convertToVertices criteria) = n.
Proof. unfold convertToVertices. by rewrite length_fmap. Qed.

Lemma index_lookup s i :
  BettiCalculator.vertexIndex (convertToVertices criteria) !! s = Some i ↔
  DecisionVertex.id <$> criteria !! i = Some s.
Proof.
  rewrite vertexIndex_lookup by (by rewrite convertToVertices_ids).
  by rewrite convertToVertices_ids, list_lookup_fmap.
Qed.

Lemma index_of_vote i v :
  criteria !! i = Some v →
  ∀ a, BettiCalculator.vertexIndex (convertToVertices criteria) !! DecisionVertex.id v
       = Some a ↔ a = i.
Proof.
  intros Hv a. rewrite index_lookup. split.
  - intros Ha. eapply NoDup_lookup; [exact ids_distinct| |].
    + rewrite list_lookup_fmap. exact Ha.
    + by rewrite list_lookup_fmap, Hv.
  - intros ->. by rewrite Hv.
Qed.

Lemma edges_sound e :
  e ∈ buildConsensusEdges criteria →
  ∃ i j v1 v2, (i < j)%nat ∧ criteria !! i = Some v1 ∧ criteria !! j = Some v2 ∧
    DecisionVertex.agrees v1 = DecisionVertex.agrees v2 ∧
    Edge.from e = DecisionVertex.id v1 ∧ Edge.to e = DecisionVertex.id v2.
Proof.
  unfold buildConsensusEdges.
  intros (i & (j & He & Hj%elem_of_seq)%list_elem_of_bind & Hi)%list_elem_of_bind.
  unfold consensus_edge in He.
  destruct (criteria !! i) as [v1|] eqn:H1; [|by apply elem_of_nil in He].
  destruct (criteria !! j) as [v2|] eqn:H2; [|by apply elem_of_nil in He].
  destruct (Bool.eqb _ _) eqn:Hagree; [|by apply elem_of_nil in He].
  apply list_elem_of_singleton in He as ->. apply Bool.eqb_prop in Hagree.
  exists i, j, v1, v2. split_and!; auto. lia.
Qed.

Lemma edges_complete i j v1 v2 :
  (i < j)%nat → criteria !! i = Some v1 → criteria !! j = Some v2 →
  DecisionVertex.agrees v1 = DecisionVertex.agrees v2 →
  ∃ e, e ∈ buildConsensusEdges criteria ∧
       Edge.from e = DecisionVertex.id v1 ∧ Edge.to e = DecisionVertex.id v2.
Proof.
  intros Hij H1 H2 Hagree.
  pose proof (lookup_lt_Some _ _ _ H2) as Hj.
  eexists. split.
  - unfold buildConsensusEdges. apply list_elem_of_bind. exists i. split.
    + apply list_elem_of_bind. exists j. split.
      * unfold consensus_edge. rewrite H1, H2, Hagree, Bool.eqb_reflx.
        apply list_elem_of_singleton. reflexivity.
      * apply elem_of_seq. lia.
    + apply elem_of_seq. lia.
  - done.
Qed.

Lemma adjacent_consensus a b :
  BettiCalculator.adjacent adjacency a b = true ↔
  ∃ va vb, criteria !! a = Some va ∧ criteria !! b = Some vb ∧ a ≠ b ∧
           DecisionVertex.agrees va = DecisionVertex.agrees vb.
Proof.
  unfold BettiCalculator.adjacent. rewrite bool_decide_eq_true.
  destruct (buildAdjacencyMatrix_spec (convertToVertices criteria)
              (buildConsensusEdges criteria)) as [_ Hcell].
  fold adjacency in Hcell. unfold cell in Hcell. rewrite Hcell. split.
  - intros (e & (i & j & v1 & v2 & Hij & H1 & H2 & Hagree & Hfrom & Hto)%edges_sound
              & Hlinks).
    unfold links in Hlinks. rewrite Hfrom, Hto in Hlinks.
    rewrite !(index_of_vote i v1 H1), !(index_of_vote j v2 H2) in Hlinks.
    destruct Hlinks as [[-> ->]|[-> ->]].
    + exists v1, v2. split_and!; auto. lia.
    + exists v2, v1. split_and!; auto. lia.
  - intros (va & vb & Ha & Hb & Hne & Hagree).
    destruct (decide (a < b)%nat) as [Hlt|Hge].
    + destruct (edges_complete a b va vb) as (e & He & Hfrom & Hto); auto.
      exists e. split; [done|]. left. rewrite Hfrom, Hto.
      by rewrite (index_of_vote a va Ha), (index_of_vote b vb Hb).
    + destruct (edges_complete b a vb va) as (e & He & Hfrom & Hto); auto; [lia|].
      exists e. split; [done|]. right. rewrite Hfrom, Hto.
      by rewrite (index_of_vote a va Ha), (index_of_vote b vb Hb).
Qed.

Lemma adjacency_square : square n adjacency.
Proof.
  destruct (buildAdjacencyMatrix_spec (convertToVertices criteria)
              (buildConsensusEdges criteria)) as [Hsq _].
  by rewrite convertToVertices_length in Hsq.
Qed.

Lemma side_lookup k v :
  criteria !! k = Some v → side criteria k = DecisionVertex.agrees v.
Proof. unfold side. by intros ->. Qed.

(** A search started at an unvisited vote marks exactly the votes on its side. *)
Lemma dfs_side i visited :
  length visited = n → (i < n)%nat → BettiCalculator.is_visited visited i = false →
  ∃ visited',
    BettiCalculator.dfs n i adjacency visited = Ret visited' ∧
    length visited' = n ∧
    ∀ k, (k < n)%nat →
         BettiCalculator.is_visited visited' k =
           BettiCalculator.is_visited visited k
           || Bool.eqb (side criteria i) (side criteria k).
Proof.
  intros Hlen Hi Hvis.
  destruct (dfs_spec adjacency n adjacency_square
              (λ k, side criteria k = side criteria i)) with
    (fuel := n) (vertex := i) (visited := visited)
    as (v' & Hrun & Hext & Hself & Hadj & Hcls); auto.
  { intros a b Ha (va & vb & Hva & Hvb & _ & Hagree)%adjacent_consensus.
    rewrite <- Ha. by rewrite (side_lookup a va), (side_lookup b vb). }
  { rewrite <- Hlen. apply unvisited_le_length. }
  exists v'. split_and!; [done|rewrite <- Hlen; symmetry; by apply extends_length|].
  intros k Hk.
  destruct (BettiCalculator.is_visited v' k) eqn:Hk'.
  - symmetry. apply orb_true_iff. destruct (Hcls k Hk') as [?|Hs]; [by left|right].
    rewrite Hs. apply Bool.eqb_reflx.
  - symmetry. apply orb_false_iff. split.
    + destruct (BettiCalculator.is_visited visited k) eqn:Hvk; [|done].
      rewrite (extends_visited _ _ k Hext Hvk) in Hk'. done.
    + apply Bool.eqb_false_iff. intros Hs.
      destruct (decide (k = i)) as [->|Hne]; [congruence|].
      rewrite Hadj in Hk'; [done|]. apply adjacent_consensus.
      destruct (lookup_lt_is_Some_2 criteria i Hi) as [vi Hvi].
      destruct (lookup_lt_is_Some_2 criteria k Hk) as [vk Hvk].
      exists vi, vk. split_and!; auto.
      by rewrite <- (side_lookup i vi), <- (side_lookup k vk).
Qed.

Lemma seen_S i c :
  (i < n)%nat →
  seen criteria (S i) c = seen criteria i c || Bool.eqb (side criteria i) c.
Proof.
  intros Hi. destruct (lookup_lt_is_Some_2 criteria i Hi) as [v Hv].
  unfold seen. rewrite (take_S_r _ _ _ Hv), existsb_app. simpl.
  by rewrite (side_lookup i v Hv), orb_false_r.
Qed.

Lemma components_consensus :
  BettiCalculator.calculateConnectedComponents (convertToVertices criteria) adjacency
  = Ret (sides_seen criteria n).
Proof.
  unfold BettiCalculator.calculateConnectedComponents.
  rewrite convertToVertices_length.
  set (body := λ (i : nat) (st : list bool * Z), _).
  assert (Hloop : ∀ m i visited,
    (i + m = n)%nat → length visited = n →
    (∀ k, (k < n)%nat →
          BettiCalculator.is_visited visited k = seen criteria i (side criteria k)) →
    ∃ visited',
      for_each (seq i m) (visited, sides_seen criteria i) body
      = Ret (visited', sides_seen criteria n)).
  { induction m as [|m IH]; intros i visited Him Hlen Hinv.
    - replace i with n by lia. by eexists.
    - simpl seq. rewrite for_each_cons.
      assert (body i (visited, sides_seen criteria i) =
              if negb (BettiCalculator.is_visited visited i)
              then visited' ← BettiCalculator.dfs n i adjacency visited;
                   Ret (visited', sides_seen criteria i + 1)
              else Ret (visited, sides_seen criteria i))
        as -> by done.
      assert (Hi : (i < n)%nat) by lia.
      pose proof (Hinv i Hi) as Hvi.
      destruct (BettiCalculator.is_visited visited i) eqn:Hvis; simpl.
      + assert (Hsame : ∀ c, seen criteria (S i) c = seen criteria i c).
        { intros c. rewrite seen_S by done.
          destruct (Bool.eqb (side criteria i) c) eqn:Hc; [|by rewrite orb_false_r].
          apply Bool.eqb_prop in Hc as <-. by rewrite <- Hvi. }
        replace (sides_seen criteria i) with (sides_seen criteria (S i))
          by (unfold sides_seen; by rewrite !Hsame).
        apply IH; [lia|done|].
        intros k Hk. by rewrite Hsame, Hinv.
      + destruct (dfs_side i visited Hlen Hi Hvis) as (v' & -> & Hlen' & Hmark).
        simpl.
        assert (Hcount : sides_seen criteria i + 1 = sides_seen criteria (S i)).
        { unfold sides_seen. rewrite !seen_S by done. symmetry in Hvi.
          destruct (side criteria i); rewrite Hvi; simpl;
            rewrite ?orb_false_r, ?orb_true_r; unfold b2z;
            repeat case_match; lia. }
        rewrite Hcount. apply IH; [lia|done|].
        intros k Hk. by rewrite Hmark, Hinv, seen_S by done. }
  destruct (Hloop n 0%nat (replicate n false)) as (v' & Hrun).
  { lia. }
  { by rewrite length_replicate. }
  { intros k Hk. unfold BettiCalculator.is_visited.
    by rewrite lookup_replicate_2 by done. }
  change (sides_seen criteria 0) with 0 in Hrun.
  rewrite Hrun. done.
Qed.

End consensus_graph.

Lemma js_bind_Ret {A B : Type} (a : A) (f : A → js B) : Ret a ≫= f = f a.
Proof. reflexivity. Qed.

(** * The shape catalog *)

Section catalog.
Import GeometricTypes.

Lemma GEOMETRIC_SHAPES_keys_distinct : NoDup (GEOMETRIC_SHAPES_entries.*1).
Proof. apply (bool_decide_unpack _). vm_compute. exact I. Qed.

Lemma GEOMETRIC_SHAPES_lookup id shape :
  GEOMETRIC_SHAPES !! id = Some shape ↔ (id, shape) ∈ GEOMETRIC_SHAPES_entries.
Proof. symmetry. apply elem_of_list_to_map, GEOMETRIC_SHAPES_keys_distinct. Qed.

(** A property of every entry of the literal holds of every shape that the
    catalog returns. *)
Lemma catalog_ind (P : GeometricType → GeometricShape → Prop) :
  Forall (λ e, P e.1 e.2) GEOMETRIC_SHAPES_entries →
  ∀ id shape, GEOMETRIC_SHAPES !! id = Some shape → P id shape.
Proof.
  intros Hall id shape Hin%GEOMETRIC_SHAPES_lookup.
  rewrite Forall_forall in Hall. exact (Hall _ Hin).
Qed.

Lemma getGeometricShape_known id shape :
  GEOMETRIC_SHAPES !! id = Some shape → getGeometricShape id = Ret shape.
Proof. unfold getGeometricShape. by intros ->. Qed.

Lemma getGeometricShape_unknown id :
  GEOMETRIC_SHAPES !! id = None →
  id ∉ Object_prototype_members →
  getGeometricShape id = Throw ("Unknown geometric type: " +:+ id).
Proof. unfold getGeometricShape. intros -> Hown. by rewrite bool_decide_eq_false_2. Qed.

Lemma getGeometricShape_inherited id :
  id ∈ Object_prototype_members → getGeometricShape id = Inherited.
Proof.
  intros Hin.
  assert (Hnone : Forall (λ key : GeometricType, GEOMETRIC_SHAPES !! key = None)
                    Object_prototype_members) by (repeat constructor).
  rewrite Forall_forall in Hnone. unfold getGeometricShape.
  rewrite (Hnone _ Hin). by rewrite bool_decide_eq_true_2.
Qed.

Lemma catalog_type id shape : GEOMETRIC_SHAPES !! id = Some shape → type shape = id.
Proof.
  revert id shape. apply (catalog_ind (λ id shape, type shape = id)).
  repeat constructor.
Qed.

Lemma catalog_required_positive id shape :
  GEOMETRIC_SHAPES !! id = Some shape → 0 < calculateRequiredAgreement shape.
Proof.
  revert id shape. apply (catalog_ind (λ _ shape, 0 < calculateRequiredAgreement shape)).
  repeat constructor.
Qed.
(** Binary64 arithmetic gives the required counts of the rational model. *)
Lemma catalog_required_agreement_binary64 id shape :
  GEOMETRIC_SHAPES !! id = Some shape →
  binary64_calculateRequiredAgreement shape = Some (calculateRequiredAgreement shape).
Proof.
  revert id shape.
  apply (catalog_ind (λ _ shape,
    binary64_calculateRequiredAgreement shape
    = Some (calculateRequiredAgreement shape))).
  repeat (apply Forall_cons; split; [vm_compute; reflexivity|]). constructor.
Qed.
End catalog.

Lemma Math_ceil_is_ceiling x : is_ceiling (Math_ceil x) x.
Proof. split; [apply Qceiling_lt|apply Qle_ceiling]. Qed.

Lemma is_ceiling_unique r1 r2 x : is_ceiling r1 x → is_ceiling r2 x → r1 = r2.
Proof.
  intros [Hlo1 Hhi1] [Hlo2 Hhi2].
  assert (inject_Z (r1 - 1) < inject_Z r2)%Q as H1 by (eapply Qlt_le_trans; eauto).
  assert (inject_Z (r2 - 1) < inject_Z r1)%Q as H2 by (eapply Qlt_le_trans; eauto).
  rewrite <- Zlt_Qlt in H1, H2. lia.
Qed.

Lemma agreeing_filter criteria :
  Z.of_nat (length (filter (λ v, DecisionVertex.agrees v = true) criteria))
  = agreeing criteria.
Proof.
  unfold agreeing. f_equal. induction criteria as [|v criteria IH]; [done|].
  rewrite filter_cons, fmap_cons. simpl.
  destruct (DecisionVertex.agrees v); simpl; repeat case_decide; simpl; try done;
    by rewrite IH.
Qed.

(** * The consensus verifier *)

Section verifier.
Import GeometricTypes GeometricConsensus.

Lemma createConsensusCertificate_returns h criteria shape description :
  ∃ certificate,
    createConsensusCertificate h criteria shape description = Ret certificate ∧
    ConsensusCertificate.vertices certificate = criteria ∧
    ConsensusCertificate.agreesCount certificate = agreeing criteria ∧
    ConsensusCertificate.requiredCount certificate = calculateRequiredAgreement shape ∧
    ConsensusCertificate.valid certificate
      = (agreeing criteria >=? calculateRequiredAgreement shape) ∧
    ConsensusCertificate.geometricType certificate = type shape ∧
    ConsensusCertificate.shape certificate = shape.
Proof.
  unfold createConsensusCertificate.
  destruct (calculateBettiNumbers_total (convertToVertices criteria)
              (buildConsensusEdges criteria)) as [betti ->].
  simpl. eexists. split; [reflexivity|]. simpl.
  rewrite agreeing_filter. unfold isValidForConsensus. done.
Qed.

Lemma verifyConsensus_known h criteria id shape description :
  GEOMETRIC_SHAPES !! id = Some shape →
  ∃ result,
    verifyConsensus h criteria id description = Ret result ∧
    createConsensusCertificate h criteria shape description
      = Ret (ConsensusResult.certificate result) ∧
    ConsensusResult.success result
      = ConsensusCertificate.valid (ConsensusResult.certificate result).
Proof.
  intros Hshape. unfold verifyConsensus.
  rewrite (getGeometricShape_known _ _ Hshape), js_bind_Ret.
  destruct (createConsensusCertificate_returns h criteria shape description)
    as (certificate & -> & _).
  rewrite js_bind_Ret. eexists. split; [reflexivity|]. split; reflexivity.
Qed.
End verifier.

Import GeometricTypes GeometricConsensus.

(** * Main results: catalog, verifier and agreement graph *)

(** C9. Every shape of the catalog whose [dimension] is 3 satisfies Euler's
    formula [V - E + F = 2] on its recorded vertex, edge and face counts. *)
Theorem euler_characteristic_of_3d_shapes (id : GeometricType) (shape : GeometricShape) :
  GEOMETRIC_SHAPES !! id = Some shape →
  dimension shape = 3 →
  vertices shape - edges shape + faces shape = 2.
Proof.
  revert id shape.
  apply (catalog_ind (λ _ shape,
           dimension shape = 3 → vertices shape - edges shape + faces shape = 2)).
  repeat constructor; simpl; intros; first [reflexivity|discriminate].
Qed.

Lemma euler_characteristic_of_3d_shapes_witness :
  ∃ shape,
    GEOMETRIC_SHAPES !! CUBE = Some shape ∧ dimension shape = 3 ∧
    vertices shape - edges shape + faces shape = 2.
Proof.
  eexists. split; [by_evaluation|]. split; [reflexivity|].
  apply (euler_characteristic_of_3d_shapes CUBE); by_evaluation.
Defined.

(** C1. For a catalog shape, [calculateRequiredAgreement] is the ceiling of
    [vertices * threshold]; [verifyConsensus] returns a certificate whose
    [agreesCount] is the number of votes with a true flag, whose
    [requiredCount] is that ceiling, and which is [valid] exactly when
    [agreesCount >= requiredCount]. *)
Theorem required_agreement_and_validity (h : Host) (criteria : list DecisionVertex.t)
    (id : GeometricType) (shape : GeometricShape) (description : string) :
  GEOMETRIC_SHAPES !! id = Some shape →
  is_ceiling (calculateRequiredAgreement shape)
    (inject_Z (vertices shape) * threshold shape) ∧
  ∃ result,
    verifyConsensus h criteria id description = Ret result ∧
    let certificate := ConsensusResult.certificate result in
    ConsensusCertificate.agreesCount certificate = agreeing criteria ∧
    ConsensusCertificate.requiredCount certificate = calculateRequiredAgreement shape ∧
    (ConsensusCertificate.valid certificate = true ↔
     ConsensusCertificate.requiredCount certificate
       ≤ ConsensusCertificate.agreesCount certificate).
Proof.
  intros Hshape. split; [apply Math_ceil_is_ceiling|].
  destruct (verifyConsensus_known h criteria id shape description Hshape)
    as (result & Hrun & Hcert & _).
  destruct (createConsensusCertificate_returns h criteria shape description)
    as (certificate & Hcert' & _ & Hagrees & Hrequired & Hvalid & _).
  rewrite Hcert' in Hcert. injection Hcert as ->.
  exists result. split; [done|]. simpl.
  rewrite Hagrees, Hrequired, Hvalid. split_and!; [done..|].
  rewrite Z.geb_le. done.
Qed.

Lemma required_agreement_and_validity_witness :
  ∃ shape,
    GEOMETRIC_SHAPES !! OCTAHEDRON = Some shape ∧
    is_ceiling (calculateRequiredAgreement shape)
      (inject_Z (vertices shape) * threshold shape) ∧
    ∃ result,
      verifyConsensus sample_host octahedron_votes OCTAHEDRON "SHOULD" = Ret result ∧
      let certificate := ConsensusResult.certificate result in
      ConsensusCertificate.agreesCount certificate = agreeing octahedron_votes ∧
      ConsensusCertificate.requiredCount certificate = calculateRequiredAgreement shape ∧
      (ConsensusCertificate.valid certificate = true ↔
       ConsensusCertificate.requiredCount certificate
         ≤ ConsensusCertificate.agreesCount certificate).
Proof.
  eexists. split; [by_evaluation|].
  apply (required_agreement_and_validity sample_host octahedron_votes OCTAHEDRON).
  by_evaluation.
Defined.

(** C8. For a catalog shape and an empty vote list, [verifyConsensus] returns
    a certificate whose [valid] flag is false and whose [agreesCount] is 0,
    but whose [requiredCount] is the shape's own [ceil(vertices * threshold)],
    which is positive: not the 0 of the claim, which the test
    [Empty votes array] of the repository also expects of [mustLocal]. *)
Theorem empty_vote_list_certificate (h : Host) (id : GeometricType)
    (shape : GeometricShape) (description : string) :
  GEOMETRIC_SHAPES !! id = Some shape →
  ∃ result,
    verifyConsensus h [] id description = Ret result ∧
    let certificate := ConsensusResult.certificate result in
    ConsensusCertificate.requiredCount certificate = calculateRequiredAgreement shape ∧
    0 < ConsensusCertificate.requiredCount certificate ∧
    ConsensusCertificate.agreesCount certificate = 0 ∧
    ConsensusCertificate.valid certificate = false ∧
    ConsensusResult.success result = false.
Proof.
  intros Hshape.
  destruct (verifyConsensus_known h [] id shape description Hshape)
    as (result & Hrun & Hcert & Hsuccess).
  destruct (createConsensusCertificate_returns h [] shape description)
    as (certificate & Hcert' & _ & Hagrees & Hrequired & Hvalid & _).
  rewrite Hcert' in Hcert. injection Hcert as ->.
  pose proof (catalog_required_positive id shape Hshape) as Hpos.
  exists result. split; [done|]. simpl.
  rewrite Hsuccess, Hagrees, Hrequired, Hvalid. split_and!; try done.
  all: rewrite Z.geb_leb; apply Z.leb_gt; exact Hpos.
Qed.

Lemma empty_vote_list_certificate_witness :
  ∃ shape,
    GEOMETRIC_SHAPES !! CUBE = Some shape ∧
    ∃ result,
      verifyConsensus sample_host [] CUBE "MAY" = Ret result ∧
      let certificate := ConsensusResult.certificate result in
      ConsensusCertificate.requiredCount certificate = calculateRequiredAgreement shape ∧
      0 < ConsensusCertificate.requiredCount certificate ∧
      ConsensusCertificate.agreesCount certificate = 0 ∧
      ConsensusCertificate.valid certificate = false ∧
      ConsensusResult.success result = false.
Proof.
  eexists. split; [by_evaluation|].
  apply (empty_vote_list_certificate sample_host CUBE). by_evaluation.
Defined.

(** The input of the test [Empty votes array]: for the tetrahedron of
    [mustLocal] and an empty vote list the required count is 4, not 0. *)
Lemma empty_vote_list_required_count_not_zero :
  ∃ result,
    verifyConsensus sample_host [] TETRAHEDRON "MUST" = Ret result ∧
    ConsensusCertificate.requiredCount (ConsensusResult.certificate result) = 4 ∧
    ConsensusCertificate.requiredCount (ConsensusResult.certificate result) ≠ 0.
Proof. eexists. split; [by_evaluation|]. split; [reflexivity|discriminate]. Qed.

(** C2. For an identifier for which [GEOMETRIC_SHAPES] has nothing, neither a
    shape of its own nor a member inherited from [Object.prototype],
    [verifyConsensus] does not return: the [catch] branch builds its
    certificate with [createErrorCertificate], which looks the shape up
    again, and the second [Unknown geometric type] error leaves the
    function. *)
Theorem verifyConsensus_unknown_shape_throws (h : Host) (criteria : list DecisionVertex.t)
    (id : GeometricType) (description : string) :
  GEOMETRIC_SHAPES !! id = None →
  id ∉ Object_prototype_members →
  verifyConsensus h criteria id description = Throw ("Unknown geometric type: " +:+ id).
Proof.
  intros Hunknown Hown. unfold verifyConsensus, createErrorCertificate.
  by rewrite (getGeometricShape_unknown id Hunknown Hown).
Qed.

Lemma verifyConsensus_unknown_shape_throws_witness :
  GEOMETRIC_SHAPES !! "HEXAGON" = None ∧
  ("HEXAGON" ∉ Object_prototype_members) ∧
  verifyConsensus sample_host unanimous_votes "HEXAGON" "unknown"
    = Throw "Unknown geometric type: HEXAGON".
Proof.
  split; [by_evaluation|]. split; [by_evaluation|].
  apply (verifyConsensus_unknown_shape_throws sample_host unanimous_votes "HEXAGON");
    by_evaluation.
Defined.

(** C5. For a non-empty vote list with pairwise distinct identifiers, the
    Betti numbers of the agreement graph are computed, with [beta_0 = 1] when
    all votes have the same agreement value, [beta_0 = 2] when both values
    occur, and [beta_0] never above 2. *)
Theorem consensus_graph_beta_0 (criteria : list DecisionVertex.t) :
  criteria ≠ [] →
  NoDup (DecisionVertex.id <$> criteria) →
  ∃ betti,
    BettiCalculator.calculateBettiNumbers (convertToVertices criteria)
      (buildConsensusEdges criteria) = Ret betti ∧
    ((∀ v w, v ∈ criteria → w ∈ criteria →
             DecisionVertex.agrees v = DecisionVertex.agrees w) → beta_0 betti = 1) ∧
    ((∃ v w, v ∈ criteria ∧ w ∈ criteria ∧
             DecisionVertex.agrees v = true ∧ DecisionVertex.agrees w = false) →
     beta_0 betti = 2) ∧
    1 ≤ beta_0 betti ≤ 2.
Proof.
  intros Hne Hids.
  unfold BettiCalculator.calculateBettiNumbers, BettiCalculator.calculateCycles.
  rewrite convertToVertices_length.
  case_decide as Hlen; [by destruct criteria|].
  rewrite (components_consensus criteria Hids). simpl.
  eexists. split; [reflexivity|]. simpl.
  unfold sides_seen, seen. rewrite firstn_all.
  set (yes := existsb _ criteria). set (no := existsb _ criteria).
  assert (Hyes : yes = true ↔ ∃ v, v ∈ criteria ∧ DecisionVertex.agrees v = true).
  { unfold yes. rewrite existsb_exists. setoid_rewrite <- list_elem_of_In.
    setoid_rewrite Bool.eqb_true_iff. done. }
  assert (Hno : no = true ↔ ∃ v, v ∈ criteria ∧ DecisionVertex.agrees v = false).
  { unfold no. rewrite existsb_exists. setoid_rewrite <- list_elem_of_In.
    setoid_rewrite Bool.eqb_true_iff. done. }
  assert (Hsome : yes = true ∨ no = true).
  { destruct criteria as [|v rest]; [done|].
    destruct (DecisionVertex.agrees v) eqn:Hv.
    - left. apply Hyes. exists v. split; [set_solver|done].
    - right. apply Hno. exists v. split; [set_solver|done]. }
  split_and!.
  - intros Hall. destruct yes eqn:Ey, no eqn:En; simpl; try done.
    + destruct (proj1 Hyes eq_refl) as (v & Hv & Hvt).
      destruct (proj1 Hno eq_refl) as (w & Hw & Hwf).
      specialize (Hall v w Hv Hw). congruence.
    + by destruct Hsome.
  - intros (v & w & Hv & Hw & Hvt & Hwf).
    assert (yes = true) as -> by (apply Hyes; eauto).
    assert (no = true) as -> by (apply Hno; eauto). done.
  - destruct Hsome as [-> | ->]; [destruct no|destruct yes]; simpl; lia.
  - destruct yes, no; simpl; lia.
Qed.

Lemma consensus_graph_beta_0_witness :
  split_votes ≠ [] ∧ NoDup (DecisionVertex.id <$> split_votes) ∧
  ∃ betti,
    BettiCalculator.calculateBettiNumbers (convertToVertices split_votes)
      (buildConsensusEdges split_votes) = Ret betti ∧
    ((∀ v w, v ∈ split_votes → w ∈ split_votes →
             DecisionVertex.agrees v = DecisionVertex.agrees w) → beta_0 betti = 1) ∧
    ((∃ v w, v ∈ split_votes ∧ w ∈ split_votes ∧
             DecisionVertex.agrees v = true ∧ DecisionVertex.agrees w = false) →
     beta_0 betti = 2) ∧
    1 ≤ beta_0 betti ≤ 2.
Proof.
  assert (Hne : split_votes ≠ []) by discriminate.
  assert (Hids : NoDup (DecisionVertex.id <$> split_votes)) by by_evaluation.
  split; [exact Hne|]. split; [exact Hids|].
  exact (consensus_graph_beta_0 split_votes Hne Hids).
Defined.


(** * Dual recovery *)

Section recovery.
Import GeometricTypes DualPartitionRecovery.

Lemma filter_length_pos {A : Type} (P : A → Prop) `{!∀ x, Decision (P x)}
    (l : list A) :
  (0 < length (filter P l))%nat ↔ ∃ x, x ∈ l ∧ P x.
Proof.
  split.
  - destruct (filter P l) as [|x rest] eqn:Hfilter; simpl; [lia|]. intros _.
    pose proof (list_elem_of_here x rest) as Hx. rewrite <- Hfilter in Hx.
    apply list_elem_of_filter in Hx as [HP Hin]. by exists x.
  - intros (x & Hin & HP).
    pose proof (proj2 (list_elem_of_filter P l x) (conj HP Hin)) as Hx.
    destruct (filter P l); [by apply elem_of_nil in Hx|simpl; lia].
Qed.

Lemma validatePartitionCertificates_accepts certificates :
  certificates ≠ [] →
  (∀ c, c ∈ certificates → ConsensusCertificate.valid c = true) →
  (∀ c1 c2, c1 ∈ certificates → c2 ∈ certificates →
     ConsensusCertificate.geometricType c1 = ConsensusCertificate.geometricType c2) →
  validatePartitionCertificates certificates = Ret ().
Proof.
  intros Hne Hvalid Hsame. unfold validatePartitionCertificates.
  destruct certificates as [|first rest]; [done|].
  rewrite decide_False by done.
  case_decide as Hinvalid.
  { apply filter_length_pos in Hinvalid as (c & Hin & Hc).
    rewrite (Hvalid c Hin) in Hc. done. }
  change ((first :: rest) !! 0%nat) with (Some first). cbv beta iota.
  case_decide as Hmixed; [|done].
  apply filter_length_pos in Hmixed as (c & Hin & Hc).
  destruct Hc. apply Hsame; [done|apply list_elem_of_here].
Qed.

Lemma validatePartitionCertificates_outcome certificates :
  validatePartitionCertificates certificates = Ret () ∨
  ∃ message, validatePartitionCertificates certificates = Throw message.
Proof.
  unfold validatePartitionCertificates.
  case_decide; [eauto|]. case_decide; [eauto|].
  destruct (certificates !! 0%nat); [|eauto]. case_decide; eauto.
Qed.

Lemma validatePartitionCertificates_rejects certificates :
  certificates = [] ∨
  (∃ c, c ∈ certificates ∧ ConsensusCertificate.valid c = false) ∨
  (∃ c1 c2, c1 ∈ certificates ∧ c2 ∈ certificates ∧
     ConsensusCertificate.geometricType c1 ≠ ConsensusCertificate.geometricType c2) →
  ∃ message, validatePartitionCertificates certificates = Throw message.
Proof.
  intros Hbad. unfold validatePartitionCertificates.
  case_decide as Hlen; [by eexists|].
  case_decide as Hinvalid; [by eexists|].
  destruct certificates as [|first rest]; [done|].
  change ((first :: rest) !! 0%nat) with (Some first). cbv beta iota.
  case_decide as Hmixed; [by eexists|]. exfalso.
  destruct Hbad as [?|[(c & Hin & Hc)|(c1 & c2 & Hin1 & Hin2 & Hne)]]; [done| |].
  - apply Hinvalid, filter_length_pos. by exists c.
  - apply Hmixed, filter_length_pos.
    destruct (decide (ConsensusCertificate.geometricType c1
                      = ConsensusCertificate.geometricType first)) as [Heq|Hneq].
    + exists c2. split; [done|]. congruence.
    + by exists c1.
Qed.

Lemma Qsign_inject_Z_pos z : 0 < z → (Qsign (inject_Z z) =? 0) = false.
Proof. intros Hz. unfold Qsign. simpl. apply Z.eqb_neq. lia. Qed.

Lemma mapThresholdViaDual_same partitionThreshold id shape :
  GEOMETRIC_SHAPES !! id = Some shape →
  mapThresholdViaDual partitionThreshold id id = Ret (Finite partitionThreshold).
Proof.
  intros Hshape. unfold mapThresholdViaDual.
  rewrite (getGeometricShape_known _ _ Hshape). simpl.
  by rewrite decide_True.
Qed.

Lemma mapThresholdViaDual_other partitionThreshold original dual
    originalShape dualShape :
  GEOMETRIC_SHAPES !! original = Some originalShape →
  GEOMETRIC_SHAPES !! dual = Some dualShape →
  original ≠ dual → 0 < faces originalShape →
  mapThresholdViaDual partitionThreshold original dual
  = Ret (Finite (clamp01 (partitionThreshold
                          * (inject_Z (vertices dualShape)
                             / inject_Z (faces originalShape))))).
Proof.
  intros Ho Hd Hne Hfaces. unfold mapThresholdViaDual.
  rewrite (getGeometricShape_known _ _ Ho), (getGeometricShape_known _ _ Hd). simpl.
  rewrite decide_False by done. unfold number_div.
  by rewrite (Qsign_inject_Z_pos _ Hfaces).
Qed.

Lemma clamp01_bounds x : (0 <= clamp01 x)%Q ∧ (clamp01 x <= 1)%Q.
Proof.
  unfold clamp01. split; [apply Q.le_max_l|].
  apply Q.max_lub; [done|apply Q.le_min_l].
Qed.

(** What the catalog gives for a shape and the dual that [getDual] finds. *)
Lemma catalog_dual id shape :
  GEOMETRIC_SHAPES !! id = Some shape →
  ∀ dualShape, getDual shape = Ret (Some dualShape) →
    GEOMETRIC_SHAPES !! type dualShape = Some dualShape ∧
    (isSelfDual shape = true → type dualShape = id) ∧
    (type dualShape = id ∨ 0 < faces shape).
Proof.
  revert id shape.
  apply (catalog_ind (λ id shape, ∀ dualShape, getDual shape = Ret (Some dualShape) →
           GEOMETRIC_SHAPES !! type dualShape = Some dualShape ∧
           (isSelfDual shape = true → type dualShape = id) ∧
           (type dualShape = id ∨ 0 < faces shape))).
  repeat (apply Forall_cons; split;
          [intros dualShape Hdual; vm_compute in Hdual;
           first [discriminate Hdual
                 |injection Hdual as <-;
                  split; [vm_compute; reflexivity|];
                  split; [intros ?; first [reflexivity|discriminate]|];
                  first [left; reflexivity|right; reflexivity]]|]).
  constructor.
Qed.

Lemma mapThresholdViaDual_finite id shape dualShape partitionThreshold :
  GEOMETRIC_SHAPES !! id = Some shape →
  getDual shape = Ret (Some dualShape) →
  ∃ unified,
    mapThresholdViaDual partitionThreshold id (type dualShape) = Ret (Finite unified) ∧
    (type dualShape = id → unified = partitionThreshold) ∧
    (type dualShape ≠ id →
     unified = clamp01 (partitionThreshold
                        * (inject_Z (vertices dualShape) / inject_Z (faces shape)))).
Proof.
  intros Hshape Hdual.
  destruct (catalog_dual id shape Hshape dualShape Hdual) as (Hd & _ & Hcases).
  destruct (decide (type dualShape = id)) as [Heq|Hne].
  - exists partitionThreshold. rewrite Heq. split_and!; [|done..].
    by eapply mapThresholdViaDual_same.
  - destruct Hcases as [?|Hfaces]; [done|].
    eexists. split; [by apply mapThresholdViaDual_other|].
    split; [intros ?; done|intros _; reflexivity].
Qed.

Lemma foldl_sum_agreesCount certificates :
  foldl (λ sum cert, sum + ConsensusCertificate.agreesCount cert) 0 certificates
  = sum_agreesCount certificates.
Proof.
  assert (Hgen : ∀ base,
    foldl (λ sum cert, sum + ConsensusCertificate.agreesCount cert) base certificates
    = base + sum_agreesCount certificates).
  { induction certificates as [|c rest IH]; intros base; simpl; [lia|].
    rewrite IH. lia. }
  by rewrite Hgen.
Qed.

Lemma bind_vertices_concat certificates :
  (cert ← certificates; ConsensusCertificate.vertices cert)
  = concat (ConsensusCertificate.vertices <$> certificates).
Proof.
  induction certificates as [|c rest IH]; [done|].
  rewrite bind_cons, fmap_cons. simpl. by rewrite IH.
Qed.

Lemma applyDualMapping_returns certificates id shape dualShape :
  GEOMETRIC_SHAPES !! id = Some shape →
  getDual shape = Ret (Some dualShape) →
  ∃ unified,
    applyDualMapping certificates shape dualShape = Ret unified ∧
    totalAgrees unified = sum_agreesCount certificates.
Proof.
  intros Hshape Hdual. unfold applyDualMapping.
  rewrite (catalog_type id shape Hshape).
  destruct (mapThresholdViaDual_finite id shape dualShape (threshold shape)
              Hshape Hdual) as (u & -> & _).
  simpl. eexists. split; [reflexivity|]. simpl. apply foldl_sum_agreesCount.
Qed.

Lemma applyDualMapping_totalAgrees certificates shape dualShape unified :
  applyDualMapping certificates shape dualShape = Ret unified →
  totalAgrees unified = sum_agreesCount certificates.
Proof.
  unfold applyDualMapping.
  destruct (mapThresholdViaDual _ _ _) as [[u| | |]| | | |]; simpl; try done.
  intros [= <-]. simpl. apply foldl_sum_agreesCount.
Qed.

(** The [catch] branch of [recoverFromPartition] never reports success. *)
Lemma recover_handler h id shape message :
  GEOMETRIC_SHAPES !! id = Some shape →
  ∃ certificate,
    createErrorCertificate h id message = Ret certificate ∧
    ConsensusCertificate.vertices certificate = [] ∧
    ConsensusCertificate.agreesCount certificate = 0 ∧
    ConsensusCertificate.requiredCount certificate = 0 ∧
    ConsensusCertificate.valid certificate = false.
Proof.
  intros Hshape. unfold createErrorCertificate.
  rewrite (getGeometricShape_known _ _ Hshape). simpl. by eexists.
Qed.

Lemma recoverFromPartition_success_inv h certificates id result :
  recoverFromPartition h certificates id = Ret result →
  DualRecoveryResult.success result = true →
  ∃ shape dualShape unified,
    GEOMETRIC_SHAPES !! id = Some shape ∧
    getDual shape = Ret (Some dualShape) ∧
    applyDualMapping certificates shape dualShape = Ret unified ∧
    createRecoveredCertificate h unified id certificates
      = Ret (DualRecoveryResult.recoveredCertificate result).
Proof.
  unfold recoverFromPartition.
  set (handler := λ error_message : string, _).
  assert (Hhandler : ∀ message,
    handler message = Ret result → DualRecoveryResult.success result = true → False).
  { intros message. unfold handler.
    destruct (createErrorCertificate h id message); js_simpl; try done.
    intros [= <-]. done. }
  destruct (validatePartitionCertificates certificates) as [[]|m| | |]; js_simpl;
    [|intros H1 H2; destruct (Hhandler _ H1 H2)|done..].
  unfold getGeometricShape at 1.
  destruct (GEOMETRIC_SHAPES !! id) as [shape|] eqn:Hshape; js_simpl;
    [|case_bool_decide; js_simpl; [done|intros H1 H2; destruct (Hhandler _ H1 H2)]].
  destruct (getDual shape) as [[dualShape|]|m| | |] eqn:Hdual; js_simpl;
    [|intros H1 H2; destruct (Hhandler _ H1 H2)..|done|done|done].
  destruct (applyDualMapping certificates shape dualShape)
    as [unified|m| | |] eqn:Happly;
    js_simpl; [|intros H1 H2; destruct (Hhandler _ H1 H2)|done..].
  destruct (createRecoveredCertificate h unified id certificates)
    as [certificate|m| | |] eqn:Hcert;
    js_simpl; [|intros H1 H2; destruct (Hhandler _ H1 H2)|done..].
  intros [= <-] _. by exists shape, dualShape, unified.
Qed.

Lemma recoverFromPartition_proceeds h certificates id shape dualShape :
  validatePartitionCertificates certificates = Ret () →
  GEOMETRIC_SHAPES !! id = Some shape →
  getDual shape = Ret (Some dualShape) →
  ∃ result unified,
    recoverFromPartition h certificates id = Ret result ∧
    DualRecoveryResult.success result = true ∧
    applyDualMapping certificates shape dualShape = Ret unified ∧
    createRecoveredCertificate h unified id certificates
      = Ret (DualRecoveryResult.recoveredCertificate result) ∧
    DualMapping.dual (DualRecoveryResult.dualMapping result) = type dualShape.
Proof.
  intros Hvalid Hshape Hdual. unfold recoverFromPartition.
  rewrite Hvalid. js_simpl. rewrite (getGeometricShape_known _ _ Hshape). js_simpl.
  rewrite Hdual. js_simpl.
  destruct (applyDualMapping_returns certificates id shape dualShape Hshape Hdual)
    as (unified & Happly & _).
  rewrite Happly. js_simpl. unfold createRecoveredCertificate.
  rewrite (getGeometricShape_known _ _ Hshape). js_simpl.
  eexists _, unified. split; [reflexivity|]. split_and!; reflexivity.
Qed.

Lemma recoverFromPartition_rejects h certificates id shape message :
  validatePartitionCertificates certificates = Throw message →
  GEOMETRIC_SHAPES !! id = Some shape →
  ∃ result,
    recoverFromPartition h certificates id = Ret result ∧
    DualRecoveryResult.success result = false ∧
    createErrorCertificate h id message
      = Ret (DualRecoveryResult.recoveredCertificate result).
Proof.
  intros Hinvalid Hshape. unfold recoverFromPartition.
  rewrite Hinvalid. js_simpl.
  destruct (recover_handler h id shape message Hshape) as (certificate & Hcert & _).
  rewrite Hcert. js_simpl. eexists. split; [reflexivity|]. split; reflexivity.
Qed.
End recovery.

(** * Decomposition of a shape under partition *)

Section decomposition.
Import GeometricTypes PartitionDetector.

Lemma decompositionMap_keys_distinct : NoDup (decompositionMap_entries.*1).
Proof. apply (bool_decide_unpack _). vm_compute. exact I. Qed.

Lemma decompositionMap_lookup id table :
  decompositionMap !! id = Some table ↔ (id, table) ∈ decompositionMap_entries.
Proof. symmetry. apply elem_of_list_to_map, decompositionMap_keys_distinct. Qed.

(** Every table has positive keys and a key that is at most 2. *)
Lemma decompositionMap_tables id table :
  decompositionMap !! id = Some table →
  Forall (λ entry, 0 < entry.1) table ∧ Exists (λ entry, entry.1 ≤ 2) table.
Proof.
  intros Hin%decompositionMap_lookup.
  assert (Hall : Forall (λ e, Forall (λ entry, 0 < entry.1) e.2
                              ∧ Exists (λ entry, entry.1 ≤ 2) e.2)
                   decompositionMap_entries).
  { apply (bool_decide_unpack _). vm_compute. exact I. }
  rewrite Forall_forall in Hall. exact (Hall _ Hin).
Qed.

Lemma catalog_has_table id shape :
  GEOMETRIC_SHAPES !! id = Some shape → is_Some (decompositionMap !! id).
Proof.
  revert id shape. apply (catalog_ind (λ id _, is_Some (decompositionMap !! id))).
  repeat (apply Forall_cons; split; [vm_compute; eauto|]). constructor.
Qed.

(** The loop keeps the entry of the largest admissible key seen so far. *)
Lemma best_match_spec partitionCount table : ∀ bestMatch bestPartitionCount,
  let result := foldl (best_step partitionCount) (bestMatch, bestPartitionCount) table in
  (result = (bestMatch, bestPartitionCount) ∧
   ∀ key value, (key, value) ∈ table → key ≤ partitionCount →
                key ≤ bestPartitionCount) ∨
  (bestPartitionCount < result.2 ∧
   largest_key_le table partitionCount result.2 result.1).
Proof.
  induction table as [|[count decomposedType] table IH];
    intros bestMatch bestPartitionCount; simpl.
  { left. split; [done|]. intros key value Hin. by apply elem_of_nil in Hin. }
  destruct (Z.leb_spec count partitionCount) as [Hle|Hgt];
    destruct (Z.gtb_spec count bestPartitionCount) as [Hbetter|Hworse]; simpl.
  1:{ destruct (IH decomposedType count) as [[-> Hrest]|[Hlt (Hin & Hle' & Hmax)]].
      - right. simpl. split; [lia|]. split_and!; [set_solver|done|].
        intros key value [[= -> ->]|Hin]%elem_of_cons Hk; [lia|by eauto].
      - right. split; [lia|]. split_and!; [set_solver|done|].
        intros key value [[= -> ->]|Hin']%elem_of_cons Hk; [lia|by eauto]. }
  all: destruct (IH bestMatch bestPartitionCount)
         as [[-> Hrest]|[Hlt (Hin & Hle' & Hmax)]];
    [left; split; [done|];
     intros key value [[= -> ->]|Hin]%elem_of_cons Hk; [lia|by eauto]
    |right; split; [lia|]; split_and!; [set_solver|done|];
     intros key value [[= -> ->]|Hin']%elem_of_cons Hk; [lia|by eauto]].
Qed.

Lemma decomposeGeometricType_table original table partitionCount :
  decompositionMap !! original = Some table →
  decomposeGeometricType original partitionCount
  = Ret (foldl (best_step partitionCount) (POINT, 0) table).1.
Proof.
  intros Htable. unfold decomposeGeometricType, typeDecompositions. rewrite Htable.
  by destruct (foldl _ _ _).
Qed.
End decomposition.

Import PartitionDetector.

(** * Main results: decomposition *)

(** C7, amended. For a catalog shape, [decomposeGeometricType] selects in the
    shape's own table the entry of the largest key that does not exceed the
    piece count (one exists as soon as there are two pieces); a piece count
    above every key selects the entry of the largest key of the table, and a
    piece count below every key gives [POINT].  The generic rule is not used. *)
Theorem decomposeGeometricType_largest_key (original : GeometricType)
    (shape : GeometricShape) (partitionCount : Z) :
  GEOMETRIC_SHAPES !! original = Some shape →
  ∃ table decomposed,
    decompositionMap !! original = Some table ∧
    decomposeGeometricType original partitionCount = Ret decomposed ∧
    ((∃ key value, (key, value) ∈ table ∧ key ≤ partitionCount) →
     ∃ key, largest_key_le table partitionCount key decomposed) ∧
    (2 ≤ partitionCount → ∃ key, largest_key_le table partitionCount key decomposed) ∧
    ((∀ key value, (key, value) ∈ table → key < partitionCount) →
     ∃ key, (key, decomposed) ∈ table ∧
            ∀ key' value', (key', value') ∈ table → key' ≤ key) ∧
    ((∀ key value, (key, value) ∈ table → partitionCount < key) → decomposed = POINT).
Proof.
  intros Hshape.
  destruct (catalog_has_table original shape Hshape) as [table Htable].
  destruct (decompositionMap_tables original table Htable) as [Hpos Hsmall].
  exists table, (foldl (best_step partitionCount) (POINT, 0) table).1.
  split; [done|]. split; [by apply decomposeGeometricType_table|].
  pose proof (best_match_spec partitionCount table POINT 0) as Hspec. simpl in Hspec.
  assert (Hsome : (∃ key value, (key, value) ∈ table ∧ key ≤ partitionCount) →
    ∃ key, largest_key_le table partitionCount key
             (foldl (best_step partitionCount) (POINT, 0) table).1).
  { intros (key & value & Hin & Hle).
    destruct Hspec as [[_ Hnone]|[_ Hbest]]; [|by eexists].
    specialize (Hnone key value Hin Hle).
    rewrite Forall_forall in Hpos. specialize (Hpos _ Hin). simpl in Hpos. lia. }
  split_and!.
  - exact Hsome.
  - intros Hpc. apply Hsome. apply Exists_exists in Hsmall as ([key value] & Hin & Hk).
    simpl in Hk. exists key, value. split; [done|lia].
  - intros Habove.
    destruct table as [|[key value] rest] eqn:Et; [by apply Exists_nil in Hsmall|].
    rewrite <- Et in *.
    destruct Hsome as (best & Hin & _ & Hmax).
    { exists key, value. split; [rewrite Et; set_solver|].
      assert (key < partitionCount) by (apply (Habove key value); rewrite Et; set_solver).
      lia. }
    exists best. split; [done|]. intros key' value' Hin'.
    apply (Hmax key' value' Hin'). specialize (Habove key' value' Hin'). lia.
  - intros Hbelow. destruct Hspec as [[-> _]|[_ (Hin & Hle & _)]]; [done|].
    specialize (Hbelow _ _ Hin). lia.
Qed.

Lemma decomposeGeometricType_largest_key_witness :
  ∃ shape,
    GEOMETRIC_SHAPES !! TWENTY_FOUR_CELL = Some shape ∧
    ∃ table decomposed,
      decompositionMap !! TWENTY_FOUR_CELL = Some table ∧
      decomposeGeometricType TWENTY_FOUR_CELL 5 = Ret decomposed ∧
      ((∃ key value, (key, value) ∈ table ∧ key ≤ 5) →
       ∃ key, largest_key_le table 5 key decomposed) ∧
      (2 ≤ 5 → ∃ key, largest_key_le table 5 key decomposed) ∧
      ((∀ key value, (key, value) ∈ table → key < 5) →
       ∃ key, (key, decomposed) ∈ table ∧
              ∀ key' value', (key', value') ∈ table → key' ≤ key) ∧
      ((∀ key value, (key, value) ∈ table → 5 < key) → decomposed = POINT).
Proof.
  eexists. split; [by_evaluation|].
  eapply (decomposeGeometricType_largest_key TWENTY_FOUR_CELL). by_evaluation.
Defined.

(** C7 as stated (fall through to the generic rule) fails: five pieces exceed
    every key of the table of the truncated tetrahedron; the code answers
    [POINT], the entry of the largest key, and the generic rule on
    [floor(12 / 5) = 2] would answer [LINE]. *)
Lemma piece_count_above_every_key_stays_in_table :
  ∃ table,
    decompositionMap !! TRUNCATED_TETRAHEDRON = Some table ∧
    Forall (λ entry, entry.1 < 5) table ∧
    decomposeGeometricType TRUNCATED_TETRAHEDRON 5 = Ret POINT ∧
    getDefaultDecomposition TRUNCATED_TETRAHEDRON 5 = Ret LINE ∧
    POINT ≠ LINE.
Proof.
  eexists. split; [vm_compute; reflexivity|].
  split; [repeat constructor|].
  split; [vm_compute; reflexivity|].
  split; [vm_compute; reflexivity|discriminate].
Qed.

Import DualPartitionRecovery.


(** * Main results: dual recovery *)

(** C3, amended. Applied to a catalog shape and the dual that [getDual] finds
    for it, [mapThresholdViaDual] returns the threshold unchanged when the
    shape is self-dual; when it is not and its dual is another shape, the
    result is [partitionThreshold * dualVertexCount / originalFaceCount]
    clamped to the interval from 0 to 1. *)
Theorem mapThresholdViaDual_on_catalog_dual (partitionThreshold : Q)
    (id : GeometricType) (shape dualShape : GeometricShape) :
  GEOMETRIC_SHAPES !! id = Some shape →
  getDual shape = Ret (Some dualShape) →
  ∃ unified,
    mapThresholdViaDual partitionThreshold id (type dualShape) = Ret (Finite unified) ∧
    (isSelfDual shape = true → unified = partitionThreshold) ∧
    (isSelfDual shape = false → type dualShape ≠ id →
     unified = clamp01 (partitionThreshold
                        * (inject_Z (vertices dualShape) / inject_Z (faces shape))) ∧
     (0 <= unified)%Q ∧ (unified <= 1)%Q).
Proof.
  intros Hshape Hdual.
  destruct (mapThresholdViaDual_finite id shape dualShape partitionThreshold Hshape Hdual)
    as (unified & Hrun & Hsame & Hother).
  destruct (catalog_dual id shape Hshape dualShape Hdual) as (_ & Hself & _).
  exists unified. split; [done|]. split.
  - intros Hsd. apply Hsame, Hself, Hsd.
  - intros _ Hne. rewrite (Hother Hne). split; [done|]. apply clamp01_bounds.
Qed.

Lemma mapThresholdViaDual_on_catalog_dual_witness :
  ∃ shape dualShape,
    GEOMETRIC_SHAPES !! SIXTEEN_CELL = Some shape ∧
    getDual shape = Ret (Some dualShape) ∧
    ∃ unified,
      mapThresholdViaDual 0.75 SIXTEEN_CELL (type dualShape) = Ret (Finite unified) ∧
      (isSelfDual shape = true → unified = 0.75%Q) ∧
      (isSelfDual shape = false → type dualShape ≠ SIXTEEN_CELL →
       unified = clamp01 (0.75 * (inject_Z (vertices dualShape) / inject_Z (faces shape)))
       ∧ (0 <= unified)%Q ∧ (unified <= 1)%Q).
Proof.
  eexists _, _. split; [by_evaluation|]. split; [by_evaluation|].
  apply (mapThresholdViaDual_on_catalog_dual 0.75 SIXTEEN_CELL); by_evaluation.
Defined.

(** C3 as stated (the ratio alone) fails: for the cube the clamped ratio is 1
    and the code returns the cube's own threshold 0.5; for the 600-cell, which
    is not self-dual and declares itself as its dual, the threshold 0.6 is
    left unchanged although the ratio is 0.1. *)
Lemma unified_threshold_is_not_the_ratio :
  ∃ cube octahedron cell600 unified unified600,
    GEOMETRIC_SHAPES !! CUBE = Some cube ∧
    isSelfDual cube = false ∧ dual cube = Some OCTAHEDRON ∧
    getDual cube = Ret (Some octahedron) ∧
    mapThresholdViaDual (threshold cube) CUBE (type octahedron) = Ret (Finite unified) ∧
    (unified == 0.5)%Q ∧ (spec_unifiedThreshold cube octahedron == 1)%Q ∧
    ¬ (unified == spec_unifiedThreshold cube octahedron)%Q ∧
    GEOMETRIC_SHAPES !! SIX_HUNDRED_CELL = Some cell600 ∧
    isSelfDual cell600 = false ∧ dual cell600 = Some SIX_HUNDRED_CELL ∧
    getDual cell600 = Ret (Some cell600) ∧
    mapThresholdViaDual (threshold cell600) SIX_HUNDRED_CELL (type cell600)
      = Ret (Finite unified600) ∧
    (unified600 == 0.6)%Q ∧ (spec_unifiedThreshold cell600 cell600 == 0.1)%Q.
Proof.
  eexists _, _, _, _, _.
  split; [by_evaluation|]. split; [by_evaluation|]. split; [by_evaluation|].
  split; [by_evaluation|]. split; [by_evaluation|].
  split; [by_evaluation|]. split; [by_evaluation|].
  split; [intros H; vm_compute in H; discriminate H|].
  split; [by_evaluation|]. split; [by_evaluation|]. split; [by_evaluation|].
  split; [by_evaluation|]. split; [by_evaluation|].
  split; by_evaluation.
Qed.

(** The rejection of bad pieces where it works.  For a catalog identifier,
    [recoverFromPartition] on an empty piece list, on a list with an invalid
    piece, or on a list with two pieces of different shape identifiers
    returns [success = false] with a certificate that has no votes,
    [agreesCount = 0], [requiredCount = 0] and [valid = false]. *)
Theorem recoverFromPartition_rejects_bad_pieces (h : Host)
    (certificates : list ConsensusCertificate.t) (id : GeometricType)
    (shape : GeometricShape) :
  GEOMETRIC_SHAPES !! id = Some shape →
  certificates = [] ∨
  (∃ c, c ∈ certificates ∧ ConsensusCertificate.valid c = false) ∨
  (∃ c1 c2, c1 ∈ certificates ∧ c2 ∈ certificates ∧
     ConsensusCertificate.geometricType c1 ≠ ConsensusCertificate.geometricType c2) →
  ∃ result,
    recoverFromPartition h certificates id = Ret result ∧
    DualRecoveryResult.success result = false ∧
    let shell := DualRecoveryResult.recoveredCertificate result in
    ConsensusCertificate.vertices shell = [] ∧
    ConsensusCertificate.agreesCount shell = 0 ∧
    ConsensusCertificate.requiredCount shell = 0 ∧
    ConsensusCertificate.valid shell = false.
Proof.
  intros Hshape Hbad.
  destruct (validatePartitionCertificates_rejects certificates Hbad) as [message Hthrow].
  destruct (recoverFromPartition_rejects h certificates id shape message Hthrow Hshape)
    as (result & Hrun & Hfail & Hcert).
  destruct (recover_handler h id shape message Hshape)
    as (shell & Hshell & Hvertices & Hagrees & Hrequired & Hvalid).
  rewrite Hshell in Hcert. injection Hcert as ->.
  exists result. by split_and!.
Qed.

Lemma recoverFromPartition_rejects_bad_pieces_witness :
  ∃ shape,
    GEOMETRIC_SHAPES !! CUBE = Some shape ∧
    (∃ c, c ∈ tetrahedron_pieces ∧ ConsensusCertificate.valid c = false) ∧
    ∃ result,
      recoverFromPartition sample_host tetrahedron_pieces CUBE = Ret result ∧
      DualRecoveryResult.success result = false ∧
      let shell := DualRecoveryResult.recoveredCertificate result in
      ConsensusCertificate.vertices shell = [] ∧
      ConsensusCertificate.agreesCount shell = 0 ∧
      ConsensusCertificate.requiredCount shell = 0 ∧
      ConsensusCertificate.valid shell = false.
Proof.
  assert (Hinvalid : ∃ c, c ∈ tetrahedron_pieces ∧ ConsensusCertificate.valid c = false).
  { eexists. split; [apply list_elem_of_here|reflexivity]. }
  eexists. split; [by_evaluation|]. split; [exact Hinvalid|].
  eapply (recoverFromPartition_rejects_bad_pieces sample_host tetrahedron_pieces CUBE);
    [by_evaluation|right; left; exact Hinvalid].
Defined.

(** C4. For an identifier for which [GEOMETRIC_SHAPES] has nothing, neither a
    shape of its own nor a member inherited from [Object.prototype],
    [recoverFromPartition] returns no result, whatever the pieces are, and so
    no shell for an empty piece list, an invalid piece or pieces of different
    identifiers: the [catch] branch builds the shell with
    [createErrorCertificate], which looks the shape up and throws
    [Unknown geometric type]. *)
Theorem recoverFromPartition_unknown_shape_throws (h : Host)
    (certificates : list ConsensusCertificate.t) (id : GeometricType) :
  GEOMETRIC_SHAPES !! id = None →
  id ∉ Object_prototype_members →
  recoverFromPartition h certificates id = Throw ("Unknown geometric type: " +:+ id).
Proof.
  intros Hunknown Hown. unfold recoverFromPartition, createErrorCertificate.
  destruct (validatePartitionCertificates_outcome certificates) as [->|[message ->]];
    js_simpl; rewrite (getGeometricShape_unknown id Hunknown Hown); reflexivity.
Qed.

Lemma recoverFromPartition_unknown_shape_throws_witness :
  GEOMETRIC_SHAPES !! "HEXAGON" = None ∧
  ("HEXAGON" ∉ Object_prototype_members) ∧
  recoverFromPartition sample_host [] "HEXAGON" = Throw "Unknown geometric type: HEXAGON".
Proof.
  split; [by_evaluation|]. split; [by_evaluation|].
  apply (recoverFromPartition_unknown_shape_throws sample_host [] "HEXAGON");
    by_evaluation.
Defined.

(** C6. The certificate of a successful [recoverFromPartition] carries the
    original identifier and its catalog shape, the concatenation of the vote
    lists of the pieces, the sum of their agreement counts, and the Betti
    numbers (1, 0, 0), which are written down and not computed. *)
Theorem recovered_certificate (h : Host) (certificates : list ConsensusCertificate.t)
    (id : GeometricType) (result : DualRecoveryResult.t) :
  recoverFromPartition h certificates id = Ret result →
  DualRecoveryResult.success result = true →
  let recovered := DualRecoveryResult.recoveredCertificate result in
  ConsensusCertificate.geometricType recovered = id ∧
  GEOMETRIC_SHAPES !! id = Some (ConsensusCertificate.shape recovered) ∧
  ConsensusCertificate.vertices recovered
    = concat (ConsensusCertificate.vertices <$> certificates) ∧
  ConsensusCertificate.agreesCount recovered = sum_agreesCount certificates ∧
  ConsensusCertificate.bettiNumbers recovered
    = Some {| beta_0 := 1; beta_1 := 0; beta_2 := 0 |}.
Proof.
  intros Hrun Hsuccess.
  destruct (recoverFromPartition_success_inv h certificates id result Hrun Hsuccess)
    as (shape & dualShape & unified & Hshape & Hdual & Happly & Hcert).
  unfold createRecoveredCertificate in Hcert.
  rewrite (getGeometricShape_known _ _ Hshape) in Hcert. js_simpl in Hcert.
  injection Hcert as <-. cbv zeta.
  cbn [ConsensusCertificate.geometricType ConsensusCertificate.shape
       ConsensusCertificate.vertices ConsensusCertificate.agreesCount
       ConsensusCertificate.bettiNumbers].
  split_and!; [done|done|apply bind_vertices_concat| |done].
  by eapply applyDualMapping_totalAgrees.
Qed.

(** C10. [recoverFromPartition] checks the pieces against each other only: for
    a non-empty list of valid pieces that all carry one identifier
    [pieceType], and an [id] of the catalog that has a dual, it succeeds with
    the catalog data of [id], whatever [pieceType] is. *)
Theorem recoverFromPartition_ignores_piece_shape (h : Host)
    (certificates : list ConsensusCertificate.t) (pieceType id : GeometricType)
    (shape dualShape : GeometricShape) :
  certificates ≠ [] →
  Forall (λ c, ConsensusCertificate.valid c = true) certificates →
  Forall (λ c, ConsensusCertificate.geometricType c = pieceType) certificates →
  GEOMETRIC_SHAPES !! id = Some shape →
  getDual shape = Ret (Some dualShape) →
  ∃ result,
    recoverFromPartition h certificates id = Ret result ∧
    DualRecoveryResult.success result = true ∧
    ConsensusCertificate.geometricType (DualRecoveryResult.recoveredCertificate result)
      = id ∧
    ConsensusCertificate.shape (DualRecoveryResult.recoveredCertificate result)
      = shape ∧
    DualMapping.dual (DualRecoveryResult.dualMapping result) = type dualShape.
Proof.
  intros Hne Hvalid Hsame Hshape Hdual.
  rewrite Forall_forall in Hvalid. rewrite Forall_forall in Hsame.
  assert (Haccept : validatePartitionCertificates certificates = Ret ()).
  { apply validatePartitionCertificates_accepts; [done|done|].
    intros c1 c2 H1 H2. by rewrite (Hsame c1 H1), (Hsame c2 H2). }
  destruct (recoverFromPartition_proceeds h certificates id shape dualShape
              Haccept Hshape Hdual)
    as (result & unified & Hrun & Hsuccess & _ & Hcert & Hmapping).
  unfold createRecoveredCertificate in Hcert.
  rewrite (getGeometricShape_known _ _ Hshape) in Hcert. js_simpl in Hcert.
  injection Hcert as Hcert.
  exists result. split_and!; [done|done| | |done]; by rewrite <- Hcert.
Qed.

Lemma recoverFromPartition_ignores_piece_shape_witness :
  ∃ shape dualShape,
    line_pieces ≠ [] ∧
    Forall (λ c, ConsensusCertificate.valid c = true) line_pieces ∧
    Forall (λ c, ConsensusCertificate.geometricType c = LINE) line_pieces ∧
    GEOMETRIC_SHAPES !! CUBE = Some shape ∧
    getDual shape = Ret (Some dualShape) ∧
    LINE ≠ CUBE ∧
    ∃ result,
      recoverFromPartition sample_host line_pieces CUBE = Ret result ∧
      DualRecoveryResult.success result = true ∧
      ConsensusCertificate.geometricType (DualRecoveryResult.recoveredCertificate result)
        = CUBE ∧
      ConsensusCertificate.shape (DualRecoveryResult.recoveredCertificate result)
        = shape ∧
      DualMapping.dual (DualRecoveryResult.dualMapping result) = type dualShape.
Proof.
  assert (Hne : line_pieces ≠ []) by (intros H; vm_compute in H; discriminate H).
  assert (Hvalid : Forall (λ c, ConsensusCertificate.valid c = true) line_pieces)
    by by_evaluation.
  assert (Hsame : Forall (λ c, ConsensusCertificate.geometricType c = LINE) line_pieces)
    by by_evaluation.
  eexists _, _. split; [exact Hne|]. split; [exact Hvalid|]. split; [exact Hsame|].
  split; [by_evaluation|]. split; [by_evaluation|]. split; [discriminate|].
  apply (recoverFromPartition_ignores_piece_shape sample_host line_pieces LINE CUBE);
    [exact Hne|exact Hvalid|exact Hsame|by_evaluation|by_evaluation].
Defined.

Lemma recovered_certificate_witness :
  ∃ result,
    recoverFromPartition sample_host line_pieces CUBE = Ret result ∧
    DualRecoveryResult.success result = true ∧
    let recovered := DualRecoveryResult.recoveredCertificate result in
    ConsensusCertificate.geometricType recovered = CUBE ∧
    GEOMETRIC_SHAPES !! CUBE = Some (ConsensusCertificate.shape recovered) ∧
    ConsensusCertificate.vertices recovered
      = concat (ConsensusCertificate.vertices <$> line_pieces) ∧
    ConsensusCertificate.agreesCount recovered = sum_agreesCount line_pieces ∧
    ConsensusCertificate.bettiNumbers recovered
      = Some {| beta_0 := 1; beta_1 := 0; beta_2 := 0 |}.
Proof.
  eexists. split; [by_evaluation|]. split; [by_evaluation|].
  apply (recovered_certificate sample_host line_pieces CUBE); by_evaluation.
Defined.

(** * Further results: certificates of the verifier *)

Lemma catalog_id_truthy id shape :
  GEOMETRIC_SHAPES !! id = Some shape → truthy id = true.
Proof.
  revert id shape.
  apply (catalog_ind (λ id _, truthy id = true)).
  repeat (apply Forall_cons; split; [reflexivity|]). constructor.
Qed.

Lemma createConsensusCertificate_fields h criteria shape description certificate :
  createConsensusCertificate h criteria shape description = Ret certificate →
  ∃ betti,
    BettiCalculator.calculateBettiNumbers (GeometricConsensus.convertToVertices criteria)
      (GeometricConsensus.buildConsensusEdges criteria) = Ret betti ∧
    ConsensusCertificate.certificateId certificate = GeometricConsensus.generateCertificateId h ∧
    ConsensusCertificate.geometricType certificate = type shape ∧
    ConsensusCertificate.shape certificate = shape ∧
    ConsensusCertificate.vertices certificate = criteria ∧
    ConsensusCertificate.agreesCount certificate
      = Z.of_nat (length (filter (λ v, DecisionVertex.agrees v = true) criteria)) ∧
    ConsensusCertificate.requiredCount certificate = calculateRequiredAgreement shape ∧
    ConsensusCertificate.valid certificate
      = isValidForConsensus shape (ConsensusCertificate.agreesCount certificate) ∧
    ConsensusCertificate.bettiNumbers certificate = Some betti ∧
    ConsensusCertificate.partitionInfo certificate
      = Some {| isPartitioned := BettiCalculator.detectPartition betti;
                partitionCount := BettiCalculator.countPartitions betti |}.
Proof.
  unfold createConsensusCertificate.
  destruct (BettiCalculator.calculateBettiNumbers _ _) as [betti| | | |]; try done.
  rewrite js_bind_Ret. intros [= <-]. exists betti. split_and!; reflexivity.
Qed.

Lemma createConsensusCertificate_validates h criteria id shape description certificate :
  GEOMETRIC_SHAPES !! id = Some shape →
  createConsensusCertificate h criteria shape description = Ret certificate →
  validateCertificate certificate = true.
Proof.
  intros Hshape Hcert.
  destruct (createConsensusCertificate_fields _ _ _ _ _ Hcert)
    as (betti & _ & Hid & Htype & Hs & Hv & Hagrees & Hreq & Hvalid & _).
  unfold validateCertificate.
  rewrite Hid, Htype, Hs, Hv, Hreq, Hvalid, Hagrees.
  rewrite (catalog_type id shape Hshape), (catalog_id_truthy id shape Hshape).
  rewrite !Z.eqb_refl, Bool.eqb_reflx. reflexivity.
Qed.

(** X1. For every catalog identifier and every vote list, the certificate that
    [verifyConsensus] returns passes [validateCertificate]: its agreement
    count, its required count and its verdict are the ones that
    [validateCertificate] recomputes. *)
Theorem validateCertificate_of_verifyConsensus (h : Host)
    (criteria : list DecisionVertex.t) (id : GeometricType) (shape : GeometricShape)
    (description : string) :
  GEOMETRIC_SHAPES !! id = Some shape →
  ∃ result,
    verifyConsensus h criteria id description = Ret result ∧
    validateCertificate (ConsensusResult.certificate result) = true.
Proof.
  intros Hshape.
  destruct (verifyConsensus_known h criteria id shape description Hshape)
    as (result & Hrun & Hcert & _).
  exists result. split; [done|].
  by eapply createConsensusCertificate_validates.
Qed.

Lemma validateCertificate_of_verifyConsensus_witness :
  ∃ shape,
    GEOMETRIC_SHAPES !! OCTAHEDRON = Some shape ∧
    ∃ result,
      verifyConsensus sample_host octahedron_votes OCTAHEDRON "SHOULD" = Ret result ∧
      validateCertificate (ConsensusResult.certificate result) = true.
Proof.
  eexists.
  split; [by_evaluation|].
  eapply (validateCertificate_of_verifyConsensus sample_host octahedron_votes OCTAHEDRON);
    first [by_evaluation | intros H; vm_compute in H; discriminate H].
Defined.

Lemma verifyConsensus_keyword h criteria id shape description keyword :
  GEOMETRIC_SHAPES !! id = Some shape →
  getConsensusKeyword shape = keyword →
  ∃ result,
    verifyConsensus h criteria id description = Ret result ∧
    getConsensusKeyword (ConsensusCertificate.shape (ConsensusResult.certificate result))
    = keyword.
Proof.
  intros Hshape Hkeyword.
  destruct (verifyConsensus_known h criteria id shape description Hshape)
    as (result & Hrun & Hcert & _).
  destruct (createConsensusCertificate_fields _ _ _ _ _ Hcert)
    as (_ & _ & _ & _ & Hs & _).
  exists result. split; [done|]. by rewrite Hs.
Qed.

(** X4. Each of the nine convenience methods [mustLocal] ... [mayGlobal] returns,
    for every vote list, a certificate whose shape has the consensus keyword
    that the name of the method spells ([mustLocal]: [MUST_LOCAL], ...). *)
Theorem keyword_methods_use_matching_shapes (h : Host)
    (criteria : list DecisionVertex.t) :
  Forall (λ '(method, keyword),
            ∃ result,
              method h criteria = Ret result ∧
              getConsensusKeyword
                (ConsensusCertificate.shape (ConsensusResult.certificate result))
              = keyword)
    keyword_methods.
Proof.
  unfold keyword_methods.
  repeat (apply Forall_cons; split;
          [cbv beta iota; eapply verifyConsensus_keyword;
           [vm_compute; reflexivity|vm_compute; reflexivity]|]).
  constructor.
Qed.

(** * Further results: depth-first search and Betti numbers of a graph *)

Section dfs_closure.
Context (adjacency : list (list Z)) (n : nat).
Hypothesis adjacency_square : square n adjacency.
Context (P : nat → Prop).
Hypothesis P_closed :
  ∀ a b, P a → BettiCalculator.adjacent adjacency a b = true → P b.

Import BettiCalculator.

(** A search returns with every vertex that it marked having all its
    neighbours marked. *)
Lemma dfs_closure fuel : ∀ vertex visited,
  length visited = n → (vertex < n)%nat → is_visited visited vertex = false →
  P vertex → (unvisited visited ≤ fuel)%nat →
  ∃ visited',
    dfs fuel vertex adjacency visited = Ret visited' ∧
    extends visited visited' ∧
    is_visited visited' vertex = true ∧
    (∀ k, is_visited visited' k = true → is_visited visited k = true ∨ P k) ∧
    (∀ a b, is_visited visited' a = true → is_visited visited a = false →
            adjacent adjacency a b = true → is_visited visited' b = true).
Proof.
  induction fuel as [|fuel IH]; intros vertex visited Hlen Hv Hnot HP Hfuel.
  { pose proof (unvisited_insert visited vertex ltac:(lia) Hnot). lia. }
  destruct (lookup_lt_is_Some_2 adjacency vertex) as [row Hrow];
    [destruct adjacency_square; lia|].
  simpl. rewrite Hrow. unfold array_set. rewrite decide_True by lia.
  set (visited1 := <[vertex:=true]> visited).
  set (body := λ (i : nat) (visited0 : list bool), _).
  assert (Hlt : (unvisited visited1 ≤ fuel)%nat).
  { pose proof (unvisited_insert visited vertex ltac:(lia) Hnot). unfold visited1. lia. }
  assert (Hloop : ∀ (indices : list nat) (current : list bool),
    length current = n → extends visited1 current →
    (∀ k, is_visited current k = true → is_visited visited k = true ∨ P k) →
    (∀ a b, is_visited current a = true → is_visited visited a = false →
            a ≠ vertex → adjacent adjacency a b = true → is_visited current b = true) →
    ∃ visited',
      for_each indices current body = Ret visited' ∧
      extends current visited' ∧
      (∀ k, k ∈ indices → adjacent adjacency vertex k = true →
            is_visited visited' k = true) ∧
      (∀ k, is_visited visited' k = true → is_visited visited k = true ∨ P k) ∧
      (∀ a b, is_visited visited' a = true → is_visited visited a = false →
              a ≠ vertex → adjacent adjacency a b = true →
              is_visited visited' b = true)).
  { induction indices as [|i indices IHl]; intros current Hcl Hext Hcls Hnew.
    - exists current. split_and!; auto using extends_refl.
      intros k Hk. by apply elem_of_nil in Hk.
    - rewrite for_each_cons.
      assert (body i current =
              if adjacent adjacency vertex i && negb (is_visited current i)
              then dfs fuel i adjacency current else Ret current) as -> by done.
      destruct (adjacent adjacency vertex i) eqn:Hadj;
        destruct (is_visited current i) eqn:Hvis; simpl.
      2:{ destruct (IH i current) as (v2 & Hrun & Hext2 & Hi & Hcls2 & Hnew2); auto.
          { by eapply adjacent_lt. }
          { by eapply P_closed. }
          { pose proof (unvisited_extends _ _ Hext). lia. }
          rewrite Hrun. simpl.
          destruct (IHl v2) as (v3 & Hrun3 & Hext3 & Hadj3 & Hcls3 & Hnew3).
          { rewrite <- Hcl. symmetry. by apply extends_length. }
          { by eapply extends_trans. }
          { intros k Hk. destruct (Hcls2 k Hk); auto. }
          { intros a b Ha Hold Hne Hab.
            destruct (is_visited current a) eqn:Hca.
            - eapply extends_visited; [done|]. by eapply Hnew.
            - by eapply Hnew2. }
          exists v3. split_and!; auto.
          - by eapply extends_trans.
          - intros k [->|Hk]%elem_of_cons Hak; [|by auto].
            by eapply extends_visited. }
      all: destruct (IHl current) as (v3 & Hrun3 & Hext3 & Hadj3 & Hcls3 & Hnew3); auto;
        exists v3; split_and!; auto;
        intros k [->|Hk]%elem_of_cons Hak; auto; try congruence;
        by eapply extends_visited. }
  destruct (Hloop (seq 0 (length row)) visited1)
    as (v' & Hrun & Hext & Hadj & Hcls & Hnew).
  { unfold visited1. by rewrite length_insert. }
  { apply extends_refl. }
  { intros k [->|Hk]%is_visited_insert_inv; auto. }
  { intros a b [->|Ha]%is_visited_insert_inv Hold Hne Hab; [done|congruence]. }
  exists v'. split_and!; auto.
  - eapply extends_trans; [apply extends_insert|done].
  - eapply extends_visited; [done|]. apply is_visited_insert. lia.
  - intros a b Ha Hold Hab. destruct (decide (a = vertex)) as [->|Hne].
    + apply Hadj; [|done].
      unfold adjacent in Hab. apply bool_decide_eq_true in Hab.
      rewrite Hrow in Hab. simpl in Hab.
      apply elem_of_seq. split; [lia|]. apply lookup_lt_Some in Hab. lia.
    + by eapply Hnew.
Qed.
End dfs_closure.

Lemma marks_closed_reaches adjacency visited a b :
  marks_closed adjacency visited → reaches adjacency a b →
  BettiCalculator.is_visited visited a = true →
  BettiCalculator.is_visited visited b = true.
Proof. intros Hclosed. induction 1; eauto. Qed.

Lemma is_visited_replicate n k :
  BettiCalculator.is_visited (replicate n false) k = false.
Proof.
  unfold BettiCalculator.is_visited.
  destruct (replicate n false !! k) as [b|] eqn:Hk; [|done].
  by apply lookup_replicate in Hk as [-> _].
Qed.

(** The count of [calculateConnectedComponents]: it lies between 0 and the
    number of vertices, and it is 1 exactly when the search from the first
    vertex reaches every vertex. *)
Lemma calculateConnectedComponents_spec vertices adjacency n :
  length vertices = n → square n adjacency →
  ∃ components,
    BettiCalculator.calculateConnectedComponents vertices adjacency = Ret components ∧
    0 ≤ components ≤ Z.of_nat n ∧
    ((0 < n)%nat →
     1 ≤ components ∧
     (components = 1 ↔ ∀ b, (b < n)%nat → reaches adjacency 0%nat b)).
Proof.
  intros Hn Hsq. unfold BettiCalculator.calculateConnectedComponents. rewrite Hn.
  clear Hn vertices.
  set (body := λ (i : nat) (st : list bool * Z), _).
  assert (Hbody : ∀ i visited components,
    body i (visited, components) =
      if negb (BettiCalculator.is_visited visited i)
      then visited' ← BettiCalculator.dfs n i adjacency visited;
           Ret (visited', components + 1)
      else Ret (visited, components)) by done.
  assert (Hloop : ∀ indices visited components,
    (∀ i, i ∈ indices → (i < n)%nat) → length visited = n →
    marks_closed adjacency visited →
    BettiCalculator.is_visited visited 0 = true → 1 ≤ components →
    (components = 1 →
     ∀ k, BettiCalculator.is_visited visited k = true → reaches adjacency 0%nat k) →
    (2 ≤ components → ∃ k, (k < n)%nat ∧ ¬ reaches adjacency 0%nat k) →
    ∃ visited' components',
      for_each indices (visited, components) body = Ret (visited', components') ∧
      components ≤ components' ≤ components + Z.of_nat (length indices) ∧
      extends visited visited' ∧
      (∀ k, k ∈ indices → BettiCalculator.is_visited visited' k = true) ∧
      (components' = 1 →
       ∀ k, BettiCalculator.is_visited visited' k = true → reaches adjacency 0%nat k) ∧
      (2 ≤ components' → ∃ k, (k < n)%nat ∧ ¬ reaches adjacency 0%nat k)).
  { induction indices as [|i indices IH];
      intros visited components Hin Hlen Hclosed H0 Hc Hone Htwo.
    - exists visited, components. split_and!; auto using extends_refl; simpl; try lia.
      intros k Hk. by apply elem_of_nil in Hk.
    - rewrite for_each_cons, Hbody.
      assert (Hi : (i < n)%nat) by (apply Hin; set_solver).
      assert (Hin' : ∀ j, j ∈ indices → (j < n)%nat)
        by (intros j Hj; apply Hin; set_solver).
      destruct (BettiCalculator.is_visited visited i) eqn:Hvis; simpl.
      + destruct (IH visited components)
          as (v' & c' & Hrun & Hb & Hext & Hall & Hone' & Htwo'); auto.
        exists v', c'. split_and!; auto; try lia.
        intros k [->|Hk]%elem_of_cons; [|by auto].
        by eapply extends_visited.
      + destruct (dfs_closure adjacency n Hsq (λ _, True) ltac:(done) n i visited)
          as (v2 & Hrun2 & Hext2 & Hi2 & _ & Hnew2); auto.
        { rewrite <- Hlen. apply unvisited_le_length. }
        rewrite Hrun2. simpl.
        destruct (IH v2 (components + 1))
          as (v' & c' & Hrun & Hb & Hext & Hall & Hone' & Htwo'); auto.
        { rewrite <- Hlen. symmetry. by apply extends_length. }
        { intros a b Ha Hab. destruct (BettiCalculator.is_visited visited a) eqn:Hold.
          - eapply extends_visited; [done|]. by eapply Hclosed.
          - by eapply Hnew2. }
        { by eapply extends_visited. }
        { lia. }
        { lia. }
        { intros _. exists i. split; [done|]. intros Hreach.
          pose proof (marks_closed_reaches _ _ _ _ Hclosed Hreach H0). congruence. }
        exists v', c'. split_and!; auto; try lia.
        * by eapply extends_trans.
        * intros k [->|Hk]%elem_of_cons; [|by auto].
          by eapply extends_visited. }
  destruct n as [|m].
  { exists 0. simpl. split_and!; try done. lia. }
  change (seq 0 (S m)) with (0%nat :: seq 1 m).
  rewrite for_each_cons, Hbody, is_visited_replicate. simpl negb. cbv iota.
  destruct (dfs_closure adjacency (S m) Hsq (reaches adjacency 0%nat)
              ltac:(intros a b Ha Hab; by eapply rtc_r) (S m) 0%nat
              (replicate (S m) false))
    as (v1 & Hrun1 & Hext1 & H01 & Hcls1 & Hnew1).
  { by rewrite length_replicate. }
  { lia. }
  { apply is_visited_replicate. }
  { apply rtc_refl. }
  { etransitivity; [apply unvisited_le_length|]. by rewrite length_replicate. }
  rewrite Hrun1. js_simpl.
  destruct (Hloop (seq 1 m) v1 1)
    as (v' & c' & Hrun & Hb & Hext & Hall & Hone & Htwo); auto.
  { intros i Hi%elem_of_seq. lia. }
  { rewrite <- (extends_length _ _ Hext1). by rewrite length_replicate. }
  { intros a b Ha Hab. eapply Hnew1; [done| |done]. apply is_visited_replicate. }
  { lia. }
  { intros _ k Hk. destruct (Hcls1 k Hk) as [Hold|]; [|done].
    by rewrite is_visited_replicate in Hold. }
  { lia. }
  change (0 + 1) with 1. rewrite Hrun. js_simpl. exists c'.
  rewrite length_seq in Hb. split; [done|]. split; [lia|]. intros _. split; [lia|].
  split.
  - intros Hc b Hb'. apply Hone; [done|].
    destruct b as [|b]; [by eapply extends_visited|].
    apply Hall, elem_of_seq. lia.
  - intros Hreach. destruct (decide (2 ≤ c')) as [Hge|]; [|lia].
    destruct (Htwo Hge) as (k & Hk & Hnot). destruct Hnot. by apply Hreach.
Qed.

Lemma adjacent_cell adjacency a b :
  BettiCalculator.adjacent adjacency a b = true ↔ cell adjacency a b = Some 1.
Proof. unfold BettiCalculator.adjacent, cell. apply bool_decide_eq_true. Qed.

Section graph.
Context (vertices : list Vertex.t) (edges : list Edge.t).
Hypothesis ids_distinct : NoDup (Vertex.id <$> vertices).
Let adjacency := BettiCalculator.buildAdjacencyMatrix vertices edges.

Lemma adjacent_linked a b :
  BettiCalculator.adjacent adjacency a b = true ↔
  ∃ x y, (Vertex.id <$> vertices) !! a = Some x ∧
         (Vertex.id <$> vertices) !! b = Some y ∧ linked vertices edges x y.
Proof.
  rewrite adjacent_cell.
  destruct (buildAdjacencyMatrix_spec vertices edges) as [_ Hcell].
  fold adjacency in Hcell. rewrite Hcell. unfold links, linked. split.
  - intros (e & He & Hlinks).
    setoid_rewrite (vertexIndex_lookup vertices _ _ ids_distinct) in Hlinks.
    destruct Hlinks as [[Hf Ht]|[Hf Ht]].
    + exists (Edge.from e), (Edge.to e). split_and!; auto.
      * by eapply list_elem_of_lookup_2.
      * by eapply list_elem_of_lookup_2.
      * exists e. auto.
    + exists (Edge.to e), (Edge.from e). split_and!; auto.
      * by eapply list_elem_of_lookup_2.
      * by eapply list_elem_of_lookup_2.
      * exists e. auto.
  - intros (x & y & Hx & Hy & _ & _ & e & He & Hends).
    exists e. split; [done|].
    setoid_rewrite (vertexIndex_lookup vertices _ _ ids_distinct).
    destruct Hends as [[-> ->]|[-> ->]]; auto.
Qed.

Lemma linked_sym x y : linked vertices edges x y → linked vertices edges y x.
Proof.
  intros (Hx & Hy & e & He & Hends). split_and!; auto. exists e. split; [done|].
  destruct Hends; auto.
Qed.

Lemma rtc_linked_sym x y :
  rtc (linked vertices edges) x y → rtc (linked vertices edges) y x.
Proof.
  induction 1 as [|x y z Hxy _ IH]; [done|].
  eapply rtc_r; [done|]. by apply linked_sym.
Qed.

Lemma reaches_linked a b x :
  reaches adjacency a b → (Vertex.id <$> vertices) !! a = Some x →
  ∃ y, (Vertex.id <$> vertices) !! b = Some y ∧ rtc (linked vertices edges) x y.
Proof.
  intros Hreach. revert x. induction Hreach as [a|a c b Hac _ IH]; intros x Hx.
  - exists x. split; [done|]. apply rtc_refl.
  - apply adjacent_linked in Hac as (x' & z & Hx' & Hz & Hlink).
    assert (x' = x) as -> by congruence.
    destruct (IH z Hz) as (y & Hy & Hpath). exists y. split; [done|].
    by eapply rtc_l.
Qed.

Lemma linked_reaches x y a :
  rtc (linked vertices edges) x y → (Vertex.id <$> vertices) !! a = Some x →
  ∃ b, (Vertex.id <$> vertices) !! b = Some y ∧ reaches adjacency a b.
Proof.
  intros Hpath. revert a. induction Hpath as [x|x z y Hxz _ IH]; intros a Ha.
  - exists a. split; [done|]. apply rtc_refl.
  - pose proof Hxz as (_ & Hz & _).
    apply list_elem_of_lookup_1 in Hz as [c Hc].
    destruct (IH c Hc) as (b & Hb & Hreach). exists b. split; [done|].
    eapply rtc_l; [|done]. apply adjacent_linked. eauto.
Qed.

Lemma connected_reaches :
  vertices ≠ [] →
  connected vertices edges ↔
  ∀ b, (b < length vertices)%nat → reaches adjacency 0%nat b.
Proof.
  intros Hne.
  assert (Hlen : length vertices ≠ 0%nat) by (by intros ?%nil_length_inv).
  destruct (lookup_lt_is_Some_2 (Vertex.id <$> vertices) 0%nat) as [x0 H0];
    [rewrite length_fmap; lia|].
  split.
  - intros Hconn b Hb.
    destruct (lookup_lt_is_Some_2 (Vertex.id <$> vertices) b) as [y Hy];
      [by rewrite length_fmap|].
    destruct (linked_reaches x0 y 0%nat) as (b' & Hb' & Hreach); [|done|].
    { apply Hconn; by eapply list_elem_of_lookup_2. }
    by rewrite (NoDup_lookup _ _ _ _ ids_distinct Hy Hb').
  - intros Hreach x y Hx Hy.
    apply list_elem_of_lookup_1 in Hx as [a Ha].
    apply list_elem_of_lookup_1 in Hy as [b Hb].
    assert (Hfrom0 : ∀ c z, (Vertex.id <$> vertices) !! c = Some z →
                            rtc (linked vertices edges) x0 z).
    { intros c z Hc.
      destruct (reaches_linked 0%nat c x0) as (z' & Hz' & Hpath); [|done|].
      - apply Hreach. apply lookup_lt_Some in Hc. by rewrite length_fmap in Hc.
      - congruence. }
    etransitivity; [apply rtc_linked_sym; by eapply Hfrom0|by eapply Hfrom0].
Qed.
End graph.

(** The Betti numbers of a graph with at least one vertex. *)
Lemma calculateBettiNumbers_spec vertices edges :
  vertices ≠ [] →
  ∃ components,
    BettiCalculator.calculateBettiNumbers vertices edges
    = Ret {| beta_0 := components;
             beta_1 := Z.max 0 (Z.of_nat (length edges) - Z.of_nat (length vertices)
                                + components);
             beta_2 := 0 |} ∧
    1 ≤ components ≤ Z.of_nat (length vertices) ∧
    (NoDup (Vertex.id <$> vertices) → components = 1 ↔ connected vertices edges).
Proof.
  intros Hne.
  unfold BettiCalculator.calculateBettiNumbers, BettiCalculator.calculateCycles.
  rewrite decide_False by (by intros ?%nil_length_inv).
  destruct (buildAdjacencyMatrix_spec vertices edges) as [Hsq _].
  destruct (calculateConnectedComponents_spec vertices _ _ eq_refl Hsq)
    as (c & -> & Hb & Hpos).
  destruct Hpos as [H1 Hiff]; [destruct vertices; [done|simpl; lia]|].
  js_simpl. exists c. split; [reflexivity|]. split; [lia|].
  intros Hids. by rewrite (connected_reaches vertices edges Hids Hne).
Qed.

Lemma verifyBettiProperties_accepts vertices edges components :
  0 ≤ components ≤ Z.of_nat (length vertices) →
  BettiCalculator.verifyBettiProperties
    {| beta_0 := components;
       beta_1 := Z.max 0 (Z.of_nat (length edges) - Z.of_nat (length vertices)
                          + components);
       beta_2 := 0 |} vertices edges = true.
Proof.
  intros Hb. unfold BettiCalculator.verifyBettiProperties. cbn [beta_0 beta_1 beta_2].
  repeat match goal with
         | |- context [?a <? ?b] => destruct (Z.ltb_spec a b); [lia|]
         | |- context [?a >? ?b] =>
             rewrite (Z.gtb_ltb a b); destruct (Z.ltb_spec b a); [lia|]
         end.
  simpl. destruct (Z.eqb_spec components 1) as [->|]; [|done].
  match goal with
  | |- context [?a >? ?b] => rewrite (Z.gtb_ltb a b); destruct (Z.ltb_spec b a); [lia|]
  end.
  done.
Qed.

(** X5. [calculateBettiNumbers] returns on every graph (the search never runs out
    of depth), with 0 <= beta_0 <= |V|, 0 <= beta_1 and beta_2 = 0, and its
    result passes [verifyBettiProperties] for the same graph.  With at least
    one vertex, beta_0 >= 1 and beta_1 = max(0, |E| - |V| + beta_0); without
    vertices the result is (0, 0, 0) whatever the edges are, so that the
    formula for beta_1 does not hold there as soon as there is an edge. *)
Theorem calculateBettiNumbers_invariants (vertices : list Vertex.t)
    (edges : list Edge.t) :
  ∃ betti,
    BettiCalculator.calculateBettiNumbers vertices edges = Ret betti ∧
    0 ≤ beta_0 betti ≤ Z.of_nat (length vertices) ∧
    (vertices ≠ [] → 1 ≤ beta_0 betti) ∧
    (vertices ≠ [] →
     beta_1 betti
     = Z.max 0 (Z.of_nat (length edges) - Z.of_nat (length vertices) + beta_0 betti)) ∧
    (vertices = [] →
     betti = {| beta_0 := 0; beta_1 := 0; beta_2 := 0 |} ∧
     (edges ≠ [] →
      beta_1 betti
      ≠ Z.max 0 (Z.of_nat (length edges) - Z.of_nat (length vertices) + beta_0 betti))) ∧
    0 ≤ beta_1 betti ∧
    beta_2 betti = 0 ∧
    BettiCalculator.verifyBettiProperties betti vertices edges = true.
Proof.
  destruct (decide (vertices = [])) as [->|Hne].
  { eexists. split; [reflexivity|]. split_and!; try done.
    intros _. split; [reflexivity|]. intros Hedges. cbn [beta_0 beta_1 length].
    destruct edges; [done|]. rewrite length_cons. lia. }
  destruct (calculateBettiNumbers_spec vertices edges Hne) as (c & -> & Hb & _).
  eexists. split; [reflexivity|]. cbn [beta_0 beta_1 beta_2].
  split_and!; try done; try lia.
  apply verifyBettiProperties_accepts. lia.
Qed.

(** X6. For a graph with at least one vertex and distinct vertex identifiers,
    [calculateBettiNumbers] gives beta_0 = 1 exactly when the graph is
    connected (every two vertices are joined by a chain of edges whose end
    points are vertices), [detectPartition] holds exactly when it is not,
    and a connected graph has beta_1 = max(0, |E| - |V| + 1). *)
Theorem beta_0_is_one_iff_connected (vertices : list Vertex.t) (edges : list Edge.t) :
  vertices ≠ [] →
  NoDup (Vertex.id <$> vertices) →
  ∃ betti,
    BettiCalculator.calculateBettiNumbers vertices edges = Ret betti ∧
    (beta_0 betti = 1 ↔ connected vertices edges) ∧
    (BettiCalculator.detectPartition betti = true ↔ ¬ connected vertices edges) ∧
    (connected vertices edges →
     beta_1 betti
     = Z.max 0 (Z.of_nat (length edges) - Z.of_nat (length vertices) + 1)).
Proof.
  intros Hne Hids.
  destruct (calculateBettiNumbers_spec vertices edges Hne) as (c & -> & Hb & Hiff).
  specialize (Hiff Hids).
  eexists. split; [reflexivity|].
  unfold BettiCalculator.detectPartition. cbn [beta_0 beta_1].
  split_and!; [done| |].
  - rewrite <- Hiff, Z.gtb_ltb, Z.ltb_lt. lia.
  - intros Hconn. apply Hiff in Hconn. by rewrite Hconn.
Qed.

Lemma beta_0_is_one_iff_connected_witness :
  split_graph_vertices ≠ [] ∧
  NoDup (Vertex.id <$> split_graph_vertices) ∧
  ∃ betti,
    BettiCalculator.calculateBettiNumbers split_graph_vertices split_graph_edges = Ret betti ∧
    (beta_0 betti = 1 ↔ connected split_graph_vertices split_graph_edges) ∧
    (BettiCalculator.detectPartition betti = true ↔
     ¬ connected split_graph_vertices split_graph_edges) ∧
    (connected split_graph_vertices split_graph_edges →
     beta_1 betti
     = Z.max 0 (Z.of_nat (length split_graph_edges) - Z.of_nat (length split_graph_vertices) + 1)).
Proof.
  split; [intros H; vm_compute in H; discriminate H|].
  split; [by_evaluation|].
  eapply (beta_0_is_one_iff_connected split_graph_vertices split_graph_edges);
    first [by_evaluation | intros H; vm_compute in H; discriminate H].
Defined.

(** * Further results: simplicial complexes *)

(** The edge that [push_edges] makes of a connection. *)
Lemma push_edges_spec vertices edge_id connections edges :
  Forall (λ c, (c.1 < length vertices ∧ c.2 < length vertices)%nat) connections →
  BettiCalculator.push_edges vertices edge_id connections edges
  = Ret (edges ++ (edge_of vertices edge_id <$> imap pair connections)).
Proof.
  unfold BettiCalculator.push_edges. intros Hrange.
  assert (Hin : Forall (λ e : nat * (nat * nat),
                   (e.2.1 < length vertices ∧ e.2.2 < length vertices)%nat)
                  (imap pair connections)).
  { apply Forall_forall. intros [index c] Hc.
    apply elem_of_lookup_imap in Hc as (i & c' & [= -> ->] & Hc).
    rewrite Forall_forall in Hrange. apply Hrange. by eapply list_elem_of_lookup_2. }
  clear Hrange. revert edges.
  induction Hin as [|[index [from to]] l [Hf Ht] _ IH]; intros edges.
  - simpl. by rewrite app_nil_r.
  - rewrite for_each_cons. simpl in Hf, Ht.
    destruct (lookup_lt_is_Some_2 vertices from Hf) as [a Ha].
    destruct (lookup_lt_is_Some_2 vertices to Ht) as [b Hb].
    rewrite Ha, Hb. rewrite js_bind_Ret, IH, fmap_cons, <- app_assoc.
    unfold edge_of at 2. cbn [fst snd]. rewrite !list_lookup_fmap, Ha, Hb. done.
Qed.

Lemma buildAdjacencyMatrix_pairs vertices edges pairs :
  NoDup (Vertex.id <$> vertices) →
  Forall2 (λ p e, (Vertex.id <$> vertices) !! p.1 = Some (Edge.from e) ∧
                  (Vertex.id <$> vertices) !! p.2 = Some (Edge.to e)) pairs edges →
  BettiCalculator.buildAdjacencyMatrix vertices edges
  = matrix_of_pairs (length vertices) pairs.
Proof.
  intros Hids. unfold BettiCalculator.buildAdjacencyMatrix, matrix_of_pairs.
  generalize (replicate (length vertices) (replicate (length vertices) 0)).
  intros matrix Hall. revert matrix.
  induction Hall as [|p e pairs edges [Hf Ht] _ IH]; intros matrix; [done|].
  cbn [foldl].
  apply (vertexIndex_lookup vertices _ _ Hids) in Hf.
  apply (vertexIndex_lookup vertices _ _ Hids) in Ht.
  rewrite Hf, Ht. apply IH.
Qed.

Lemma edge_of_pairs vertices edge_id (entries : list (nat * (nat * nat))) :
  Forall (λ e, (e.2.1 < length vertices ∧ e.2.2 < length vertices)%nat) entries →
  Forall2 (λ p e, (Vertex.id <$> vertices) !! p.1 = Some (Edge.from e) ∧
                  (Vertex.id <$> vertices) !! p.2 = Some (Edge.to e))
    (snd <$> entries) (edge_of vertices edge_id <$> entries).
Proof.
  induction 1 as [|[index [from to]] l [Hf Ht] _ IH]; [constructor|].
  rewrite !fmap_cons. constructor; [|done]. simpl in *.
  destruct (lookup_lt_is_Some_2 (Vertex.id <$> vertices) from) as [a Ha];
    [by rewrite length_fmap|].
  destruct (lookup_lt_is_Some_2 (Vertex.id <$> vertices) to) as [b Hb];
    [by rewrite length_fmap|].
  by rewrite Ha, Hb.
Qed.

Lemma index_pairs_elem n a b :
  (a, b) ∈ BettiCalculator.index_pairs n ↔ (a < b < n)%nat.
Proof.
  unfold BettiCalculator.index_pairs. rewrite list_elem_of_bind. split.
  - intros (i & Hj & Hi). apply list_elem_of_bind in Hj as (j & Hp & Hj).
    apply list_elem_of_singleton in Hp as [= -> ->].
    apply elem_of_seq in Hi, Hj. lia.
  - intros Hab. exists a. split; [|apply elem_of_seq; lia].
    apply list_elem_of_bind. exists b. split; [by apply list_elem_of_singleton|].
    apply elem_of_seq. lia.
Qed.

Lemma index_pairs_length n :
  (2 * length (BettiCalculator.index_pairs n) = n * (n - 1))%nat.
Proof.
  unfold BettiCalculator.index_pairs.
  assert (Hgen : ∀ k, (k ≤ n)%nat →
    (2 * length (i ← seq 0 k; j ← seq (i + 1) (n - (i + 1)); [(i, j)])
     + k * (k + 1) = 2 * k * n)%nat).
  { induction k as [|k IH]; intros Hk; [done|].
    rewrite seq_S, bind_app, length_app.
    change (0 + k)%nat with k.
    change ([k] ≫= λ i, j ← seq (i + 1) (n - (i + 1)); [(i, j)])
      with ((j ← seq (k + 1) (n - (k + 1)); [(k, j)]) ++ []).
    rewrite app_nil_r.
    assert (∀ l : list nat, length (j ← l; [(k, j)]) = length l) as ->.
    { induction l as [|x l IHl]; [done|]. rewrite bind_cons. simpl. by rewrite IHl. }
    rewrite length_seq. specialize (IH ltac:(lia)). nia. }
  specialize (Hgen n ltac:(lia)). nia.
Qed.

Lemma complete_graph_connected vertices edge_id :
  connected vertices
    (edge_of vertices edge_id
       <$> imap pair (BettiCalculator.index_pairs (length vertices))).
Proof.
  intros x y Hx Hy.
  apply list_elem_of_lookup_1 in Hx as [a Ha].
  apply list_elem_of_lookup_1 in Hy as [b Hb].
  assert (Hdirect : ∀ a b x y, (a < b)%nat →
    (Vertex.id <$> vertices) !! a = Some x → (Vertex.id <$> vertices) !! b = Some y →
    ∃ e, e ∈ edge_of vertices edge_id
               <$> imap pair (BettiCalculator.index_pairs (length vertices)) ∧
         Edge.from e = x ∧ Edge.to e = y).
  { clear. intros a b x y Hab Ha Hb.
    assert (Hin : (a, b) ∈ BettiCalculator.index_pairs (length vertices)).
    { apply index_pairs_elem. apply lookup_lt_Some in Hb.
      rewrite length_fmap in Hb. lia. }
    apply list_elem_of_lookup_1 in Hin as [index Hindex].
    exists (edge_of vertices edge_id (index, (a, b))). split.
    - apply list_elem_of_fmap. exists (index, (a, b)). split; [done|].
      apply elem_of_lookup_imap. eauto.
    - unfold edge_of. cbn [Edge.from Edge.to fst snd]. by rewrite Ha, Hb. }
  destruct (lt_eq_lt_dec a b) as [[Hlt| ->]|Hgt].
  - destruct (Hdirect a b x y Hlt Ha Hb) as (e & He & Hf & Ht).
    apply rtc_once. split_and!; [by eapply list_elem_of_lookup_2..|]. eauto.
  - assert (x = y) as -> by congruence. apply rtc_refl.
  - destruct (Hdirect b a y x Hgt Hb Ha) as (e & He & Hf & Ht).
    apply rtc_once. split_and!; [by eapply list_elem_of_lookup_2..|]. eauto.
Qed.

(** X7. For a shape name other than TETRAHEDRON, CUBE and OCTAHEDRON, and n >= 1
    vertices with distinct identifiers, [buildSimplicialComplex] returns the
    complete graph: n (n - 1) / 2 edges, no faces, connected, with Betti
    numbers beta_0 = 1, beta_1 = (n - 1)(n - 2) / 2 and beta_2 = 0. *)
Theorem complete_graph_complex (shapeType : string) (vertices : list Vertex.t) :
  shapeType ∉ ["TETRAHEDRON"; "CUBE"; "OCTAHEDRON"] →
  vertices ≠ [] →
  NoDup (Vertex.id <$> vertices) →
  let n := Z.of_nat (length vertices) in
  ∃ complex,
    BettiCalculator.buildSimplicialComplex shapeType vertices = Ret complex ∧
    SimplicialComplex.vertices complex = vertices ∧
    SimplicialComplex.faces complex = [] ∧
    2 * Z.of_nat (length (SimplicialComplex.edges complex)) = n * (n - 1) ∧
    connected vertices (SimplicialComplex.edges complex) ∧
    ∃ betti,
      BettiCalculator.calculateBettiNumbers vertices (SimplicialComplex.edges complex)
      = Ret betti ∧
      beta_0 betti = 1 ∧ 2 * beta_1 betti = (n - 1) * (n - 2) ∧ beta_2 betti = 0.
Proof.
  intros Hother Hne Hids n. unfold BettiCalculator.buildSimplicialComplex.
  rewrite !decide_False by (intros ->; apply Hother; set_solver).
  unfold BettiCalculator.buildCompleteGraphEdges.
  rewrite push_edges_spec; last first.
  { apply Forall_forall. intros [a b] Hab%index_pairs_elem. simpl. lia. }
  rewrite js_bind_Ret, app_nil_l. eexists. split; [reflexivity|].
  cbn [SimplicialComplex.vertices SimplicialComplex.faces SimplicialComplex.edges].
  set (edges := edge_of vertices _ <$> _).
  assert (Hlen : 2 * Z.of_nat (length edges) = n * (n - 1)).
  { unfold edges. rewrite length_fmap, length_imap.
    pose proof (index_pairs_length (length vertices)). unfold n.
    assert (length vertices ≠ 0%nat) by (by intros ?%nil_length_inv). nia. }
  pose proof (complete_graph_connected vertices
                (λ _ '(i, j), "complete-edge-" +:+ pretty i +:+ "-" +:+ pretty j))
    as Hconn.
  fold edges in Hconn.
  split_and!; try done.
  destruct (calculateBettiNumbers_spec vertices edges Hne) as (c & -> & Hb & Hiff).
  apply (Hiff Hids) in Hconn as ->.
  eexists. split; [reflexivity|]. cbn [beta_0 beta_1 beta_2].
  split_and!; try done.
  assert (length vertices ≠ 0%nat) by (by intros ?%nil_length_inv).
  fold n. nia.
Qed.

Lemma complete_graph_complex_witness :
  ("LINE" ∉ ["TETRAHEDRON"; "CUBE"; "OCTAHEDRON"]) ∧
  four_vertices ≠ [] ∧
  NoDup (Vertex.id <$> four_vertices) ∧
  (let n := Z.of_nat (length four_vertices) in
  ∃ complex,
    BettiCalculator.buildSimplicialComplex "LINE" four_vertices = Ret complex ∧
    SimplicialComplex.vertices complex = four_vertices ∧
    SimplicialComplex.faces complex = [] ∧
    2 * Z.of_nat (length (SimplicialComplex.edges complex)) = n * (n - 1) ∧
    connected four_vertices (SimplicialComplex.edges complex) ∧
    ∃ betti,
      BettiCalculator.calculateBettiNumbers four_vertices (SimplicialComplex.edges complex)
      = Ret betti ∧
      beta_0 betti = 1 ∧ 2 * beta_1 betti = (n - 1) * (n - 2) ∧ beta_2 betti = 0).
Proof.
  split; [by_evaluation|].
  split; [intros H; vm_compute in H; discriminate H|].
  split; [by_evaluation|].
  eapply (complete_graph_complex "LINE" four_vertices);
    first [by_evaluation | intros H; vm_compute in H; discriminate H].
Defined.

(** X8. For TETRAHEDRON, CUBE and OCTAHEDRON, [buildSimplicialComplex] throws
    [<Name> requires exactly <V> vertices] unless it is given as many
    vertices as the catalog shape has; given that many, with distinct
    identifiers, the complex has as many edges as the catalog shape and its
    graph has the Betti numbers (1, E - V + 1, 0). *)
Theorem solid_complex (id : GeometricType) (shape : GeometricShape)
    (vertices : list Vertex.t) :
  id ∈ [TETRAHEDRON; CUBE; OCTAHEDRON] →
  GEOMETRIC_SHAPES !! id = Some shape →
  (Z.of_nat (length vertices) ≠ GeometricTypes.vertices shape →
   BettiCalculator.buildSimplicialComplex id vertices
   = Throw (name shape +:+ " requires exactly " +:+ pretty (GeometricTypes.vertices shape)
            +:+ " vertices")) ∧
  (Z.of_nat (length vertices) = GeometricTypes.vertices shape →
   NoDup (Vertex.id <$> vertices) →
   ∃ complex,
     BettiCalculator.buildSimplicialComplex id vertices = Ret complex ∧
     SimplicialComplex.vertices complex = vertices ∧
     Z.of_nat (length (SimplicialComplex.edges complex)) = GeometricTypes.edges shape ∧
     BettiCalculator.calculateBettiNumbers vertices (SimplicialComplex.edges complex)
     = Ret {| beta_0 := 1;
              beta_1 := GeometricTypes.edges shape - GeometricTypes.vertices shape + 1;
              beta_2 := 0 |}).
Proof.
  intros Hid Hshape.
  repeat (apply elem_of_cons in Hid as [->|Hid]); [| | |by apply elem_of_nil in Hid];
    vm_compute in Hshape; injection Hshape as <-;
    cbn [GeometricTypes.vertices GeometricTypes.edges name].
  - split.
    + intros Hlen. unfold BettiCalculator.buildSimplicialComplex.
      rewrite decide_True by done. unfold BettiCalculator.buildTetrahedronEdges.
      rewrite decide_True by lia. reflexivity.
    + intros Hlen Hids.
      destruct vertices as [|v0 [|v1 [|v2 [|v3 [|v4 rest]]]]]; simpl in Hlen; try lia.
      eexists. split; [vm_compute; reflexivity|].
      cbn [SimplicialComplex.vertices SimplicialComplex.edges].
      split; [done|]. split; [done|].
      unfold BettiCalculator.calculateBettiNumbers, BettiCalculator.calculateCycles.
      rewrite (buildAdjacencyMatrix_pairs _ _ (BettiCalculator.index_pairs 4) Hids)
        by (repeat constructor).
      vm_compute. reflexivity.
  - split.
    + intros Hlen. unfold BettiCalculator.buildSimplicialComplex.
      rewrite decide_False by done. rewrite decide_True by done.
      unfold BettiCalculator.buildCubeEdges.
      rewrite decide_True by lia. reflexivity.
    + intros Hlen Hids.
      destruct vertices as [|v0 [|v1 [|v2 [|v3 [|v4 [|v5 [|v6 [|v7 [|v8 rest]]]]]]]]];
        simpl in Hlen; try lia.
      eexists. split; [vm_compute; reflexivity|].
      cbn [SimplicialComplex.vertices SimplicialComplex.edges].
      split; [done|]. split; [done|].
      unfold BettiCalculator.calculateBettiNumbers, BettiCalculator.calculateCycles.
      rewrite (buildAdjacencyMatrix_pairs _ _ BettiCalculator.cubeConnections Hids)
        by (repeat constructor).
      vm_compute. reflexivity.
  - split.
    + intros Hlen. unfold BettiCalculator.buildSimplicialComplex.
      rewrite !decide_False by done. rewrite decide_True by done.
      unfold BettiCalculator.buildOctahedronEdges.
      rewrite decide_True by lia. reflexivity.
    + intros Hlen Hids.
      destruct vertices as [|v0 [|v1 [|v2 [|v3 [|v4 [|v5 [|v6 rest]]]]]]];
        simpl in Hlen; try lia.
      eexists. split; [vm_compute; reflexivity|].
      cbn [SimplicialComplex.vertices SimplicialComplex.edges].
      split; [done|]. split; [done|].
      unfold BettiCalculator.calculateBettiNumbers, BettiCalculator.calculateCycles.
      rewrite (buildAdjacencyMatrix_pairs _ _ BettiCalculator.octaConnections Hids)
        by (repeat constructor).
      vm_compute. reflexivity.
Qed.

Lemma solid_complex_witness :
  ∃ shape,
    CUBE ∈ [TETRAHEDRON; CUBE; OCTAHEDRON] ∧
    GEOMETRIC_SHAPES !! CUBE = Some shape ∧
    (Z.of_nat (length eight_vertices) ≠ GeometricTypes.vertices shape →
     BettiCalculator.buildSimplicialComplex CUBE eight_vertices
     = Throw (name shape +:+ " requires exactly " +:+ pretty (GeometricTypes.vertices shape)
              +:+ " vertices")) ∧
    (Z.of_nat (length eight_vertices) = GeometricTypes.vertices shape →
     NoDup (Vertex.id <$> eight_vertices) →
     ∃ complex,
       BettiCalculator.buildSimplicialComplex CUBE eight_vertices = Ret complex ∧
       SimplicialComplex.vertices complex = eight_vertices ∧
       Z.of_nat (length (SimplicialComplex.edges complex)) = GeometricTypes.edges shape ∧
       BettiCalculator.calculateBettiNumbers eight_vertices (SimplicialComplex.edges complex)
       = Ret {| beta_0 := 1;
                beta_1 := GeometricTypes.edges shape - GeometricTypes.vertices shape + 1;
                beta_2 := 0 |}).
Proof.
  eexists.
  split; [by_evaluation|].
  split; [by_evaluation|].
  eapply (solid_complex CUBE _ eight_vertices);
    first [by_evaluation | intros H; vm_compute in H; discriminate H].
Defined.

(** * Further results: the shape catalog *)

(** X9. On the catalog [getDual] is an involution: when it finds a dual for a
    shape, the dual is a catalog shape of the same dimension whose own dual
    is the shape; in dimension 3 the dual exchanges the vertex and face
    counts and keeps the edge count. *)
Theorem getDual_involution (id : GeometricType) (shape dualShape : GeometricShape) :
  GEOMETRIC_SHAPES !! id = Some shape →
  getDual shape = Ret (Some dualShape) →
  getDual dualShape = Ret (Some shape) ∧
  GEOMETRIC_SHAPES !! type dualShape = Some dualShape ∧
  dimension dualShape = dimension shape ∧
  (dimension shape = 3 →
   vertices dualShape = faces shape ∧ faces dualShape = vertices shape ∧
   edges dualShape = edges shape).
Proof.
  intros Hshape. revert dualShape. revert id shape Hshape.
  apply (catalog_ind (λ _ shape, ∀ dualShape,
    getDual shape = Ret (Some dualShape) →
    getDual dualShape = Ret (Some shape) ∧
    GEOMETRIC_SHAPES !! type dualShape = Some dualShape ∧
    dimension dualShape = dimension shape ∧
    (dimension shape = 3 →
     vertices dualShape = faces shape ∧ faces dualShape = vertices shape ∧
     edges dualShape = edges shape))).
  repeat (apply Forall_cons; split;
          [intros dualShape Hdual; vm_compute in Hdual;
           first [discriminate Hdual
                 |injection Hdual as <-;
                  split; [vm_compute; reflexivity|];
                  split; [vm_compute; reflexivity|];
                  split; [reflexivity|];
                  intros Hdim; first [discriminate Hdim|by split_and!]]|]).
  constructor.
Qed.

Lemma getDual_involution_witness :
  ∃ shape dualShape,
    GEOMETRIC_SHAPES !! CUBE = Some shape ∧
    getDual shape = Ret (Some dualShape) ∧
    getDual dualShape = Ret (Some shape) ∧
    GEOMETRIC_SHAPES !! type dualShape = Some dualShape ∧
    dimension dualShape = dimension shape ∧
    (dimension shape = 3 →
     vertices dualShape = faces shape ∧ faces dualShape = vertices shape ∧
     edges dualShape = edges shape).
Proof.
  eexists _, _.
  split; [by_evaluation|].
  split; [by_evaluation|].
  eapply (getDual_involution CUBE);
    first [by_evaluation | intros H; vm_compute in H; discriminate H].
Defined.

Lemma insert_by_vertices_perm shape sorted :
  insert_by_vertices shape sorted ≡ₚ shape :: sorted.
Proof.
  induction sorted as [|other rest IH]; [done|].
  simpl. destruct (_ <=? _); [done|]. rewrite IH. apply Permutation_swap.
Qed.

Lemma sort_by_vertices_perm shapes : sort_by_vertices shapes ≡ₚ shapes.
Proof.
  induction shapes as [|shape shapes IH]; [done|].
  unfold sort_by_vertices in *. cbn [foldr]. by rewrite insert_by_vertices_perm, IH.
Qed.

Lemma insert_by_vertices_sorted shape sorted :
  StronglySorted (λ a b, vertices a ≤ vertices b) sorted →
  StronglySorted (λ a b, vertices a ≤ vertices b) (insert_by_vertices shape sorted).
Proof.
  induction 1 as [|other rest Hsorted IH Hall].
  - repeat constructor.
  - simpl. destruct (Z.leb_spec (vertices shape) (vertices other)).
    + constructor; [by constructor|]. constructor; [done|].
      eapply Forall_impl; [done|]. intros ? ?. simpl in *. lia.
    + constructor; [done|]. rewrite insert_by_vertices_perm.
      constructor; [lia|done].
Qed.

Lemma sort_by_vertices_sorted shapes :
  StronglySorted (λ a b, vertices a ≤ vertices b) (sort_by_vertices shapes).
Proof.
  induction shapes as [|shape shapes IH]; [constructor|].
  by apply insert_by_vertices_sorted.
Qed.

Lemma insert_by_vertices_stable k shape sorted :
  StronglySorted (λ a b, vertices a ≤ vertices b) sorted →
  filter (λ s, vertices s = k) (insert_by_vertices shape sorted)
  = filter (λ s, vertices s = k) (shape :: sorted).
Proof.
  induction 1 as [|other rest Hsorted IH Hall]; [done|].
  simpl. destruct (Z.leb_spec (vertices shape) (vertices other)); [done|].
  rewrite (filter_cons _ other), IH, !(filter_cons _ shape), (filter_cons _ other).
  repeat case_decide; try done. lia.
Qed.

Lemma sort_by_vertices_stable k shapes :
  filter (λ s, vertices s = k) (sort_by_vertices shapes)
  = filter (λ s, vertices s = k) shapes.
Proof.
  induction shapes as [|shape shapes IH]; [done|].
  unfold sort_by_vertices in *. cbn [foldr].
  rewrite insert_by_vertices_stable by apply sort_by_vertices_sorted.
  by rewrite !filter_cons, IH.
Qed.

Lemma GEOMETRIC_SHAPES_values_elem shape :
  shape ∈ GEOMETRIC_SHAPES_values ↔ ∃ id, GEOMETRIC_SHAPES !! id = Some shape.
Proof.
  unfold GEOMETRIC_SHAPES_values. rewrite list_elem_of_fmap. split.
  - intros ([id s] & -> & Hin). exists id. by apply GEOMETRIC_SHAPES_lookup.
  - intros (id & Hid). exists (id, shape). split; [done|].
    by apply GEOMETRIC_SHAPES_lookup.
Qed.

Lemma catalog_vertices_bound id shape :
  GEOMETRIC_SHAPES !! id = Some shape → 1 ≤ vertices shape ≤ 120.
Proof.
  revert id shape. apply (catalog_ind (λ _ shape, 1 ≤ vertices shape ≤ 120)).
  repeat (apply Forall_cons; split; [vm_compute; split; discriminate|]). constructor.
Qed.

(** X10. [getSuitableShapes n] lists exactly the catalog shapes with at least [n]
    vertices, in ascending order of vertex count, shapes with the same count
    in the order of the catalog; it is empty exactly when n > 120. *)
Theorem getSuitableShapes_sorted (participantCount : Z) :
  let suitable := getSuitableShapes participantCount in
  StronglySorted (λ a b, vertices a ≤ vertices b) suitable ∧
  (∀ shape, shape ∈ suitable ↔
            (∃ id, GEOMETRIC_SHAPES !! id = Some shape) ∧
            participantCount ≤ vertices shape) ∧
  (∀ k, filter (λ s, vertices s = k) suitable
        = filter (λ s, vertices s = k)
            (filter (λ s, participantCount ≤ vertices s) GEOMETRIC_SHAPES_values)) ∧
  (suitable = [] ↔ 120 < participantCount).
Proof.
  intros suitable. unfold suitable, getSuitableShapes.
  assert (Hel : ∀ shape,
    shape ∈ sort_by_vertices
              (filter (λ s, participantCount ≤ vertices s) GEOMETRIC_SHAPES_values) ↔
    (∃ id, GEOMETRIC_SHAPES !! id = Some shape) ∧ participantCount ≤ vertices shape).
  { intros shape.
    rewrite sort_by_vertices_perm, list_elem_of_filter, GEOMETRIC_SHAPES_values_elem.
    tauto. }
  split_and!.
  - apply sort_by_vertices_sorted.
  - exact Hel.
  - intros k. apply sort_by_vertices_stable.
  - split.
    + intros Hnil. destruct (Z.lt_ge_cases 120 participantCount) as [|Hle]; [done|].
      exfalso.
      assert (Hcell : GEOMETRIC_SHAPES !! SIX_HUNDRED_CELL ≠ None) by by_evaluation.
      destruct (GEOMETRIC_SHAPES !! SIX_HUNDRED_CELL) as [cell|] eqn:Hlookup; [|done].
      assert (Hv : vertices cell = 120).
      { vm_compute in Hlookup. by injection Hlookup as <-. }
      assert (Hin : cell ∈ sort_by_vertices
                (filter (λ s, participantCount ≤ vertices s) GEOMETRIC_SHAPES_values)).
      { apply Hel. split; [eauto|lia]. }
      rewrite Hnil in Hin. by apply elem_of_nil in Hin.
    + intros Hgt.
      destruct (sort_by_vertices _) as [|shape rest]; [done|].
      destruct (proj1 (Hel shape) (list_elem_of_here _ _)) as [(id & Hid) Hle].
      pose proof (catalog_vertices_bound id shape Hid). lia.
Qed.

(** No shape of the catalog has more than 120 vertices. *)
Lemma catalog_vertices_le_120 :
  Forall (λ shape, vertices shape ≤ 120) GEOMETRIC_SHAPES_values.
Proof. apply (bool_decide_unpack _). vm_compute. exact I. Qed.

Lemma filter_range_unbounded minVertices maxVertices (shapes : list GeometricShape) :
  Forall (λ shape, vertices shape ≤ maxVertices) shapes →
  filter (λ shape, minVertices ≤ vertices shape ∧ vertices shape ≤ maxVertices) shapes
  = filter (λ shape, minVertices ≤ vertices shape) shapes.
Proof.
  induction 1 as [|shape shapes Hle _ IH]; [done|].
  rewrite !filter_cons, IH.
  destruct (decide (minVertices ≤ vertices shape ∧ vertices shape ≤ maxVertices)),
    (decide (minVertices ≤ vertices shape)); first [done|lia].
Qed.

(** X20. Every shape that [findShapesByVertexRange] returns for a range is among
    the shapes that [getSuitableShapes] returns for its lower bound; with an
    upper bound of at least 120, the largest vertex count of the catalog,
    the two lists hold the same shapes; and a range whose upper bound is
    below its lower bound gives no shape. *)
Theorem findShapesByVertexRange_and_getSuitableShapes (minVertices maxVertices : Z) :
  (∀ shape, shape ∈ findShapesByVertexRange minVertices maxVertices →
            shape ∈ getSuitableShapes minVertices) ∧
  (120 ≤ maxVertices →
   getSuitableShapes minVertices ≡ₚ findShapesByVertexRange minVertices maxVertices) ∧
  (maxVertices < minVertices → findShapesByVertexRange minVertices maxVertices = []).
Proof.
  unfold getSuitableShapes, findShapesByVertexRange. split_and!.
  - intros shape [[Hmin _] Hin]%list_elem_of_filter.
    rewrite sort_by_vertices_perm. by apply list_elem_of_filter.
  - intros Hmax. rewrite sort_by_vertices_perm, filter_range_unbounded; [done|].
    eapply Forall_impl; [exact catalog_vertices_le_120|]. intros shape Hle. simpl in Hle. lia.
  - intros Hlt. generalize GEOMETRIC_SHAPES_values. intros shapes.
    induction shapes as [|shape shapes IH]; [done|].
    rewrite filter_cons, IH. by destruct (decide _); [lia|].
Qed.

(** Every entry of every table names a catalog shape whose dimension does
    not exceed that of the shape of the table; from key 2 on the entry
    differs from the shape of the table. *)
Lemma decompositionMap_values id table shape key value :
  decompositionMap !! id = Some table →
  GEOMETRIC_SHAPES !! id = Some shape →
  (key, value) ∈ table →
  ∃ decomposedShape,
    GEOMETRIC_SHAPES !! value = Some decomposedShape ∧
    dimension decomposedShape ≤ dimension shape ∧
    (2 ≤ key → value ≠ id).
Proof.
  intros Hin%decompositionMap_lookup Hshape Hentry.
  assert (Hall : Forall (λ e, Forall (λ entry,
              match GEOMETRIC_SHAPES !! e.1, GEOMETRIC_SHAPES !! entry.2 with
              | Some original, Some decomposedShape =>
                  bool_decide (dimension decomposedShape ≤ dimension original)
                  && (bool_decide (entry.1 < 2) || bool_decide (entry.2 ≠ e.1))
              | _, _ => false
              end = true) e.2) decompositionMap_entries).
  { apply (bool_decide_unpack _). vm_compute. exact I. }
  rewrite Forall_forall in Hall. specialize (Hall _ Hin). cbv beta in Hall.
  rewrite Forall_forall in Hall. specialize (Hall _ Hentry). cbv beta in Hall.
  unfold GeometricType in Hall. cbn [fst snd] in Hall.
  rewrite Hshape in Hall.
  destruct (GEOMETRIC_SHAPES !! value) as [d|]; [|done].
  exists d. apply andb_prop in Hall as [Hdim%bool_decide_eq_true Hne].
  split_and!; [done|done|]. intros Hkey.
  apply orb_prop in Hne as [Hlt%bool_decide_eq_true|Hne%bool_decide_eq_true]; [lia|done].
Qed.

(** Every table but that of [POINT] has the key 2. *)
Lemma decompositionMap_key_2 id table :
  decompositionMap !! id = Some table → id ≠ POINT → ∃ value, (2, value) ∈ table.
Proof.
  intros Hin%decompositionMap_lookup Hid.
  assert (Hall : Forall (λ e, e.1 = POINT ∨ Exists (λ entry, entry.1 = 2) e.2)
                   decompositionMap_entries).
  { apply (bool_decide_unpack _). vm_compute. exact I. }
  rewrite Forall_forall in Hall. destruct (Hall _ Hin) as [?|Hex]; [done|].
  apply Exists_exists in Hex as ([key value] & Hentry & Hkey). simpl in *. subst key.
  by exists value.
Qed.

Lemma catalog_dimension_nonneg id shape :
  GEOMETRIC_SHAPES !! id = Some shape → 0 ≤ dimension shape.
Proof.
  revert id shape. apply (catalog_ind (λ _ shape, 0 ≤ dimension shape)).
  repeat (apply Forall_cons; split; [vm_compute; congruence|]). constructor.
Qed.

(** X19. For a catalog shape and every piece count, [decomposeGeometricType]
    returns a catalog identifier, so that [getGeometricShape] finds the
    decomposed shape; its dimension does not exceed that of the original
    shape, and from two pieces on it differs from the original shape, except
    for [POINT], which decomposes into itself. *)
Theorem decomposeGeometricType_within_catalog (id : GeometricType)
    (shape : GeometricShape) (partitionCount : Z) :
  GEOMETRIC_SHAPES !! id = Some shape →
  ∃ decomposed decomposedShape,
    PartitionDetector.decomposeGeometricType id partitionCount = Ret decomposed ∧
    getGeometricShape decomposed = Ret decomposedShape ∧
    dimension decomposedShape ≤ dimension shape ∧
    (2 ≤ partitionCount → id ≠ POINT → decomposed ≠ id).
Proof.
  intros Hshape.
  destruct (catalog_has_table id shape Hshape) as [table Htable].
  destruct (decompositionMap_tables id table Htable) as [Hpos _].
  rewrite (decomposeGeometricType_table id table partitionCount Htable).
  pose proof (best_match_spec partitionCount table POINT 0) as Hspec.
  cbv zeta in Hspec.
  destruct Hspec as [[-> Hnone]|[_ (Hin & Hle & Hmax)]].
  - exists POINT. eexists. split; [done|]. split; [by_evaluation|]. split.
    + change (0 ≤ dimension shape). by eapply catalog_dimension_nonneg.
    + intros Hpc Hid.
      destruct (decompositionMap_key_2 id table Htable Hid) as [value Hin].
      specialize (Hnone 2 value Hin Hpc). lia.
  - set (best := foldl (best_step partitionCount) (POINT, 0) table) in *.
    destruct (decompositionMap_values id table shape best.2 best.1 Htable Hshape Hin)
      as (d & Hd & Hdim & Hne).
    exists best.1, d. split; [done|].
    split; [by apply getGeometricShape_known|]. split; [done|].
    intros Hpc Hid. apply Hne.
    destruct (decompositionMap_key_2 id table Htable Hid) as [value Hin'].
    apply (Hmax 2 value Hin' Hpc).
Qed.

Lemma decomposeGeometricType_within_catalog_witness :
  ∃ shape,
    GEOMETRIC_SHAPES !! ICOSAHEDRON = Some shape ∧
    ∃ decomposed decomposedShape,
      PartitionDetector.decomposeGeometricType ICOSAHEDRON 2 = Ret decomposed ∧
      getGeometricShape decomposed = Ret decomposedShape ∧
      dimension decomposedShape ≤ dimension shape ∧
      (2 ≤ 2 → ICOSAHEDRON ≠ POINT → decomposed ≠ ICOSAHEDRON).
Proof.
  eexists.
  split; [by_evaluation|].
  eapply (decomposeGeometricType_within_catalog ICOSAHEDRON _ 2);
    first [by_evaluation | intros H; vm_compute in H; discriminate H].
Defined.

(** * Further results: dual recovery *)

Lemma catalog_getDual_returns id shape :
  GEOMETRIC_SHAPES !! id = Some shape → ∃ dualShape, getDual shape = Ret dualShape.
Proof.
  revert id shape.
  apply (catalog_ind (λ _ shape, ∃ dualShape, getDual shape = Ret dualShape)).
  repeat (apply Forall_cons; split; [eexists; vm_compute; reflexivity|]). constructor.
Qed.

Lemma catalog_thresholdMapping id shape dualShape :
  GEOMETRIC_SHAPES !! id = Some shape →
  getDual shape = Ret (Some dualShape) →
  number_lt (calculateThresholdMapping shape dualShape) 0
  || number_gt (calculateThresholdMapping shape dualShape) 10 = false.
Proof.
  intros Hshape. revert dualShape. revert id shape Hshape.
  apply (catalog_ind (λ _ shape, ∀ dualShape,
    getDual shape = Ret (Some dualShape) →
    number_lt (calculateThresholdMapping shape dualShape) 0
    || number_gt (calculateThresholdMapping shape dualShape) 10 = false)).
  repeat (apply Forall_cons; split;
          [intros dualShape Hdual; vm_compute in Hdual;
           first [discriminate Hdual
                 |injection Hdual as <-; vm_compute; reflexivity]|]).
  constructor.
Qed.

Lemma catalog_unified_le id shape dualShape unified :
  GEOMETRIC_SHAPES !! id = Some shape →
  getDual shape = Ret (Some dualShape) →
  mapThresholdViaDual (threshold shape) id (type dualShape) = Ret (Finite unified) →
  (0 <= unified)%Q ∧ (unified <= threshold shape)%Q ∧ (threshold shape <= 1)%Q.
Proof.
  intros Hshape. revert dualShape unified. revert id shape Hshape.
  apply (catalog_ind (λ id shape, ∀ dualShape unified,
    getDual shape = Ret (Some dualShape) →
    mapThresholdViaDual (threshold shape) id (type dualShape) = Ret (Finite unified) →
    (0 <= unified)%Q ∧ (unified <= threshold shape)%Q ∧ (threshold shape <= 1)%Q)).
  repeat (apply Forall_cons; split;
          [intros dualShape unified Hdual; vm_compute in Hdual;
           first [discriminate Hdual
                 |injection Hdual as <-; intros Hmap; vm_compute in Hmap;
                  injection Hmap as <-; vm_compute; split_and!; discriminate]|]).
  constructor.
Qed.

(** The outcomes of a recovery against a catalog shape. *)
Lemma recoverFromPartition_cases h certificates id shape :
  GEOMETRIC_SHAPES !! id = Some shape →
  ∃ result,
    recoverFromPartition h certificates id = Ret result ∧
    ((∃ message,
        DualRecoveryResult.success result = false ∧
        createErrorCertificate h id message
          = Ret (DualRecoveryResult.recoveredCertificate result) ∧
        DualRecoveryResult.recoveryProof result = "Recovery failed: " +:+ message ∧
        DualRecoveryResult.dualMapping result
          = {| DualMapping.original := id; DualMapping.dual := id;
               DualMapping.thresholdMapping := Finite 0 |} ∧
        (validatePartitionCertificates certificates = Throw message ∨
         (validatePartitionCertificates certificates = Ret () ∧
          getDual shape = Ret None ∧
          message = "No dual available for geometric type: " +:+ id))) ∨
     (∃ dualShape unified,
        DualRecoveryResult.success result = true ∧
        validatePartitionCertificates certificates = Ret () ∧
        getDual shape = Ret (Some dualShape) ∧
        applyDualMapping certificates shape dualShape = Ret unified ∧
        createRecoveredCertificate h unified id certificates
          = Ret (DualRecoveryResult.recoveredCertificate result) ∧
        DualRecoveryResult.dualMapping result
          = {| DualMapping.original := id; DualMapping.dual := type dualShape;
               DualMapping.thresholdMapping :=
                 calculateThresholdMapping shape dualShape |})).
Proof.
  intros Hshape. unfold recoverFromPartition.
  set (handler := λ error_message : string, _).
  assert (Hhandler : ∀ message, ∃ result,
    handler message = Ret result ∧
    DualRecoveryResult.success result = false ∧
    createErrorCertificate h id message
      = Ret (DualRecoveryResult.recoveredCertificate result) ∧
    DualRecoveryResult.recoveryProof result = "Recovery failed: " +:+ message ∧
    DualRecoveryResult.dualMapping result
      = {| DualMapping.original := id; DualMapping.dual := id;
           DualMapping.thresholdMapping := Finite 0 |}).
  { intros message. unfold handler.
    destruct (recover_handler h id shape message Hshape) as (certificate & -> & _).
    js_simpl. eexists. split; [reflexivity|]. split_and!; reflexivity. }
  destruct (validatePartitionCertificates_outcome certificates) as [Hvalid|[m Hvalid]];
    rewrite Hvalid.
  2:{ js_simpl. destruct (Hhandler m) as (result & -> & ? & ? & ? & ?).
      exists result. split; [done|]. left. exists m. split_and!; auto. }
  js_simpl. rewrite (getGeometricShape_known _ _ Hshape). js_simpl.
  destruct (catalog_getDual_returns id shape Hshape) as [[dualShape|] Hdual];
    rewrite Hdual; js_simpl.
  - destruct (applyDualMapping_returns certificates id shape dualShape Hshape Hdual)
      as (unified & Happly & _).
    rewrite Happly. js_simpl. unfold createRecoveredCertificate.
    rewrite (getGeometricShape_known _ _ Hshape). js_simpl.
    eexists. split; [reflexivity|]. right. exists dualShape, unified.
    split_and!; first [reflexivity|assumption].
  - destruct (Hhandler ("No dual available for geometric type: " +:+ id))
      as (result & -> & ? & ? & ? & ?).
    exists result. split; [done|]. left. eexists. split_and!; eauto.
Qed.

Lemma createErrorCertificate_fields h id shape message certificate :
  GEOMETRIC_SHAPES !! id = Some shape →
  createErrorCertificate h id message = Ret certificate →
  ConsensusCertificate.geometricType certificate = id ∧
  ConsensusCertificate.shape certificate = shape ∧
  ConsensusCertificate.vertices certificate = [] ∧
  ConsensusCertificate.agreesCount certificate = 0 ∧
  ConsensusCertificate.requiredCount certificate = 0 ∧
  ConsensusCertificate.valid certificate = false.
Proof.
  intros Hshape. unfold createErrorCertificate.
  rewrite (getGeometricShape_known _ _ Hshape). js_simpl. intros [= <-].
  split_and!; reflexivity.
Qed.

Lemma createRecoveredCertificate_fields h unified id shape certificates certificate :
  GEOMETRIC_SHAPES !! id = Some shape →
  createRecoveredCertificate h unified id certificates = Ret certificate →
  ConsensusCertificate.geometricType certificate = id ∧
  ConsensusCertificate.shape certificate = shape ∧
  ConsensusCertificate.vertices certificate
    = concat (ConsensusCertificate.vertices <$> certificates) ∧
  ConsensusCertificate.agreesCount certificate = totalAgrees unified ∧
  ConsensusCertificate.requiredCount certificate
    = Math_ceil (inject_Z (totalVertices unified) * unifiedThreshold unified) ∧
  ConsensusCertificate.thresholdPercentage certificate = unifiedThreshold unified ∧
  ConsensusCertificate.valid certificate = unified_valid unified.
Proof.
  intros Hshape. unfold createRecoveredCertificate.
  rewrite (getGeometricShape_known _ _ Hshape). js_simpl. intros [= <-].
  split_and!; try reflexivity. apply bind_vertices_concat.
Qed.

Lemma foldl_sum_lengths certificates :
  foldl (λ sum cert, sum + Z.of_nat (length (ConsensusCertificate.vertices cert))) 0
    certificates
  = Z.of_nat (length (concat (ConsensusCertificate.vertices <$> certificates))).
Proof.
  assert (Hgen : ∀ base,
    foldl (λ sum cert, sum + Z.of_nat (length (ConsensusCertificate.vertices cert))) base
      certificates
    = base + Z.of_nat (length (concat (ConsensusCertificate.vertices <$> certificates)))).
  { induction certificates as [|c rest IH]; intros base.
    - simpl. lia.
    - rewrite fmap_cons. cbn [concat foldl]. rewrite IH, length_app. lia. }
  by rewrite Hgen.
Qed.

Lemma applyDualMapping_fields certificates id shape dualShape unified :
  GEOMETRIC_SHAPES !! id = Some shape →
  applyDualMapping certificates shape dualShape = Ret unified →
  mapThresholdViaDual (threshold shape) id (type dualShape)
    = Ret (Finite (unifiedThreshold unified)) ∧
  totalAgrees unified = sum_agreesCount certificates ∧
  totalVertices unified
    = Z.of_nat (length (concat (ConsensusCertificate.vertices <$> certificates))) ∧
  unified_valid unified
    = (totalAgrees unified
       >=? Math_ceil (inject_Z (totalVertices unified) * unifiedThreshold unified)).
Proof.
  intros Hshape. unfold applyDualMapping. rewrite (catalog_type id shape Hshape).
  destruct (mapThresholdViaDual _ _ _) as [[u| | |]| | | |]; js_simpl; try done.
  intros [= <-]. cbn [unifiedThreshold totalAgrees totalVertices unified_valid].
  split_and!; try reflexivity.
  - apply foldl_sum_agreesCount.
  - apply foldl_sum_lengths.
Qed.

Lemma Math_ceil_le_count n u :
  0 ≤ n → (u <= 1)%Q → Math_ceil (inject_Z n * u) ≤ n.
Proof.
  intros Hn Hu. unfold Math_ceil.
  rewrite <- (Qceiling_Z n) at 2. apply Qceiling_resp_le.
  rewrite Qmult_comm. rewrite <- (Qmult_1_l (inject_Z n)) at 2.
  apply Qmult_le_compat_r; [done|]. rewrite <- (Zle_Qle 0). done.
Qed.

(** X13. For a catalog identifier, [validateRecoveryResult] accepts whatever
    [recoverFromPartition] returns, failed recoveries included: it does not
    look at the success flag. *)
Theorem validateRecoveryResult_accepts_every_result (h : Host)
    (certificates : list ConsensusCertificate.t) (id : GeometricType)
    (shape : GeometricShape) :
  GEOMETRIC_SHAPES !! id = Some shape →
  ∃ result,
    recoverFromPartition h certificates id = Ret result ∧
    validateRecoveryResult result = Ret true.
Proof.
  intros Hshape.
  destruct (recoverFromPartition_cases h certificates id shape Hshape)
    as (result & Hrun & Hcases).
  exists result. split; [done|]. unfold validateRecoveryResult.
  destruct Hcases as [(message & _ & Hcert & _ & Hmap & _)
                     |(dualShape & unified & _ & _ & Hdual & _ & Hcert & Hmap)];
    rewrite Hmap; cbn [DualMapping.original DualMapping.thresholdMapping];
    rewrite (getGeometricShape_known _ _ Hshape); js_simpl;
    rewrite (catalog_type id shape Hshape).
  - destruct (createErrorCertificate_fields _ _ _ _ _ Hshape Hcert) as (-> & _).
    rewrite decide_False by auto. reflexivity.
  - destruct (createRecoveredCertificate_fields _ _ _ _ _ _ Hshape Hcert) as (-> & _).
    rewrite decide_False by auto.
    by rewrite (catalog_thresholdMapping id shape dualShape Hshape Hdual).
Qed.

Lemma validateRecoveryResult_accepts_every_result_witness :
  ∃ shape,
    GEOMETRIC_SHAPES !! CUBE = Some shape ∧
    ∃ result,
      recoverFromPartition sample_host tetrahedron_pieces CUBE = Ret result ∧
      validateRecoveryResult result = Ret true.
Proof.
  eexists.
  split; [by_evaluation|].
  eapply (validateRecoveryResult_accepts_every_result sample_host tetrahedron_pieces CUBE);
    first [by_evaluation | intros H; vm_compute in H; discriminate H].
Defined.

(** X14. The certificate of a failed recovery against a catalog shape never
    passes [validateCertificate]: it records the required count 0, and the
    required count of every catalog shape is positive. *)
Theorem failed_recovery_certificate_is_rejected (h : Host)
    (certificates : list ConsensusCertificate.t) (id : GeometricType)
    (shape : GeometricShape) (result : DualRecoveryResult.t) :
  GEOMETRIC_SHAPES !! id = Some shape →
  recoverFromPartition h certificates id = Ret result →
  DualRecoveryResult.success result = false →
  validateCertificate (DualRecoveryResult.recoveredCertificate result) = false.
Proof.
  intros Hshape Hrun Hfail.
  destruct (recoverFromPartition_cases h certificates id shape Hshape)
    as (result' & Hrun' & Hcases).
  rewrite Hrun in Hrun'. injection Hrun' as <-.
  destruct Hcases as [(message & _ & Hcert & _)|(? & ? & Hsuccess & _)];
    [|congruence].
  destruct (createErrorCertificate_fields _ _ _ _ _ Hshape Hcert)
    as (_ & Hs & _ & _ & Hreq & _).
  unfold validateCertificate. rewrite Hs, Hreq.
  pose proof (catalog_required_positive id shape Hshape) as Hpos.
  destruct (calculateRequiredAgreement shape =? 0) eqn:Hzero; [lia|].
  repeat (match goal with |- (if ?c then _ else _) = _ => destruct c end;
          try reflexivity).
Qed.

Lemma failed_recovery_certificate_is_rejected_witness :
  ∃ shape result,
    GEOMETRIC_SHAPES !! CUBE = Some shape ∧
    recoverFromPartition sample_host tetrahedron_pieces CUBE = Ret result ∧
    DualRecoveryResult.success result = false ∧
    validateCertificate (DualRecoveryResult.recoveredCertificate result) = false.
Proof.
  eexists _, _.
  split; [by_evaluation|].
  split; [by_evaluation|].
  split; [by_evaluation|].
  eapply (failed_recovery_certificate_is_rejected sample_host tetrahedron_pieces CUBE);
    first [by_evaluation | intros H; vm_compute in H; discriminate H].
Defined.

(** X12. The verdict of a successful recovery: the threshold of the recovered
    certificate lies between 0 and the threshold of the original shape, its
    required count is the ceiling of (number of votes x that threshold) and
    does not exceed the number of votes, and the certificate is valid
    exactly when the agreement count reaches the required count. *)
Theorem recovered_certificate_verdict (h : Host)
    (certificates : list ConsensusCertificate.t) (id : GeometricType)
    (shape : GeometricShape) (result : DualRecoveryResult.t) :
  GEOMETRIC_SHAPES !! id = Some shape →
  recoverFromPartition h certificates id = Ret result →
  DualRecoveryResult.success result = true →
  let recovered := DualRecoveryResult.recoveredCertificate result in
  let votes := Z.of_nat (length (ConsensusCertificate.vertices recovered)) in
  (0 <= ConsensusCertificate.thresholdPercentage recovered)%Q ∧
  (ConsensusCertificate.thresholdPercentage recovered <= threshold shape)%Q ∧
  is_ceiling (ConsensusCertificate.requiredCount recovered)
    (inject_Z votes * ConsensusCertificate.thresholdPercentage recovered) ∧
  ConsensusCertificate.requiredCount recovered ≤ votes ∧
  (ConsensusCertificate.valid recovered = true ↔
   ConsensusCertificate.requiredCount recovered
     ≤ ConsensusCertificate.agreesCount recovered).
Proof.
  intros Hshape Hrun Hsuccess.
  destruct (recoverFromPartition_cases h certificates id shape Hshape)
    as (result' & Hrun' & Hcases).
  rewrite Hrun in Hrun'. injection Hrun' as <-.
  destruct Hcases as [(? & Hfail & _)
                     |(dualShape & unified & _ & _ & Hdual & Happly & Hcert & _)];
    [congruence|].
  destruct (createRecoveredCertificate_fields _ _ _ _ _ _ Hshape Hcert)
    as (_ & _ & Hv & Hagrees & Hreq & Hth & Hvalid).
  destruct (applyDualMapping_fields _ _ _ _ _ Hshape Happly)
    as (Hmap & _ & Htotal & Huv).
  destruct (catalog_unified_le _ _ _ _ Hshape Hdual Hmap) as (H0 & Hle & H1).
  cbv zeta. rewrite Hv, Hagrees, Hreq, Hth, Hvalid, Huv, <- Htotal.
  pose proof (Math_ceil_is_ceiling
                (inject_Z (totalVertices unified) * unifiedThreshold unified)) as Hceil.
  split_and!; try done.
  - apply Math_ceil_le_count; [lia|]. by eapply Qle_trans.
  - rewrite Z.geb_leb. apply Z.leb_le.
Qed.

Lemma recovered_certificate_verdict_witness :
  ∃ shape result,
    GEOMETRIC_SHAPES !! CUBE = Some shape ∧
    recoverFromPartition sample_host line_pieces CUBE = Ret result ∧
    DualRecoveryResult.success result = true ∧
    (let recovered := DualRecoveryResult.recoveredCertificate result in
    let votes := Z.of_nat (length (ConsensusCertificate.vertices recovered)) in
    (0 <= ConsensusCertificate.thresholdPercentage recovered)%Q ∧
    (ConsensusCertificate.thresholdPercentage recovered <= threshold shape)%Q ∧
    is_ceiling (ConsensusCertificate.requiredCount recovered)
      (inject_Z votes * ConsensusCertificate.thresholdPercentage recovered) ∧
    ConsensusCertificate.requiredCount recovered ≤ votes ∧
    (ConsensusCertificate.valid recovered = true ↔
     ConsensusCertificate.requiredCount recovered
       ≤ ConsensusCertificate.agreesCount recovered)).
Proof.
  eexists _, _.
  split; [by_evaluation|].
  split; [by_evaluation|].
  split; [by_evaluation|].
  eapply (recovered_certificate_verdict sample_host line_pieces CUBE);
    first [by_evaluation | intros H; vm_compute in H; discriminate H].
Defined.

Lemma validatePartitionCertificates_Ret certificates :
  validatePartitionCertificates certificates = Ret () →
  certificates ≠ [] ∧
  Forall (λ c, ConsensusCertificate.valid c = true) certificates ∧
  (∀ c1 c2, c1 ∈ certificates → c2 ∈ certificates →
     ConsensusCertificate.geometricType c1 = ConsensusCertificate.geometricType c2).
Proof.
  unfold validatePartitionCertificates.
  case_decide as Hlen; [done|]. case_decide as Hinvalid; [done|].
  destruct (certificates !! 0%nat) as [first|] eqn:Hfirst; [|done].
  case_decide as Htypes; [done|]. intros _.
  rewrite filter_length_pos in Hinvalid. rewrite filter_length_pos in Htypes.
  split_and!.
  - by intros ->.
  - apply Forall_forall. intros c Hc.
    destruct (ConsensusCertificate.valid c) eqn:Hv; [done|].
    destruct Hinvalid. eauto.
  - assert (∀ c, c ∈ certificates →
              ConsensusCertificate.geometricType c
              = ConsensusCertificate.geometricType first) as Hsame.
    { intros c Hc.
      destruct (decide (ConsensusCertificate.geometricType c
                        = ConsensusCertificate.geometricType first)); [done|].
      destruct Htypes. eauto. }
    intros c1 c2 H1 H2. by rewrite (Hsame c1 H1), (Hsame c2 H2).
Qed.

Lemma validatePartitionCertificates_empty :
  validatePartitionCertificates [] = Throw "No partition certificates provided".
Proof. reflexivity. Qed.

Lemma validatePartitionCertificates_invalid certificates k :
  length (filter (λ cert, ConsensusCertificate.valid cert = false) certificates) = S k →
  validatePartitionCertificates certificates
  = Throw ("Invalid certificates found: " +:+ pretty (S k)).
Proof.
  intros Hk. unfold validatePartitionCertificates.
  case_decide as Hlen.
  { apply nil_length_inv in Hlen. subst. done. }
  rewrite Hk. rewrite decide_True by lia. reflexivity.
Qed.

Lemma validatePartitionCertificates_inconsistent certificates :
  Forall (λ c, ConsensusCertificate.valid c = true) certificates →
  (∃ c1 c2, c1 ∈ certificates ∧ c2 ∈ certificates ∧
     ConsensusCertificate.geometricType c1 ≠ ConsensusCertificate.geometricType c2) →
  validatePartitionCertificates certificates
  = Throw "Inconsistent geometric types in partition certificates".
Proof.
  intros Hvalid (c1 & c2 & H1 & H2 & Hne). unfold validatePartitionCertificates.
  case_decide as Hlen.
  { apply nil_length_inv in Hlen. subst. by apply elem_of_nil in H1. }
  case_decide as Hinvalid.
  { apply filter_length_pos in Hinvalid as (c & Hc & Hv).
    rewrite Forall_forall in Hvalid. rewrite (Hvalid c Hc) in Hv. done. }
  destruct certificates as [|first rest]; [done|].
  change ((first :: rest) !! 0%nat) with (Some first). cbv beta iota.
  case_decide as Htypes; [done|]. exfalso. apply Htypes.
  apply filter_length_pos.
  destruct (decide (ConsensusCertificate.geometricType c1
                    = ConsensusCertificate.geometricType first)) as [He|]; [|eauto].
  exists c2. split; [done|]. congruence.
Qed.

(** X11. For a catalog identifier, [recoverFromPartition] always returns a result.
    It succeeds exactly when the piece list is not empty, every piece is
    valid, all pieces carry one identifier and the shape has a dual.
    Otherwise [recoveryProof] names the first precondition that failed, in
    this order: no pieces, the number of invalid pieces, inconsistent
    identifiers, no dual for the shape. *)
Theorem recoverFromPartition_outcome (h : Host)
    (certificates : list ConsensusCertificate.t) (id : GeometricType)
    (shape : GeometricShape) :
  GEOMETRIC_SHAPES !! id = Some shape →
  ∃ result,
    recoverFromPartition h certificates id = Ret result ∧
    (DualRecoveryResult.success result = true ↔
     certificates ≠ [] ∧
     Forall (λ c, ConsensusCertificate.valid c = true) certificates ∧
     (∀ c1 c2, c1 ∈ certificates → c2 ∈ certificates →
        ConsensusCertificate.geometricType c1 = ConsensusCertificate.geometricType c2) ∧
     ∃ dualShape, getDual shape = Ret (Some dualShape)) ∧
    (certificates = [] →
     DualRecoveryResult.recoveryProof result
     = "Recovery failed: No partition certificates provided") ∧
    (∀ k, length (filter (λ c, ConsensusCertificate.valid c = false) certificates) = S k →
     DualRecoveryResult.recoveryProof result
     = "Recovery failed: Invalid certificates found: " +:+ pretty (S k)) ∧
    (Forall (λ c, ConsensusCertificate.valid c = true) certificates →
     (∃ c1 c2, c1 ∈ certificates ∧ c2 ∈ certificates ∧
        ConsensusCertificate.geometricType c1 ≠ ConsensusCertificate.geometricType c2) →
     DualRecoveryResult.recoveryProof result
     = "Recovery failed: Inconsistent geometric types in partition certificates") ∧
    (validatePartitionCertificates certificates = Ret () → getDual shape = Ret None →
     DualRecoveryResult.recoveryProof result
     = "Recovery failed: No dual available for geometric type: " +:+ id).
Proof.
  intros Hshape.
  destruct (recoverFromPartition_cases h certificates id shape Hshape)
    as (result & Hrun & Hcases).
  exists result. split; [done|].
  destruct Hcases as [(message & Hfail & _ & Hproof & _ & Hwhy)
                     |(dualShape & unified & Hsuccess & Hvalid & Hdual & _)].
  - rewrite Hfail, Hproof. split_and!.
    + split; [done|]. intros (Hne & Hvalid & Hsame & d & Hdual).
      pose proof (validatePartitionCertificates_accepts certificates Hne
                    ltac:(by apply Forall_forall) Hsame) as Hok.
      destruct Hwhy as [Hthrow|(_ & Hnone & _)]; congruence.
    + intros ->. rewrite validatePartitionCertificates_empty in Hwhy.
      destruct Hwhy as [[= <-]|(Hok & _)]; [reflexivity|done].
    + intros k Hk. rewrite (validatePartitionCertificates_invalid _ _ Hk) in Hwhy.
      destruct Hwhy as [[= <-]|(Hok & _)]; [reflexivity|done].
    + intros Hvalid Hdiff.
      rewrite (validatePartitionCertificates_inconsistent _ Hvalid Hdiff) in Hwhy.
      destruct Hwhy as [[= <-]|(Hok & _)]; [reflexivity|done].
    + intros Hok Hnone. destruct Hwhy as [Hthrow|(_ & _ & ->)]; [congruence|].
      reflexivity.
  - rewrite Hsuccess.
    destruct (validatePartitionCertificates_Ret _ Hvalid) as (Hne & Hall & Hsame).
    split_and!.
    + split; [|done]. intros _. split_and!; eauto.
    + intros ->. done.
    + intros k Hk. rewrite (validatePartitionCertificates_invalid _ _ Hk) in Hvalid.
      done.
    + intros _ Hdiff.
      rewrite (validatePartitionCertificates_inconsistent _ Hall Hdiff) in Hvalid. done.
    + intros _ Hnone. congruence.
Qed.

Lemma recoverFromPartition_outcome_witness :
  ∃ shape,
    GEOMETRIC_SHAPES !! CUBE = Some shape ∧
    ∃ result,
      recoverFromPartition sample_host tetrahedron_pieces CUBE = Ret result ∧
      (DualRecoveryResult.success result = true ↔
       tetrahedron_pieces ≠ [] ∧
       Forall (λ c, ConsensusCertificate.valid c = true) tetrahedron_pieces ∧
       (∀ c1 c2, c1 ∈ tetrahedron_pieces → c2 ∈ tetrahedron_pieces →
          ConsensusCertificate.geometricType c1 = ConsensusCertificate.geometricType c2) ∧
       ∃ dualShape, getDual shape = Ret (Some dualShape)) ∧
      (tetrahedron_pieces = [] →
       DualRecoveryResult.recoveryProof result
       = "Recovery failed: No partition certificates provided") ∧
      (∀ k, length (filter (λ c, ConsensusCertificate.valid c = false) tetrahedron_pieces)
            = S k →
       DualRecoveryResult.recoveryProof result
       = "Recovery failed: Invalid certificates found: " +:+ pretty (S k)) ∧
      (Forall (λ c, ConsensusCertificate.valid c = true) tetrahedron_pieces →
       (∃ c1 c2, c1 ∈ tetrahedron_pieces ∧ c2 ∈ tetrahedron_pieces ∧
          ConsensusCertificate.geometricType c1 ≠ ConsensusCertificate.geometricType c2) →
       DualRecoveryResult.recoveryProof result
       = "Recovery failed: Inconsistent geometric types in partition certificates") ∧
      (validatePartitionCertificates tetrahedron_pieces = Ret () → getDual shape = Ret None →
       DualRecoveryResult.recoveryProof result
       = "Recovery failed: No dual available for geometric type: " +:+ CUBE).
Proof.
  eexists.
  split; [by_evaluation|].
  eapply (recoverFromPartition_outcome sample_host tetrahedron_pieces CUBE);
    first [by_evaluation | intros H; vm_compute in H; discriminate H].
Defined.

Lemma step_complexity_cases step :
  step_complexity step = 1%Q ∨ step_complexity step = 1.5%Q ∨ step_complexity step = 2%Q.
Proof. unfold step_complexity. repeat case_decide; auto. Qed.

Lemma estimateRecoveryTime_three step1 step2 step3 :
  9000 ≤ estimateRecoveryTime [step1; step2; step3] ≤ 18000.
Proof.
  unfold estimateRecoveryTime. cbn [foldl length].
  destruct (step_complexity_cases step1) as [-> | [-> | ->]],
           (step_complexity_cases step2) as [-> | [-> | ->]],
           (step_complexity_cases step3) as [-> | [-> | ->]];
    vm_compute; split; discriminate.
Qed.

Lemma dual_type_or_catalog id shape dualShape :
  GEOMETRIC_SHAPES !! id = Some shape →
  getDual shape = Ret dualShape →
  is_Some (GEOMETRIC_SHAPES !! dual_type_or dualShape shape).
Proof.
  intros Hshape Hdual. unfold dual_type_or.
  destruct dualShape as [d|]; simpl.
  - destruct (catalog_dual id shape Hshape d Hdual) as (Hd & _).
    destruct (type d) eqn:Htype; [|by eexists].
    rewrite (catalog_type id shape Hshape). by eexists.
  - rewrite (catalog_type id shape Hshape).
    destruct id; by eexists.
Qed.

Lemma generateRecoverySteps_dependencies certificates shape dualShape strategy :
  let steps := generateRecoverySteps certificates shape dualShape strategy in
  length steps = 3%nat ∧
  ∀ i step dep,
    steps !! i = Some step → dep ∈ RecoveryStep.dependencies step →
    ∃ j earlier, (j < i)%nat ∧ steps !! j = Some earlier ∧
                 RecoveryStep.stepId earlier = dep.
Proof.
  destruct strategy; (split; [reflexivity|]);
    intros [|[|[|i]]] step dep Hstep Hdep; simplify_eq/=;
    repeat match goal with
           | H : _ ∈ [] |- _ => by apply elem_of_nil in H
           | H : _ ∈ _ :: _ |- _ => apply elem_of_cons in H as [->|H]
           end; earlier_step.
Qed.

(** X15. For a catalog identifier, with or without a dual, [createRecoveryPlan]
    returns a plan of three steps; every dependency of a step is the
    identifier of an earlier step; every step names a catalog shape and the
    last one the original shape; the estimated time lies between 9000 and
    18000 ms; the strategy is [dual] up to 4 pieces and [federated] above
    8. *)
Theorem createRecoveryPlan_well_formed (h : Host)
    (certificates : list ConsensusCertificate.t) (id : GeometricType)
    (shape : GeometricShape) :
  GEOMETRIC_SHAPES !! id = Some shape →
  ∃ plan,
    createRecoveryPlan h certificates id = Ret plan ∧
    let steps := PartitionRecoveryPlan.recoverySteps plan in
    length steps = 3%nat ∧
    (∀ i step dep,
       steps !! i = Some step → dep ∈ RecoveryStep.dependencies step →
       ∃ j earlier, (j < i)%nat ∧ steps !! j = Some earlier ∧
                    RecoveryStep.stepId earlier = dep) ∧
    (∀ step, step ∈ steps → is_Some (GEOMETRIC_SHAPES !! RecoveryStep.geometricType step)) ∧
    (∃ last, steps !! 2%nat = Some last ∧ RecoveryStep.geometricType last = id) ∧
    9000 ≤ PartitionRecoveryPlan.estimatedRecoveryTime plan ≤ 18000 ∧
    (PartitionRecoveryPlan.recoveryStrategy plan = RecoveryStrategy.dual
       ↔ (length certificates ≤ 4)%nat) ∧
    (PartitionRecoveryPlan.recoveryStrategy plan = RecoveryStrategy.federated
       ↔ (8 < length certificates)%nat).
Proof.
  intros Hshape. unfold createRecoveryPlan.
  rewrite (getGeometricShape_known _ _ Hshape). js_simpl.
  destruct (catalog_getDual_returns id shape Hshape) as [dualShape Hdual].
  rewrite Hdual. js_simpl. eexists. split; [reflexivity|].
  cbn [PartitionRecoveryPlan.recoverySteps PartitionRecoveryPlan.estimatedRecoveryTime
       PartitionRecoveryPlan.recoveryStrategy]. cbv zeta.
  pose proof (generateRecoverySteps_dependencies certificates shape dualShape
                (determineRecoveryStrategy certificates shape)) as [Hlen Hdeps].
  pose proof (dual_type_or_catalog id shape dualShape Hshape Hdual) as Hdualtype.
  pose proof (catalog_type id shape Hshape) as Htype.
  assert (Hid : is_Some (GEOMETRIC_SHAPES !! type shape)) by (rewrite Htype; eauto).
  split; [done|]. split; [done|]. split; [|split; [|split; [|split]]].
  - intros step.
    destruct (determineRecoveryStrategy certificates shape);
      cbn [generateRecoverySteps]; intros Hstep;
      repeat match goal with
             | H : _ ∈ [] |- _ => by apply elem_of_nil in H
             | H : _ ∈ _ :: _ |- _ => apply elem_of_cons in H as [->|H]
             end; cbn [RecoveryStep.geometricType];
      first [exact Hdualtype | exact Hid | by_evaluation].
  - destruct (determineRecoveryStrategy certificates shape);
      (eexists; split; [reflexivity|exact Htype]).
  - destruct (determineRecoveryStrategy certificates shape);
      apply estimateRecoveryTime_three.
  - unfold determineRecoveryStrategy. repeat case_decide; split; try done; lia.
  - unfold determineRecoveryStrategy. repeat case_decide; split; try done; lia.
Qed.

Lemma createRecoveryPlan_well_formed_witness :
  ∃ shape,
    GEOMETRIC_SHAPES !! TRUNCATED_CUBE = Some shape ∧
    ∃ plan,
      createRecoveryPlan sample_host line_pieces TRUNCATED_CUBE = Ret plan ∧
      let steps := PartitionRecoveryPlan.recoverySteps plan in
      length steps = 3%nat ∧
      (∀ i step dep,
         steps !! i = Some step → dep ∈ RecoveryStep.dependencies step →
         ∃ j earlier, (j < i)%nat ∧ steps !! j = Some earlier ∧
                      RecoveryStep.stepId earlier = dep) ∧
      (∀ step, step ∈ steps →
               is_Some (GEOMETRIC_SHAPES !! RecoveryStep.geometricType step)) ∧
      (∃ last, steps !! 2%nat = Some last ∧
               RecoveryStep.geometricType last = TRUNCATED_CUBE) ∧
      9000 ≤ PartitionRecoveryPlan.estimatedRecoveryTime plan ≤ 18000 ∧
      (PartitionRecoveryPlan.recoveryStrategy plan = RecoveryStrategy.dual
         ↔ (length line_pieces ≤ 4)%nat) ∧
      (PartitionRecoveryPlan.recoveryStrategy plan = RecoveryStrategy.federated
         ↔ (8 < length line_pieces)%nat).
Proof.
  eexists.
  split; [by_evaluation|].
  eapply (createRecoveryPlan_well_formed sample_host line_pieces TRUNCATED_CUBE);
    first [by_evaluation | intros H; vm_compute in H; discriminate H].
Defined.

(** * Further results: the search of the partition detector *)

Section set_dfs.
Context (adjacency : gmap string (list string)) (U : gset string).
Hypothesis neighbours_in_U :
  ∀ k l x, adjacency !! k = Some l → x ∈ l → x ∈ U.
Context (P : string → Prop).
Hypothesis P_closed : ∀ a l b, P a → adjacency !! a = Some l → b ∈ l → P b.

Lemma size_unvisited_insert (visited : gset string) v :
  v ∈ U → v ∉ visited →
  (size (U ∖ ({[v]} ∪ visited)) < size (U ∖ visited))%nat.
Proof. intros Hv Hnot. apply subset_size. set_solver. Qed.

Lemma size_unvisited_mono (visited visited' : gset string) :
  visited ⊆ visited' → (size (U ∖ visited') ≤ size (U ∖ visited))%nat.
Proof. intros Hsub. apply subseteq_size. set_solver. Qed.

Lemma detector_dfs_spec fuel : ∀ v (visited component : gset string),
  v ∈ U → v ∉ visited → P v → (size (U ∖ visited) ≤ fuel)%nat →
  ∃ visited' component',
    PartitionDetector.dfs fuel v adjacency (visited, component)
    = Ret (visited', component') ∧
    visited ⊆ visited' ∧
    v ∈ visited' ∧
    (∀ l x, adjacency !! v = Some l → x ∈ l → x ∈ visited') ∧
    (∀ x, x ∈ visited' → x ∈ visited ∨ P x) ∧
    (∀ x, x ∈ component' ↔ x ∈ component ∨ (x ∈ visited' ∧ x ∉ visited)).
Proof.
  induction fuel as [|fuel IH]; intros v visited component Hv Hnot HP Hfuel.
  { pose proof (size_unvisited_insert visited v Hv Hnot). lia. }
  cbn [PartitionDetector.dfs].
  set (visited1 := {[v]} ∪ visited). set (component1 := {[v]} ∪ component).
  set (body := λ (neighborId : string) (state : gset string * gset string), _).
  assert (Hlt : (size (U ∖ visited1) ≤ fuel)%nat).
  { pose proof (size_unvisited_insert visited v Hv Hnot). unfold visited1. lia. }
  assert (Hloop : ∀ (neighbors : list string) (current comp : gset string),
    (∀ x, x ∈ neighbors → x ∈ U ∧ P x) →
    visited1 ⊆ current →
    (∀ x, x ∈ current → x ∈ visited ∨ P x) →
    (∀ x, x ∈ comp ↔ x ∈ component ∨ (x ∈ current ∧ x ∉ visited)) →
    ∃ visited' component',
      for_each neighbors (current, comp) body = Ret (visited', component') ∧
      current ⊆ visited' ∧
      (∀ x, x ∈ neighbors → x ∈ visited') ∧
      (∀ x, x ∈ visited' → x ∈ visited ∨ P x) ∧
      (∀ x, x ∈ component' ↔ x ∈ component ∨ (x ∈ visited' ∧ x ∉ visited))).
  { induction neighbors as [|i neighbors IHl]; intros current comp Hin Hsub Hcls Hcomp.
    - exists current, comp. split_and!; auto. intros x Hx. by apply elem_of_nil in Hx.
    - rewrite for_each_cons.
      assert (body i (current, comp) =
              if decide (i ∈ current) then Ret (current, comp)
              else PartitionDetector.dfs fuel i adjacency (current, comp)) as -> by done.
      assert (Hin' : ∀ x, x ∈ neighbors → x ∈ U ∧ P x)
        by (intros x Hx; apply Hin; by apply list_elem_of_further).
      destruct (Hin i (list_elem_of_here _ _)) as [HiU HiP].
      destruct (decide (i ∈ current)) as [Hi|Hi].
      + rewrite js_bind_Ret.
        destruct (IHl current comp) as (v3 & c3 & Hrun3 & Hsub3 & Hall3 & Hcls3 & Hcomp3);
          auto.
        exists v3, c3. split_and!; auto.
        intros x [->|Hx]%elem_of_cons; auto.
      + destruct (IH i current comp) as (v2 & c2 & Hrun & Hsub2 & Hi2 & _ & Hcls2 & Hcomp2);
          auto.
        { pose proof (size_unvisited_mono _ _ Hsub). lia. }
        rewrite Hrun, js_bind_Ret.
        destruct (IHl v2 c2) as (v3 & c3 & Hrun3 & Hsub3 & Hall3 & Hcls3 & Hcomp3); auto.
        { by etransitivity. }
        { intros x Hx. destruct (Hcls2 x Hx); auto. }
        { intros x. rewrite Hcomp2, Hcomp. split.
          - intros [[Hc|[Hcur Hnv]]|[Hv2 Hnc]]; auto.
            right. split; [done|]. intros Hvis. apply Hnc, Hsub.
            by apply elem_of_union_r.
          - intros [Hc|[Hv2 Hnv]]; [auto|].
            destruct (decide (x ∈ current)); auto. }
        exists v3, c3. split_and!; auto.
        * by etransitivity.
        * intros x [->|Hx]%elem_of_cons; auto. }
  destruct (Hloop (default [] (adjacency !! v)) visited1 component1)
    as (v' & c' & Hrun & Hsub & Hall & Hcls & Hcomp).
  { intros x Hx. destruct (adjacency !! v) as [l|] eqn:Hl; simpl in Hx.
    - split; [by eapply neighbours_in_U|by eapply P_closed].
    - by apply elem_of_nil in Hx. }
  { done. }
  { unfold visited1. intros x [->%elem_of_singleton|Hx]%elem_of_union; auto. }
  { unfold component1, visited1. intros x.
    rewrite !elem_of_union, elem_of_singleton. split.
    - intros [->|Hc]; auto.
    - intros [Hc|[[->|Hvis] Hnv]]; auto. done. }
  exists v', c'. split_and!; auto.
  - intros x Hx. by apply Hsub, elem_of_union_r.
  - by apply Hsub, elem_of_union_l, elem_of_singleton.
  - intros l x Hl Hx. apply Hall. by rewrite Hl.
Qed.
End set_dfs.

Lemma adjacency_keys vertices (m : gmap string (list string)) k :
  foldl (λ adjacency v, <[DecisionVertex.id v := []]> adjacency) m vertices !! k
  = if decide (k ∈ DecisionVertex.id <$> vertices) then Some [] else m !! k.
Proof.
  revert m. induction vertices as [|v vertices IH]; intros m.
  - cbn [foldl]. rewrite fmap_nil, decide_False; [done|]. apply not_elem_of_nil.
  - cbn [foldl]. rewrite IH, fmap_cons.
    destruct (decide (k ∈ DecisionVertex.id <$> vertices)) as [Hin|Hnot].
    + rewrite decide_True; [done|]. by apply list_elem_of_further.
    + destruct (decide (k = DecisionVertex.id v)) as [->|Hne].
      * rewrite lookup_insert_eq, decide_True; [done|]. apply list_elem_of_here.
      * rewrite lookup_insert_ne by done. rewrite decide_False; [done|].
        intros [?|?]%elem_of_cons; done.
Qed.

Lemma adjacency_lists_spec vertices edges k :
  match PartitionDetector.adjacency_lists vertices edges !! k with
  | Some neighbors =>
      k ∈ DecisionVertex.id <$> vertices ∧
      ∀ x, x ∈ neighbors ↔ ∃ e, e ∈ edges ∧ joins e k x
  | None => k ∉ DecisionVertex.id <$> vertices
  end.
Proof.
  unfold PartitionDetector.adjacency_lists.
  induction edges as [|e edges IH] using rev_ind.
  - cbn [foldl]. rewrite adjacency_keys, lookup_empty.
    case_decide; [|done]. split; [done|]. intros x. split.
    + intros Hx. by apply elem_of_nil in Hx.
    + intros (e & He & _). by apply elem_of_nil in He.
  - rewrite foldl_app. cbn [foldl].
    set (m := foldl _ _ edges) in *.
    assert (Hlast : ∀ x, (∃ e0, e0 ∈ edges ++ [e] ∧ joins e0 k x) ↔
                         (∃ e0, e0 ∈ edges ∧ joins e0 k x) ∨ joins e k x).
    { intros x. split.
      - intros (e0 & [He0| ->%list_elem_of_singleton]%elem_of_app & Hj); eauto.
      - intros [(e0 & He0 & Hj)|Hj].
        + exists e0. split; [|done]. apply elem_of_app. auto.
        + exists e. split; [|done]. apply elem_of_app. right.
          by apply list_elem_of_singleton. }
    rewrite lookup_alter.
    destruct (decide (Edge.to e = k)) as [Hto|Hto].
    + rewrite lookup_alter.
      destruct (decide (Edge.from e = Edge.to e)) as [Heq|Hne].
      * rewrite Heq, Hto. destruct (m !! k) as [l|]; simpl; [|done].
        destruct IH as [Hk IH]. split; [done|]. intros x.
        rewrite Hlast, !elem_of_app, !list_elem_of_singleton, IH.
        unfold joins. rewrite Heq, Hto. naive_solver.
      * rewrite Hto. destruct (m !! k) as [l|]; simpl; [|done].
        destruct IH as [Hk IH]. split; [done|]. intros x.
        rewrite Hlast, !elem_of_app, !list_elem_of_singleton, IH.
        unfold joins. rewrite Hto. naive_solver.
    + rewrite lookup_alter.
      destruct (decide (Edge.from e = k)) as [Hfrom|Hfrom].
      * rewrite Hfrom. destruct (m !! k) as [l|]; simpl; [|done].
        destruct IH as [Hk IH]. split; [done|]. intros x.
        rewrite Hlast, !elem_of_app, !list_elem_of_singleton, IH.
        unfold joins. rewrite Hfrom. naive_solver.
      * destruct (m !! k) as [l|]; simpl; [|done].
        destruct IH as [Hk IH]. split; [done|]. intros x.
        rewrite Hlast, IH. unfold joins. naive_solver.
Qed.

Lemma size_list_to_set_le (l : list string) :
  (size (list_to_set l : gset string) ≤ length l)%nat.
Proof.
  induction l as [|x l IH]; [by rewrite list_to_set_nil, size_empty|].
  rewrite list_to_set_cons, size_union_alt, size_singleton. simpl.
  pose proof (subseteq_size (list_to_set l ∖ {[x]} : gset string) (list_to_set l)
                ltac:(apply subseteq_difference_l; done)).
  lia.
Qed.

Lemma findConnectedComponents_total vertices edges :
  ∃ components,
    PartitionDetector.findConnectedComponents vertices edges = Ret components.
Proof.
  unfold PartitionDetector.findConnectedComponents.
  set (adjacency := PartitionDetector.adjacency_lists vertices edges).
  set (fuel := (length vertices + 2 * length edges)%nat).
  set (U := identifiers vertices edges).
  assert (Hfuel : ∀ visited : gset string, (size (U ∖ visited) ≤ fuel)%nat).
  { intros visited.
    etransitivity; [apply subseteq_size, subseteq_difference_l; reflexivity|].
    etransitivity; [apply size_list_to_set_le|].
    rewrite !length_app, !length_fmap. unfold fuel. lia. }
  assert (Hneighbours : ∀ k l x, adjacency !! k = Some l → x ∈ l → x ∈ U).
  { intros k l x Hl Hx. pose proof (adjacency_lists_spec vertices edges k) as Hspec.
    fold adjacency in Hspec. rewrite Hl in Hspec. destruct Hspec as [_ Hspec].
    apply Hspec in Hx as (e & He & Hj). unfold U, identifiers.
    apply elem_of_list_to_set. rewrite !elem_of_app.
    destruct Hj as [[_ <-]|[_ <-]]; right.
    - right. by apply list_elem_of_fmap_2.
    - left. by apply list_elem_of_fmap_2. }
  set (body := λ (vertex : DecisionVertex.t) (st : gset string * list (gset string)), _).
  assert (Hloop : ∀ rest visited components,
    (∀ v, v ∈ rest → DecisionVertex.id v ∈ U) →
    ∃ visited' components',
      for_each rest (visited, components) body = Ret (visited', components')).
  { induction rest as [|v rest IH]; intros visited components Hin.
    - by eexists _, _.
    - rewrite for_each_cons.
      assert (body v (visited, components) =
        if decide (DecisionVertex.id v ∈ visited) then Ret (visited, components)
        else '(visited, component) ←
               PartitionDetector.dfs fuel (DecisionVertex.id v) adjacency (visited, ∅);
             Ret (visited, components ++ [component])) as -> by done.
      assert (Hin' : ∀ w, w ∈ rest → DecisionVertex.id w ∈ U)
        by (intros w Hw; apply Hin; by apply list_elem_of_further).
      case_decide as Hv; [rewrite js_bind_Ret; by apply IH|].
      destruct (detector_dfs_spec adjacency U Hneighbours (λ _, True) ltac:(done)
                  fuel (DecisionVertex.id v) visited ∅)
        as (v' & c' & -> & _); auto.
      { apply Hin, list_elem_of_here. }
      rewrite !js_bind_Ret. by apply IH. }
  destruct (Hloop vertices ∅ []) as (v' & c' & ->).
  { intros v Hv. unfold U, identifiers. apply elem_of_list_to_set, elem_of_app. left.
    by apply list_elem_of_fmap_2. }
  rewrite js_bind_Ret. by eexists.
Qed.

(** The identifiers of the votes whose agreement value is [c]. *)
(** The agreement values of the votes, in the order of their first
    occurrence. *)
(** The votes grouped by agreement value, in that order. *)
Lemma detector_convertToVertices votes :
  PartitionDetector.convertToVertices votes = GeometricConsensus.convertToVertices votes.
Proof. reflexivity. Qed.

Lemma detector_buildConsensusEdges votes :
  PartitionDetector.buildConsensusEdges votes
  = GeometricConsensus.buildConsensusEdges votes.
Proof. reflexivity. Qed.

Lemma sides_in_order_snoc votes v :
  sides_in_order (votes ++ [v])
  = if decide (DecisionVertex.agrees v ∈ sides_in_order votes)
    then sides_in_order votes
    else sides_in_order votes ++ [DecisionVertex.agrees v].
Proof. unfold sides_in_order. by rewrite foldl_app. Qed.

Lemma sides_in_order_spec votes :
  NoDup (sides_in_order votes) ∧
  ∀ c, c ∈ sides_in_order votes ↔ ∃ v, v ∈ votes ∧ DecisionVertex.agrees v = c.
Proof.
  induction votes as [|v votes [IHn IHe]] using rev_ind.
  - split; [constructor|]. intros c. split.
    + intros Hc. by apply elem_of_nil in Hc.
    + intros (v & Hv & _). by apply elem_of_nil in Hv.
  - rewrite sides_in_order_snoc. case_decide as Hin.
    + split; [done|]. intros c. rewrite IHe. split.
      * intros (w & Hw & Hc). exists w. split; [|done]. apply elem_of_app. auto.
      * intros (w & [Hw| ->%list_elem_of_singleton]%elem_of_app & Hc); [eauto|].
        apply IHe. by rewrite <- Hc.
    + split.
      * apply NoDup_app. split_and!; [done| |apply NoDup_singleton].
        intros c Hc ->%list_elem_of_singleton. done.
      * intros c. rewrite elem_of_app, list_elem_of_singleton, IHe. split.
        -- intros [(w & Hw & Hc)| ->].
           ++ exists w. split; [|done]. apply elem_of_app. auto.
           ++ exists v. split; [|done]. apply elem_of_app. right.
              by apply list_elem_of_singleton.
        -- intros (w & [Hw| ->%list_elem_of_singleton]%elem_of_app & Hc); eauto.
Qed.

Lemma bool_list_length (sides : list bool) :
  NoDup sides →
  Z.of_nat (length sides)
  = b2z (bool_decide (true ∈ sides)) + b2z (bool_decide (false ∈ sides)).
Proof.
  intros Hnd.
  destruct sides as [|a [|b [|c sides]]].
  - done.
  - destruct a; vm_compute; done.
  - apply NoDup_cons in Hnd as [Hab _].
    destruct a, b; try (destruct Hab; apply list_elem_of_here); vm_compute; done.
  - exfalso. apply NoDup_cons in Hnd as [Ha Hnd]. apply NoDup_cons in Hnd as [Hb _].
    destruct a, b, c;
      first [ destruct Ha; apply list_elem_of_here
            | destruct Ha; apply list_elem_of_further, list_elem_of_here
            | destruct Hb; apply list_elem_of_here ].
Qed.

Lemma sides_in_order_length votes :
  Z.of_nat (length (sides_in_order votes)) = sides_seen votes (length votes).
Proof.
  destruct (sides_in_order_spec votes) as [Hnd Hel].
  rewrite (bool_list_length _ Hnd). unfold sides_seen, seen. rewrite firstn_all.
  f_equal; f_equal; apply eq_true_iff_eq;
    rewrite bool_decide_eq_true, Hel, existsb_exists;
    setoid_rewrite <- list_elem_of_In; setoid_rewrite Bool.eqb_true_iff; done.
Qed.

Lemma vote_unique votes v w :
  NoDup (DecisionVertex.id <$> votes) → v ∈ votes → w ∈ votes →
  DecisionVertex.id v = DecisionVertex.id w → v = w.
Proof.
  intros Hnd [i Hi]%list_elem_of_lookup_1 [j Hj]%list_elem_of_lookup_1 Heq.
  assert (i = j) as ->.
  { eapply (NoDup_lookup _ _ _ _ Hnd); rewrite list_lookup_fmap.
    - by rewrite Hi.
    - rewrite Hj. simpl. by rewrite Heq. }
  congruence.
Qed.

Lemma side_ids_elem votes c x :
  x ∈ side_ids votes c ↔
  ∃ v, v ∈ votes ∧ DecisionVertex.id v = x ∧ DecisionVertex.agrees v = c.
Proof.
  unfold side_ids. rewrite elem_of_list_to_set, list_elem_of_fmap.
  setoid_rewrite list_elem_of_filter. naive_solver.
Qed.

Section detector_graph.
Context (votes : list DecisionVertex.t).
Hypothesis ids_distinct : NoDup (DecisionVertex.id <$> votes).
Let edges := PartitionDetector.buildConsensusEdges votes.
Let adjacency := PartitionDetector.adjacency_lists votes edges.
Let U : gset string := list_to_set (DecisionVertex.id <$> votes).

Lemma neighbours_consensus v :
  v ∈ votes →
  ∃ neighbors,
    adjacency !! DecisionVertex.id v = Some neighbors ∧
    ∀ x, x ∈ neighbors ↔
         ∃ w, w ∈ votes ∧ w ≠ v ∧
              DecisionVertex.agrees w = DecisionVertex.agrees v ∧
              x = DecisionVertex.id w.
Proof.
  intros Hv.
  pose proof (adjacency_lists_spec votes edges (DecisionVertex.id v)) as Hspec.
  fold adjacency in Hspec.
  destruct (adjacency !! DecisionVertex.id v) as [l|];
    [|destruct Hspec; by apply list_elem_of_fmap_2].
  destruct Hspec as [_ Hspec]. exists l. split; [done|]. intros x.
  rewrite Hspec. unfold edges. rewrite detector_buildConsensusEdges. split.
  - intros (e & He & Hj).
    apply edges_sound in He as (i & j & v1 & v2 & Hij & H1 & H2 & Hag & Hf & Ht).
    assert (Hv1 : v1 ∈ votes) by (by eapply list_elem_of_lookup_2).
    assert (Hv2 : v2 ∈ votes) by (by eapply list_elem_of_lookup_2).
    assert (Hne : v1 ≠ v2).
    { intros ->.
      assert (i = j); [|lia].
      eapply (NoDup_lookup _ _ _ _ ids_distinct); rewrite list_lookup_fmap.
      - by rewrite H1.
      - by rewrite H2. }
    destruct Hj as [[Hk Hx]|[Hk Hx]].
    + rewrite Hf in Hk. apply (vote_unique votes _ _ ids_distinct Hv1 Hv) in Hk.
      subst v1. exists v2. split_and!; auto. congruence.
    + rewrite Ht in Hk. apply (vote_unique votes _ _ ids_distinct Hv2 Hv) in Hk.
      subst v2. exists v1. split_and!; auto. congruence.
  - intros (w & Hw & Hne & Hag & ->).
    pose proof Hv as [i Hi]%list_elem_of_lookup_1.
    pose proof Hw as [j Hj]%list_elem_of_lookup_1.
    destruct (lt_eq_lt_dec i j) as [[Hlt|Heq]|Hgt].
    + destruct (edges_complete votes i j v w Hlt Hi Hj ltac:(done)) as (e & He & Hf & Ht).
      exists e. split; [done|]. left. done.
    + subst j. congruence.
    + destruct (edges_complete votes j i w v Hgt Hj Hi ltac:(done)) as (e & He & Hf & Ht).
      exists e. split; [done|]. right. done.
Qed.

Lemma neighbours_in_votes k l x : adjacency !! k = Some l → x ∈ l → x ∈ U.
Proof.
  intros Hl Hx.
  pose proof (adjacency_lists_spec votes edges k) as Hspec.
  fold adjacency in Hspec. rewrite Hl in Hspec. destruct Hspec as [Hk _].
  apply list_elem_of_fmap in Hk as (v & -> & Hv).
  destruct (neighbours_consensus v Hv) as (l' & Hl' & Hspec).
  assert (l' = l) as -> by congruence.
  apply Hspec in Hx as (w & Hw & _ & _ & ->).
  apply elem_of_list_to_set. by apply list_elem_of_fmap_2.
Qed.

Lemma side_closed c a l b :
  a ∈ side_ids votes c → adjacency !! a = Some l → b ∈ l → b ∈ side_ids votes c.
Proof.
  intros (v & Hv & <- & Hc)%side_ids_elem Hl Hb.
  destruct (neighbours_consensus v Hv) as (l' & Hl' & Hspec).
  assert (l' = l) as -> by congruence.
  apply Hspec in Hb as (w & Hw & _ & Hag & ->).
  apply side_ids_elem. exists w. split_and!; auto. congruence.
Qed.

Lemma detector_dfs_side fuel v (visited : gset string) :
  v ∈ votes → DecisionVertex.id v ∉ visited → (length votes ≤ fuel)%nat →
  ∃ visited' component,
    PartitionDetector.dfs fuel (DecisionVertex.id v) adjacency (visited, ∅)
    = Ret (visited', component) ∧
    (∀ x, x ∈ visited' ↔ x ∈ visited ∨ x ∈ side_ids votes (DecisionVertex.agrees v)) ∧
    (∀ x, x ∈ component ↔ x ∈ side_ids votes (DecisionVertex.agrees v) ∧ x ∉ visited).
Proof.
  intros Hv Hnot Hfuel.
  destruct (detector_dfs_spec adjacency U neighbours_in_votes
              (λ x, x ∈ side_ids votes (DecisionVertex.agrees v))
              (side_closed (DecisionVertex.agrees v))
              fuel (DecisionVertex.id v) visited ∅)
    as (visited' & component & Hrun & Hsub & Hin & Hall & Hcls & Hcomp); auto.
  { apply elem_of_list_to_set. by apply list_elem_of_fmap_2. }
  { apply side_ids_elem. eauto. }
  { etransitivity; [apply subseteq_size, subseteq_difference_l; reflexivity|].
    etransitivity; [apply size_list_to_set_le|]. by rewrite length_fmap. }
  exists visited', component. split; [done|].
  assert (Hvis : ∀ x, x ∈ visited' ↔
                      x ∈ visited ∨ x ∈ side_ids votes (DecisionVertex.agrees v)).
  { intros x. split; [apply Hcls|]. intros [Hx|Hx]; [by apply Hsub|].
    apply side_ids_elem in Hx as (w & Hw & <- & Hag).
    destruct (decide (DecisionVertex.id w = DecisionVertex.id v)) as [->|Hne]; [done|].
    destruct (neighbours_consensus v Hv) as (l & Hl & Hspec).
    eapply Hall; [done|]. apply Hspec. exists w. split_and!; auto. congruence. }
  split; [done|]. intros x. rewrite Hcomp, Hvis. split.
  - intros [Hx|[[Hx|Hx] Hn]]; [by apply not_elem_of_empty in Hx|done|done].
  - intros [Hx Hn]. auto.
Qed.

Lemma side_ids_disjoint c1 c2 x :
  x ∈ side_ids votes c1 → x ∈ side_ids votes c2 → c1 = c2.
Proof.
  intros (v & Hv & <- & <-)%side_ids_elem (w & Hw & Heq & <-)%side_ids_elem.
  by rewrite (vote_unique votes w v ids_distinct Hw Hv Heq).
Qed.

Lemma findConnectedComponents_consensus :
  PartitionDetector.findConnectedComponents votes edges
  = Ret (side_ids votes <$> sides_in_order votes).
Proof.
  unfold PartitionDetector.findConnectedComponents. fold adjacency.
  set (fuel := (length votes + 2 * length edges)%nat).
  set (body := λ (vertex : DecisionVertex.t) (st : gset string * list (gset string)), _).
  assert (Hloop : ∀ rest done visited,
    votes = done ++ rest →
    (∀ x, x ∈ visited ↔ ∃ c, c ∈ sides_in_order done ∧ x ∈ side_ids votes c) →
    ∃ visited',
      for_each rest (visited, side_ids votes <$> sides_in_order done) body
      = Ret (visited', side_ids votes <$> sides_in_order votes)).
  { induction rest as [|v rest IH]; intros done visited Hvotes Hvisited.
    - rewrite app_nil_r in Hvotes. subst done. by eexists.
    - rewrite for_each_cons.
      assert (body v (visited, side_ids votes <$> sides_in_order done) =
        if decide (DecisionVertex.id v ∈ visited)
        then Ret (visited, side_ids votes <$> sides_in_order done)
        else '(visited, component) ←
               PartitionDetector.dfs fuel (DecisionVertex.id v) adjacency (visited, ∅);
             Ret (visited, (side_ids votes <$> sides_in_order done) ++ [component]))
        as -> by done.
      assert (Hv : v ∈ votes).
      { rewrite Hvotes. apply elem_of_app. right. apply list_elem_of_here. }
      assert (Hown : DecisionVertex.id v ∈ side_ids votes (DecisionVertex.agrees v))
        by (apply side_ids_elem; eauto).
      assert (Hnext : votes = (done ++ [v]) ++ rest) by (by rewrite <- app_assoc).
      case_decide as Hvis.
      + rewrite js_bind_Ret.
        assert (Hseen : DecisionVertex.agrees v ∈ sides_in_order done).
        { apply Hvisited in Hvis as (c & Hc & Hx).
          by rewrite (side_ids_disjoint _ _ _ Hown Hx). }
        destruct (IH (done ++ [v]) visited Hnext) as [visited' Hrun].
        { rewrite sides_in_order_snoc, decide_True by done. done. }
        rewrite sides_in_order_snoc, decide_True in Hrun by done. eauto.
      + assert (Hnew : DecisionVertex.agrees v ∉ sides_in_order done).
        { intros Hseen. apply Hvis, Hvisited. eauto. }
        destruct (detector_dfs_side fuel v visited Hv Hvis ltac:(unfold fuel; lia))
          as (visited1 & component & -> & Hvis1 & Hcomp).
        rewrite !js_bind_Ret.
        assert (component = side_ids votes (DecisionVertex.agrees v)) as ->.
        { apply set_eq. intros x. rewrite Hcomp. split; [by intros [? _]|].
          intros Hx. split; [done|]. intros (c & Hc & Hx')%Hvisited.
          by rewrite (side_ids_disjoint _ _ _ Hx Hx') in Hnew. }
        destruct (IH (done ++ [v]) visited1 Hnext) as [visited' Hrun].
        { intros x. rewrite Hvis1, Hvisited, sides_in_order_snoc, decide_False by done.
          setoid_rewrite elem_of_app. setoid_rewrite list_elem_of_singleton.
          naive_solver. }
        rewrite sides_in_order_snoc, decide_False, fmap_app in Hrun by done. eauto. }
  destruct (Hloop votes [] ∅ eq_refl) as [visited' Hrun].
  { intros x. split; [by intros ?%not_elem_of_empty|].
    intros (c & Hc & _). by apply elem_of_nil in Hc. }
  change (side_ids votes <$> sides_in_order []) with (@nil (gset string)) in Hrun.
  by rewrite Hrun, js_bind_Ret.
Qed.

Lemma groupVerticesByPartition_consensus (sides : list bool) :
  PartitionDetector.groupVerticesByPartition votes (side_ids votes <$> sides)
  = (λ c, filter (λ v, DecisionVertex.agrees v = c) votes) <$> sides.
Proof.
  unfold PartitionDetector.groupVerticesByPartition. rewrite <- list_fmap_compose.
  apply list_fmap_ext. intros _ c _. simpl.
  assert (Hgen : ∀ l : list DecisionVertex.t, (∀ v, v ∈ l → v ∈ votes) →
    filter (λ vertex, DecisionVertex.id vertex ∈ side_ids votes c) l
    = filter (λ v, DecisionVertex.agrees v = c) l).
  { induction l as [|v l IH]; intros Hl; [done|].
    rewrite !filter_cons, IH by (intros w Hw; apply Hl; by apply list_elem_of_further).
    assert (Hv : v ∈ votes) by apply Hl, list_elem_of_here.
    destruct (decide (DecisionVertex.agrees v = c)) as [Hc|Hc].
    - rewrite decide_True; [done|]. apply side_ids_elem. eauto.
    - rewrite decide_False; [done|].
      intros (w & Hw & Heq & Hag)%side_ids_elem.
      by rewrite (vote_unique votes w v ids_distinct Hw Hv Heq) in Hag. }
  by apply Hgen.
Qed.
End detector_graph.

(** * Further results: partition detection *)

Lemma inferGeometricType_cases n :
  PartitionDetector.inferGeometricType n
  ∈ CUBE :: PartitionDetector.vertexToType.*2.
Proof.
  unfold PartitionDetector.inferGeometricType.
  destruct (list_to_map PartitionDetector.vertexToType !! n) as [T|] eqn:HT.
  - apply elem_of_list_to_map_2 in HT. apply list_elem_of_further.
    apply list_elem_of_fmap. by exists (n, T).
  - apply list_elem_of_here.
Qed.

(** The shape that [detectViaBettiNumbers] decomposes into when it finds two
    components. *)
Lemma infer_decompose n :
  ∃ c rest shape,
    PartitionDetector.decomposeGeometricType (PartitionDetector.inferGeometricType n) 2
    = Ret (String c rest) ∧
    GEOMETRIC_SHAPES !! String c rest = Some shape ∧
    (0 < threshold shape)%Q ∧ (threshold shape <= 1)%Q.
Proof.
  pose proof (inferGeometricType_cases n) as Hcases.
  revert Hcases. generalize (PartitionDetector.inferGeometricType n). intros T HT.
  repeat (apply elem_of_cons in HT as [->|HT];
          [do 3 eexists; split; [vm_compute; reflexivity|];
           split; [vm_compute; reflexivity|]; split;
           vm_compute; first [reflexivity|discriminate]|]).
  by apply elem_of_nil in HT.
Qed.

Lemma pieces_permutation votes : concat (pieces votes) ≡ₚ votes.
Proof.
  unfold pieces. destruct (sides_in_order_spec votes) as [Hnd Hel].
  assert (Hall : ∀ c, (∀ v, v ∈ votes → DecisionVertex.agrees v = c) →
                      filter (λ v, DecisionVertex.agrees v = c) votes = votes).
  { intros c Hc. clear Hel Hnd. induction votes as [|v l IH]; [done|].
    rewrite filter_cons, decide_True by (apply Hc, list_elem_of_here).
    rewrite IH; [done|]. intros w Hw. by apply Hc, list_elem_of_further. }
  destruct (sides_in_order votes) as [|a [|b [|c sides]]].
  - destruct votes as [|v votes]; [done|]. exfalso.
    assert (DecisionVertex.agrees v ∈ @nil bool) as Hin
      by (apply Hel; exists v; split; [apply list_elem_of_here|done]).
    by apply elem_of_nil in Hin.
  - simpl. rewrite app_nil_r, Hall; [done|]. intros v Hv.
    assert (DecisionVertex.agrees v ∈ [a]) as Hin by (apply Hel; eauto).
    by apply list_elem_of_singleton in Hin.
  - simpl. rewrite app_nil_r.
    assert (a ≠ b) as Hab.
    { apply NoDup_cons in Hnd as [Ha _]. intros ->. apply Ha, list_elem_of_here. }
    rewrite <- (filter_app_complement (λ v, DecisionVertex.agrees v = a) votes) at 3.
    f_equiv. apply reflexive_eq, list_filter_iff. intros v.
    destruct (DecisionVertex.agrees v), a, b; naive_solver.
  - exfalso. apply NoDup_cons in Hnd as [Ha Hnd]. apply NoDup_cons in Hnd as [Hb _].
    destruct a, b, c;
      first [ destruct Ha; apply list_elem_of_here
            | destruct Ha; apply list_elem_of_further, list_elem_of_here
            | destruct Hb; apply list_elem_of_here ].
Qed.

Lemma pieces_homogeneous votes i piece :
  pieces votes !! i = Some piece →
  ∃ c, sides_in_order votes !! i = Some c ∧
       piece = filter (λ v, DecisionVertex.agrees v = c) votes ∧
       piece ≠ [] ∧
       ∀ v, v ∈ piece → DecisionVertex.agrees v = c.
Proof.
  unfold pieces. rewrite list_lookup_fmap.
  destruct (sides_in_order votes !! i) as [c|] eqn:Hc; [|done].
  intros [= <-]. exists c. split_and!; try done.
  - destruct (sides_in_order_spec votes) as [_ Hel].
    destruct (proj1 (Hel c)) as (v & Hv & Hag); [by eapply list_elem_of_lookup_2|].
    intros Hnil.
    assert (v ∈ filter (λ v, DecisionVertex.agrees v = c) votes) as Hin
      by (by apply list_elem_of_filter).
    rewrite Hnil in Hin. by apply elem_of_nil in Hin.
  - intros v Hv. by apply list_elem_of_filter in Hv as [? _].
Qed.

Lemma for_each_app {A S : Type} (l1 l2 : list A) (s : S) (body : A → S → js S) :
  for_each (l1 ++ l2) s body = for_each l1 s body ≫= λ s', for_each l2 s' body.
Proof.
  revert s. induction l1 as [|x l1 IH]; intros s; [done|].
  simpl. destruct (body x s); simpl; auto.
Qed.

Lemma for_each_concat {A S : Type} (ls : list (list A)) (s : S) (body : A → S → js S) :
  for_each ls s (λ l s, for_each l s body) = for_each (concat ls) s body.
Proof.
  revert s. induction ls as [|l ls IH]; intros s; [done|].
  simpl. rewrite for_each_app. destruct (for_each l s body); simpl; auto.
Qed.

Lemma distinct_ids_loop (l : list DecisionVertex.t) (allVertexIds : gset string) :
  NoDup (DecisionVertex.id <$> l) →
  (∀ v, v ∈ l → DecisionVertex.id v ∉ allVertexIds) →
  ∃ allVertexIds',
    for_each l allVertexIds
      (λ vertex allVertexIds,
         if decide (DecisionVertex.id vertex ∈ allVertexIds)
         then Throw "Vertex appears in multiple partitions"
         else Ret ({[DecisionVertex.id vertex]} ∪ allVertexIds))
    = Ret allVertexIds'.
Proof.
  revert allVertexIds. induction l as [|v l IH]; intros acc Hnd Hnew; [by eexists|].
  rewrite for_each_cons. rewrite fmap_cons in Hnd.
  apply NoDup_cons in Hnd as [Hv Hnd].
  rewrite decide_False by (apply Hnew, list_elem_of_here). rewrite js_bind_Ret.
  apply IH; [done|]. intros w Hw [Heq%elem_of_singleton|Hacc]%elem_of_union.
  - apply Hv. rewrite <- Heq. by apply list_elem_of_fmap_2.
  - by apply (Hnew w); [apply list_elem_of_further|].
Qed.

Lemma betti_of_consensus_graph votes :
  NoDup (DecisionVertex.id <$> votes) →
  ∃ betti,
    BettiCalculator.calculateBettiNumbers (GeometricConsensus.convertToVertices votes)
      (GeometricConsensus.buildConsensusEdges votes) = Ret betti ∧
    beta_0 betti = Z.of_nat (length (sides_in_order votes)).
Proof.
  intros Hids.
  unfold BettiCalculator.calculateBettiNumbers, BettiCalculator.calculateCycles.
  rewrite convertToVertices_length.
  case_decide as Hlen.
  { apply nil_length_inv in Hlen. subst. by eexists. }
  rewrite (components_consensus votes Hids). js_simpl.
  eexists. split; [reflexivity|]. cbn [beta_0]. by rewrite sides_in_order_length.
Qed.

Lemma sides_in_order_bound votes : (length (sides_in_order votes) ≤ 2)%nat.
Proof.
  destruct (sides_in_order_spec votes) as [Hnd _].
  pose proof (bool_list_length _ Hnd) as Hlen.
  destruct (bool_decide (true ∈ _)), (bool_decide (false ∈ _)); simpl in Hlen; lia.
Qed.

Lemma sides_in_order_two votes :
  length (sides_in_order votes) = 2%nat ↔
  ∃ v w, v ∈ votes ∧ w ∈ votes ∧
         DecisionVertex.agrees v = true ∧ DecisionVertex.agrees w = false.
Proof.
  destruct (sides_in_order_spec votes) as [Hnd Hel].
  pose proof (bool_list_length _ Hnd) as Hlen.
  destruct (bool_decide (true ∈ sides_in_order votes)) eqn:Ht;
    destruct (bool_decide (false ∈ sides_in_order votes)) eqn:Hf;
    simpl in Hlen;
    try apply bool_decide_eq_true in Ht; try apply bool_decide_eq_true in Hf;
    try apply bool_decide_eq_false in Ht; try apply bool_decide_eq_false in Hf;
    (split; [intros ?|intros (v & w & Hv & Hw & Hvt & Hwf)]); try lia.
  - apply Hel in Ht as (v & Hv & Hvt). apply Hel in Hf as (w & Hw & Hwf). eauto 10.
  - destruct Hf. apply Hel. eauto.
  - destruct Ht. apply Hel. eauto.
  - destruct Ht. apply Hel. eauto.
Qed.

(** What [detectViaBettiNumbers] returns on votes with distinct identifiers. *)
Lemma detectViaBettiNumbers_spec votes :
  NoDup (DecisionVertex.id <$> votes) →
  let count := Z.of_nat (length (sides_in_order votes)) in
  ∃ info,
    PartitionDetector.detectViaBettiNumbers votes = Ret info ∧
    PartitionInfo.partitionCount info = count ∧
    beta_0 (PartitionInfo.bettiNumbers info) = count ∧
    PartitionInfo.isPartitioned info = (count >? 1) ∧
    PartitionInfo.components info = side_ids votes <$> sides_in_order votes ∧
    PartitionInfo.partitionVertices info = pieces votes ∧
    PartitionInfo.originalGeometricType info
      = PartitionDetector.inferGeometricType (Z.of_nat (length votes)) ∧
    (count ≤ 1 → PartitionInfo.decomposedGeometricType info = None) ∧
    (count = 2 →
     ∃ c rest shape,
       PartitionInfo.decomposedGeometricType info = Some (String c rest) ∧
       PartitionDetector.decomposeGeometricType
         (PartitionDetector.inferGeometricType (Z.of_nat (length votes))) 2
       = Ret (String c rest) ∧
       GEOMETRIC_SHAPES !! String c rest = Some shape ∧
       (0 < threshold shape)%Q ∧ (threshold shape <= 1)%Q).
Proof.
  intros Hids count. unfold PartitionDetector.detectViaBettiNumbers.
  rewrite detector_convertToVertices, detector_buildConsensusEdges.
  destruct (betti_of_consensus_graph votes Hids) as (betti & -> & Hbeta).
  rewrite js_bind_Ret, <- detector_buildConsensusEdges.
  rewrite (findConnectedComponents_consensus votes Hids), js_bind_Ret.
  rewrite (groupVerticesByPartition_consensus votes Hids).
  unfold BettiCalculator.detectPartition, BettiCalculator.countPartitions.
  rewrite Hbeta. fold count.
  pose proof (sides_in_order_bound votes) as Hbound.
  destruct (Z.gtb_spec count 1) as [Hgt|Hle].
  - assert (count = 2) as Htwo by (unfold count in *; lia).
    rewrite Htwo.
    destruct (infer_decompose (Z.of_nat (length votes)))
      as (c & rest & shape & Hdec & Hshape & Hpos & Hle1).
    rewrite Hdec, !js_bind_Ret.
    eexists. split; [reflexivity|].
    cbn [PartitionInfo.partitionCount PartitionInfo.bettiNumbers
         PartitionInfo.isPartitioned PartitionInfo.components
         PartitionInfo.partitionVertices PartitionInfo.originalGeometricType
         PartitionInfo.decomposedGeometricType].
    split_and!; try done; try lia.
    intros _. exists c, rest, shape. done.
  - rewrite js_bind_Ret. eexists. split; [reflexivity|].
    cbn [PartitionInfo.partitionCount PartitionInfo.bettiNumbers
         PartitionInfo.isPartitioned PartitionInfo.components
         PartitionInfo.partitionVertices PartitionInfo.originalGeometricType
         PartitionInfo.decomposedGeometricType].
    split_and!; try done; try lia.
Qed.

(** X16. For votes with distinct identifiers, [detectViaBettiNumbers] returns
    groups that together are a rearrangement of the votes; each group is not
    empty and holds the votes of one agreement value; [partitionCount],
    beta_0 and the number of components all equal the number of groups; and
    [isPartitioned] holds exactly when both agreement values occur. *)
Theorem detectViaBettiNumbers_groups_votes (votes : list DecisionVertex.t) :
  NoDup (DecisionVertex.id <$> votes) →
  ∃ info,
    PartitionDetector.detectViaBettiNumbers votes = Ret info ∧
    let groups := PartitionInfo.partitionVertices info in
    concat groups ≡ₚ votes ∧
    (∀ i group, groups !! i = Some group →
       group ≠ [] ∧
       ∃ c, group = filter (λ v, DecisionVertex.agrees v = c) votes) ∧
    PartitionInfo.partitionCount info = Z.of_nat (length groups) ∧
    length (PartitionInfo.components info) = length groups ∧
    beta_0 (PartitionInfo.bettiNumbers info) = Z.of_nat (length groups) ∧
    (PartitionInfo.isPartitioned info = true ↔
     ∃ v w, v ∈ votes ∧ w ∈ votes ∧
            DecisionVertex.agrees v = true ∧ DecisionVertex.agrees w = false).
Proof.
  intros Hids.
  destruct (detectViaBettiNumbers_spec votes Hids)
    as (info & Hrun & Hcount & Hbeta & Hpart & Hcomp & Hgroups & _).
  exists info. split; [done|]. cbv zeta.
  rewrite Hgroups, Hcount, Hbeta, Hcomp, Hpart. unfold pieces at 3 4 5.
  rewrite !length_fmap. split_and!; try done.
  - apply pieces_permutation.
  - intros i group Hgroup.
    destruct (pieces_homogeneous votes i group Hgroup) as (c & _ & Heq & Hne & _).
    eauto.
  - rewrite <- sides_in_order_two. pose proof (sides_in_order_bound votes).
    rewrite Z.gtb_ltb, Z.ltb_lt. lia.
Qed.

Lemma detectViaBettiNumbers_groups_votes_witness :
  NoDup (DecisionVertex.id <$> split_votes) ∧
  ∃ info,
    PartitionDetector.detectViaBettiNumbers split_votes = Ret info ∧
    let groups := PartitionInfo.partitionVertices info in
    concat groups ≡ₚ split_votes ∧
    (∀ i group, groups !! i = Some group →
       group ≠ [] ∧
       ∃ c, group = filter (λ v, DecisionVertex.agrees v = c) split_votes) ∧
    PartitionInfo.partitionCount info = Z.of_nat (length groups) ∧
    length (PartitionInfo.components info) = length groups ∧
    beta_0 (PartitionInfo.bettiNumbers info) = Z.of_nat (length groups) ∧
    (PartitionInfo.isPartitioned info = true ↔
     ∃ v w, v ∈ split_votes ∧ w ∈ split_votes ∧
            DecisionVertex.agrees v = true ∧ DecisionVertex.agrees w = false).
Proof.
  split; [by_evaluation|].
  eapply (detectViaBettiNumbers_groups_votes split_votes);
    first [by_evaluation | intros H; vm_compute in H; discriminate H].
Defined.

(** X17. For votes with distinct identifiers, [validatePartitionDetection] accepts
    the result of [detectViaBettiNumbers] exactly when there is at least one
    vote. *)
Theorem validatePartitionDetection_of_detection (votes : list DecisionVertex.t) :
  NoDup (DecisionVertex.id <$> votes) →
  ∃ info,
    PartitionDetector.detectViaBettiNumbers votes = Ret info ∧
    PartitionDetector.validatePartitionDetection info = Ret (bool_decide (votes ≠ [])).
Proof.
  intros Hids.
  destruct (detectViaBettiNumbers_spec votes Hids)
    as (info & Hrun & Hcount & Hbeta & Hpart & Hcomp & Hgroups & _).
  exists info. split; [done|]. unfold PartitionDetector.validatePartitionDetection.
  rewrite Hcount, Hbeta, Hcomp, Hgroups, length_fmap, Z.eqb_refl.
  destruct votes as [|v votes]; [reflexivity|].
  rewrite bool_decide_eq_true_2 by done.
  assert (Hpos : (0 < length (sides_in_order (v :: votes)))%nat).
  { destruct (sides_in_order_spec (v :: votes)) as [_ Hel].
    assert (DecisionVertex.agrees v ∈ sides_in_order (v :: votes)) as Hin
      by (apply Hel; exists v; split; [apply list_elem_of_here|done]).
    destruct (sides_in_order (v :: votes)); [by apply elem_of_nil in Hin|simpl; lia]. }
  destruct (Z.ltb_spec (Z.of_nat (length (sides_in_order (v :: votes)))) 1); [lia|].
  cbn [negb]. rewrite for_each_concat.
  destruct (distinct_ids_loop (concat (pieces (v :: votes))) ∅) as [acc Hloop].
  { by rewrite pieces_permutation. }
  { intros w _. apply not_elem_of_empty. }
  rewrite Hloop. reflexivity.
Qed.

Lemma validatePartitionDetection_of_detection_witness :
  NoDup (DecisionVertex.id <$> split_votes) ∧
  ∃ info,
    PartitionDetector.detectViaBettiNumbers split_votes = Ret info ∧
    PartitionDetector.validatePartitionDetection info = Ret (bool_decide (split_votes ≠ [])).
Proof.
  split; [by_evaluation|].
  eapply (validatePartitionDetection_of_detection split_votes);
    first [by_evaluation | intros H; vm_compute in H; discriminate H].
Defined.

Lemma agreesCount_agreeing votes :
  PartitionDetector.agreesCount (filter (λ v, DecisionVertex.agrees v = true) votes)
  = Z.of_nat (length (filter (λ v, DecisionVertex.agrees v = true) votes)).
Proof.
  unfold PartitionDetector.agreesCount. f_equal. f_equal.
  induction votes as [|v votes IH]; [done|].
  rewrite filter_cons. case_decide as Hv; [|done].
  rewrite filter_cons, decide_True by done. by rewrite IH.
Qed.

Lemma agreesCount_disagreeing votes :
  PartitionDetector.agreesCount (filter (λ v, DecisionVertex.agrees v = false) votes) = 0.
Proof.
  unfold PartitionDetector.agreesCount.
  induction votes as [|v votes IH]; [done|].
  rewrite filter_cons. case_decide as Hv; [|done].
  rewrite filter_cons, decide_False by congruence. done.
Qed.

Lemma Math_ceil_positive n t :
  0 < n → (0 < t)%Q → 0 < Math_ceil (inject_Z n * t).
Proof.
  intros Hn Ht. destruct (Math_ceil_is_ceiling (inject_Z n * t)) as [_ Hle].
  assert (0 < inject_Z n * t)%Q as Hpos.
  { apply Qmult_lt_0_compat; [|done]. by rewrite <- (Zlt_Qlt 0). }
  rewrite (Zlt_Qlt 0). by eapply Qlt_le_trans.
Qed.

(** X18. For votes with distinct identifiers, [analyzePartitionImpact] applied to
    the result of [detectViaBettiNumbers] never reports that consensus is
    possible: without a partition there is no decomposed shape, and with
    one the group of disagreeing votes misses its required count, so that
    the assessment reads [Consensus failed in 1/2 partitions]. *)
Theorem analyzePartitionImpact_of_detection (votes : list DecisionVertex.t) :
  NoDup (DecisionVertex.id <$> votes) →
  ∃ info impact,
    PartitionDetector.detectViaBettiNumbers votes = Ret info ∧
    PartitionDetector.analyzePartitionImpact info = Ret impact ∧
    PartitionImpact.consensusPossible impact = false ∧
    (PartitionInfo.isPartitioned info = false →
     PartitionImpact.impactAssessment impact
     = "No decomposition available for partitioned network") ∧
    (PartitionInfo.isPartitioned info = true →
     PartitionImpact.impactAssessment impact = "Consensus failed in 1/2 partitions").
Proof.
  intros Hids.
  destruct (detectViaBettiNumbers_spec votes Hids)
    as (info & Hrun & Hcount & Hbeta & Hpart & Hcomp & Hgroups & _ & Hone & Htwo).
  exists info. unfold PartitionDetector.analyzePartitionImpact.
  rewrite Hgroups, Hcount, Hpart.
  pose proof (sides_in_order_bound votes) as Hbound.
  destruct (Z.gtb_spec (Z.of_nat (length (sides_in_order votes))) 1) as [Hgt|Hle].
  2:{ rewrite (Hone Hle). eexists. split; [done|]. split; [reflexivity|].
      by split_and!. }
  assert (Hlen : length (sides_in_order votes) = 2%nat) by lia.
  destruct (Htwo ltac:(lia)) as (c & rest & shape & -> & _ & Hshape & Hpos & Hle1).
  rewrite (getGeometricShape_known _ _ Hshape), js_bind_Ret.
  eexists. split; [done|]. split; [reflexivity|].
  cbn [PartitionImpact.consensusPossible PartitionImpact.impactAssessment].
  rewrite Hlen.
  assert (Hfalse : filter (λ v, DecisionVertex.agrees v = false) votes ≠ []).
  { apply sides_in_order_two in Hlen as (_ & w & _ & Hw & _ & Hwf). intros Hnil.
    assert (w ∈ filter (λ v, DecisionVertex.agrees v = false) votes) as Hin
      by (by apply list_elem_of_filter).
    rewrite Hnil in Hin. by apply elem_of_nil in Hin. }
  set (yes := filter (λ v, DecisionVertex.agrees v = true) votes).
  set (no := filter (λ v, DecisionVertex.agrees v = false) votes) in *.
  assert (Hreq_f : 0 < Math_ceil (inject_Z (Z.of_nat (length no)) * threshold shape)).
  { apply Math_ceil_positive; [|done].
    apply (Nat2Z.inj_lt 0), Nat.neq_0_lt_0. by intros ?%nil_length_inv. }
  assert (Hreq_t : Math_ceil (inject_Z (Z.of_nat (length yes)) * threshold shape)
                   ≤ Z.of_nat (length yes)).
  { apply Math_ceil_le_count; [lia|done]. }
  assert (Hyes : PartitionDetector.agreesCount yes = Z.of_nat (length yes))
    by apply agreesCount_agreeing.
  assert (Hno : PartitionDetector.agreesCount no = 0)
    by apply agreesCount_disagreeing.
  destruct (sides_in_order_spec votes) as [Hnd _]. unfold pieces.
  destruct (sides_in_order votes) as [|a [|b [|? ?]]]; try done.
  assert (a ≠ b) as Hab.
  { apply NoDup_cons in Hnd as [Ha _]. intros ->. apply Ha, list_elem_of_here. }
  cbn [fmap list_fmap zip zip_with forallb].
  destruct a, b; try done; fold yes; fold no;
    rewrite !filter_cons, filter_nil; cbn [fst snd];
    repeat case_decide; try lia;
    repeat match goal with
           | |- context [?x >=? ?y] =>
               rewrite (Z.geb_leb x y);
               destruct (Z.leb_spec y x); try lia
           end;
    cbn [andb]; split_and!; try done; intros _; vm_compute; reflexivity.
Qed.

Lemma analyzePartitionImpact_of_detection_witness :
  NoDup (DecisionVertex.id <$> split_votes) ∧
  ∃ info impact,
    PartitionDetector.detectViaBettiNumbers split_votes = Ret info ∧
    PartitionDetector.analyzePartitionImpact info = Ret impact ∧
    PartitionImpact.consensusPossible impact = false ∧
    (PartitionInfo.isPartitioned info = false →
     PartitionImpact.impactAssessment impact
     = "No decomposition available for partitioned network") ∧
    (PartitionInfo.isPartitioned info = true →
     PartitionImpact.impactAssessment impact = "Consensus failed in 1/2 partitions").
Proof.
  split; [by_evaluation|].
  eapply (analyzePartitionImpact_of_detection split_votes);
    first [by_evaluation | intros H; vm_compute in H; discriminate H].
Defined.

Lemma decomposeGeometricType_of_inferred n partitionCount :
  ∃ decomposed,
    PartitionDetector.decomposeGeometricType (PartitionDetector.inferGeometricType n)
      partitionCount = Ret decomposed.
Proof.
  pose proof (inferGeometricType_cases n) as Hcases.
  revert Hcases. generalize (PartitionDetector.inferGeometricType n). intros T HT.
  repeat (apply elem_of_cons in HT as [->|HT];
          [eexists; eapply decomposeGeometricType_table; vm_compute; reflexivity|]).
  by apply elem_of_nil in HT.
Qed.

(** [detectViaBettiNumbers] returns on every vote list: neither of its two
    searches runs out of depth. *)
Lemma detectViaBettiNumbers_total votes :
  ∃ info, PartitionDetector.detectViaBettiNumbers votes = Ret info.
Proof.
  unfold PartitionDetector.detectViaBettiNumbers.
  destruct (calculateBettiNumbers_total (PartitionDetector.convertToVertices votes)
              (PartitionDetector.buildConsensusEdges votes)) as [betti ->].
  rewrite js_bind_Ret.
  destruct (findConnectedComponents_total votes
              (PartitionDetector.buildConsensusEdges votes)) as [components ->].
  rewrite js_bind_Ret.
  destruct (BettiCalculator.detectPartition betti).
  - destruct (decomposeGeometricType_of_inferred (Z.of_nat (length votes))
                (BettiCalculator.countPartitions betti)) as [decomposed ->].
    rewrite !js_bind_Ret. by eexists.
  - rewrite js_bind_Ret. by eexists.
Qed.

(** X2. For a catalog shape and votes with distinct identifiers,
    [verifyConsensusWithPartitionDetection] returns the result of
    [verifyConsensus] unchanged when all votes carry one agreement value, and
    otherwise the result of [handlePartitionedConsensus], whose message is
    the plain message between [Partitioned consensus: ] and
    [ (2 partitions detected)]; in both cases the success flag and the
    verdict are those of [verifyConsensus], and the certificate passes
    [validateCertificate].  A vote that is not unanimous is thus reported as
    a partition, valid or not. *)
Theorem verifyConsensusWithPartitionDetection_flags_split_votes (h : Host)
    (criteria : list DecisionVertex.t) (id : GeometricType) (shape : GeometricShape) :
  GEOMETRIC_SHAPES !! id = Some shape →
  NoDup (DecisionVertex.id <$> criteria) →
  ∃ plain result,
    verifyConsensus h criteria id "Partition-aware consensus" = Ret plain ∧
    verifyConsensusWithPartitionDetection h criteria id = Ret result ∧
    ((∀ v w, v ∈ criteria → w ∈ criteria →
             DecisionVertex.agrees v = DecisionVertex.agrees w) →
     result = plain) ∧
    ((∃ v w, v ∈ criteria ∧ w ∈ criteria ∧
             DecisionVertex.agrees v = true ∧ DecisionVertex.agrees w = false) →
     result = handlePartitionedConsensus plain criteria id ∧
     ConsensusResult.message result
     = "Partitioned consensus: " +:+ ConsensusResult.message plain
       +:+ " (2 partitions detected)") ∧
    ConsensusResult.success result = ConsensusResult.success plain ∧
    ConsensusCertificate.valid (ConsensusResult.certificate result)
    = ConsensusCertificate.valid (ConsensusResult.certificate plain) ∧
    validateCertificate (ConsensusResult.certificate result) = true.
Proof.
  intros Hshape Hids.
  destruct (verifyConsensus_known h criteria id shape "Partition-aware consensus" Hshape)
    as (plain & Hrun & Hcert & _).
  pose proof (createConsensusCertificate_validates _ _ _ _ _ _ Hshape Hcert) as Hvalid.
  destruct (createConsensusCertificate_fields _ _ _ _ _ Hcert)
    as (betti & Hbetti & _ & _ & _ & _ & _ & _ & _ & _ & Hinfo).
  destruct (betti_of_consensus_graph criteria Hids) as (betti' & Hbetti' & Hbeta).
  rewrite Hbetti in Hbetti'. injection Hbetti' as <-.
  unfold verifyConsensusWithPartitionDetection. rewrite Hrun, js_bind_Ret, Hinfo.
  unfold BettiCalculator.detectPartition, BettiCalculator.countPartitions.
  rewrite Hbeta.
  pose proof (sides_in_order_bound criteria) as Hbound.
  pose proof (sides_in_order_two criteria) as Htwo.
  destruct (Z.gtb_spec (Z.of_nat (length (sides_in_order criteria))) 1) as [Hgt|Hle].
  - exists plain. eexists. split; [done|]. split; [reflexivity|].
    assert (Hlen : length (sides_in_order criteria) = 2%nat) by lia.
    split_and!.
    + intros Hall. apply Htwo in Hlen as (v & w & Hv & Hw & Hvt & Hwf).
      specialize (Hall v w Hv Hw). congruence.
    + intros _. split; [reflexivity|].
      unfold handlePartitionedConsensus. cbn [ConsensusResult.message].
      rewrite Hinfo. unfold partitionCount_or_1. cbn [partitionCount].
      unfold BettiCalculator.countPartitions. rewrite Hbeta, Hlen. reflexivity.
    + reflexivity.
    + reflexivity.
    + exact Hvalid.
  - exists plain, plain. split; [done|]. split; [reflexivity|].
    split_and!; try done.
    intros Hsplit. apply Htwo in Hsplit. lia.
Qed.

Lemma verifyConsensusWithPartitionDetection_flags_split_votes_witness :
  ∃ shape,
    GEOMETRIC_SHAPES !! OCTAHEDRON = Some shape ∧
    NoDup (DecisionVertex.id <$> octahedron_votes) ∧
    ∃ plain result,
      verifyConsensus sample_host octahedron_votes OCTAHEDRON "Partition-aware consensus"
      = Ret plain ∧
      verifyConsensusWithPartitionDetection sample_host octahedron_votes OCTAHEDRON = Ret result ∧
      ((∀ v w, v ∈ octahedron_votes → w ∈ octahedron_votes →
               DecisionVertex.agrees v = DecisionVertex.agrees w) →
       result = plain) ∧
      ((∃ v w, v ∈ octahedron_votes ∧ w ∈ octahedron_votes ∧
               DecisionVertex.agrees v = true ∧ DecisionVertex.agrees w = false) →
       result = handlePartitionedConsensus plain octahedron_votes OCTAHEDRON ∧
       ConsensusResult.message result
       = "Partitioned consensus: " +:+ ConsensusResult.message plain
         +:+ " (2 partitions detected)") ∧
      ConsensusResult.success result = ConsensusResult.success plain ∧
      ConsensusCertificate.valid (ConsensusResult.certificate result)
      = ConsensusCertificate.valid (ConsensusResult.certificate plain) ∧
      validateCertificate (ConsensusResult.certificate result) = true.
Proof.
  eexists.
  split; [by_evaluation|].
  split; [by_evaluation|].
  eapply (verifyConsensusWithPartitionDetection_flags_split_votes
            sample_host octahedron_votes OCTAHEDRON);
    first [by_evaluation | intros H; vm_compute in H; discriminate H].
Defined.

Lemma consensus_row_length (before after : list DecisionVertex.t) i v :
  (before ++ after) !! i = Some v → (i < length before)%nat →
  length (j ← seq (length before) (length after);
          GeometricConsensus.consensus_edge (before ++ after) i j)
  = length (filter (λ w, DecisionVertex.agrees w = DecisionVertex.agrees v) after).
Proof.
  revert before. induction after as [|w after IH]; intros before Hi Hlt; [done|].
  cbn [length seq]. rewrite bind_cons, length_app.
  rewrite filter_cons.
  assert (Hw : (before ++ w :: after) !! length before = Some w).
  { by rewrite lookup_app_r, Nat.sub_diag by lia. }
  assert (Hrow : length (GeometricConsensus.consensus_edge (before ++ w :: after) i
                           (length before))
                 = if decide (DecisionVertex.agrees w = DecisionVertex.agrees v)
                   then 1%nat else 0%nat).
  { unfold GeometricConsensus.consensus_edge. rewrite Hi, Hw.
    destruct (DecisionVertex.agrees v), (DecisionVertex.agrees w); done. }
  rewrite Hrow.
  specialize (IH (before ++ [w])). rewrite <- app_assoc in IH. cbn [app] in IH.
  rewrite length_app in IH. cbn [length] in IH.
  rewrite Nat.add_1_r in IH. rewrite IH by (done || lia).
  case_decide; simpl; lia.
Qed.

Lemma buildConsensusEdges_length criteria :
  length (GeometricConsensus.buildConsensusEdges criteria) = pairs_same criteria.
Proof.
  unfold GeometricConsensus.buildConsensusEdges.
  assert (Hgen : ∀ before after,
    criteria = before ++ after →
    length (i ← seq (length before) (length after);
            j ← seq (i + 1) (length criteria - (i + 1));
            GeometricConsensus.consensus_edge criteria i j)
    = pairs_same after).
  { intros before after. revert before.
    induction after as [|v after IH]; intros before Hc; [done|].
    cbn [length seq pairs_same]. rewrite bind_cons, length_app.
    specialize (IH (before ++ [v])). rewrite <- app_assoc in IH. cbn [app] in IH.
    rewrite length_app in IH. cbn [length] in IH. rewrite Nat.add_1_r in IH.
    rewrite IH by done. f_equal.
    pose proof (consensus_row_length (before ++ [v]) after (length before) v) as Hrow.
    rewrite <- app_assoc in Hrow. cbn [app] in Hrow. rewrite <- Hc in Hrow.
    rewrite length_app in Hrow. cbn [length] in Hrow.
    replace (length criteria - (length before + 1))%nat with (length after)
      by (rewrite Hc, length_app; simpl; lia).
    apply Hrow; [|lia].
    by rewrite Hc, lookup_app_r, Nat.sub_diag by lia. }
  apply (Hgen [] criteria eq_refl).
Qed.

Lemma filter_agrees_length criteria c :
  length (filter (λ w, DecisionVertex.agrees w = c) criteria)
  = count_occ Bool.bool_dec (DecisionVertex.agrees <$> criteria) c.
Proof.
  induction criteria as [|v criteria IH]; [done|].
  rewrite filter_cons, fmap_cons. cbn [count_occ].
  destruct (Bool.bool_dec (DecisionVertex.agrees v) c) as [Hc|Hc].
  - rewrite decide_True by done. simpl. by rewrite IH.
  - rewrite decide_False by done. done.
Qed.

Lemma pairs_same_closed criteria :
  2 * Z.of_nat (pairs_same criteria)
  = agreeing criteria * (agreeing criteria - 1)
    + disagreeing criteria * (disagreeing criteria - 1).
Proof.
  unfold agreeing, disagreeing.
  induction criteria as [|v criteria IH]; [done|].
  cbn [pairs_same]. rewrite filter_agrees_length, fmap_cons. cbn [count_occ].
  destruct (DecisionVertex.agrees v);
    destruct (Bool.bool_dec true true), (Bool.bool_dec true false),
             (Bool.bool_dec false true), (Bool.bool_dec false false);
    try done; nia.
Qed.

Lemma sides_seen_counts criteria :
  sides_seen criteria (length criteria)
  = b2z (0 <? agreeing criteria) + b2z (0 <? disagreeing criteria).
Proof.
  unfold sides_seen, seen, agreeing, disagreeing. rewrite firstn_all.
  assert (Hgen : ∀ c,
    existsb (λ v, Bool.eqb (DecisionVertex.agrees v) c) criteria
    = (0 <? Z.of_nat (count_occ Bool.bool_dec (DecisionVertex.agrees <$> criteria) c))).
  { intros c. induction criteria as [|v criteria IH]; [done|].
    rewrite fmap_cons. cbn [existsb count_occ]. rewrite IH.
    destruct (Bool.bool_dec (DecisionVertex.agrees v) c) as [->|Hne].
    - rewrite Bool.eqb_reflx. simpl. symmetry. apply Z.ltb_lt. lia.
    - destruct (DecisionVertex.agrees v), c; done. }
  by rewrite !Hgen.
Qed.

(** X3. The topological fields of a certificate, for a catalog shape and votes
    with distinct identifiers: with [a] agreeing and [d] disagreeing votes,
    beta_0 counts the agreement values that occur, beta_1 is the sum over
    the two values of (k - 1)(k - 2) / 2 for the k >= 1 votes of that value,
    beta_2 is 0, and [partitionInfo] is [beta_0 > 1] with the count
    [beta_0]. *)
Theorem certificate_betti_numbers (h : Host) (criteria : list DecisionVertex.t)
    (id : GeometricType) (shape : GeometricShape) (description : string) :
  GEOMETRIC_SHAPES !! id = Some shape →
  NoDup (DecisionVertex.id <$> criteria) →
  ∃ result betti,
    verifyConsensus h criteria id description = Ret result ∧
    ConsensusCertificate.bettiNumbers (ConsensusResult.certificate result) = Some betti ∧
    ConsensusCertificate.partitionInfo (ConsensusResult.certificate result)
    = Some {| isPartitioned := beta_0 betti >? 1; partitionCount := beta_0 betti |} ∧
    beta_0 betti = b2z (0 <? agreeing criteria) + b2z (0 <? disagreeing criteria) ∧
    2 * beta_1 betti
    = clique_cycles2 (agreeing criteria) + clique_cycles2 (disagreeing criteria) ∧
    beta_2 betti = 0.
Proof.
  intros Hshape Hids.
  destruct (verifyConsensus_known h criteria id shape description Hshape)
    as (result & Hrun & Hcert & _).
  destruct (createConsensusCertificate_fields _ _ _ _ _ Hcert)
    as (betti & Hbetti & _ & _ & _ & _ & _ & _ & _ & Hb & Hinfo).
  exists result, betti. split; [done|]. split; [done|]. split; [done|].
  revert Hbetti.
  unfold BettiCalculator.calculateBettiNumbers, BettiCalculator.calculateCycles.
  rewrite convertToVertices_length.
  case_decide as Hlen.
  { apply nil_length_inv in Hlen. subst. intros [= <-]. done. }
  rewrite (components_consensus criteria Hids). js_simpl. intros [= <-].
  cbn [beta_0 beta_1 beta_2]. unfold BettiCalculator.calculateVoids.
  rewrite buildConsensusEdges_length, sides_seen_counts.
  split; [done|]. split; [|done].
  pose proof (pairs_same_closed criteria) as Hpairs.
  assert (Hn : Z.of_nat (length criteria) = agreeing criteria + disagreeing criteria).
  { unfold agreeing, disagreeing. clear.
    induction criteria as [|v criteria IH]; [done|].
    rewrite fmap_cons. cbn [length count_occ].
    destruct (DecisionVertex.agrees v);
      destruct (Bool.bool_dec true true), (Bool.bool_dec true false),
               (Bool.bool_dec false true), (Bool.bool_dec false false);
      try done; lia. }
  assert (0 ≤ agreeing criteria) by (unfold agreeing; lia).
  assert (0 ≤ disagreeing criteria) by (unfold disagreeing; lia).
  rewrite Hn. unfold clique_cycles2, b2z.
  generalize dependent (agreeing criteria). generalize dependent (disagreeing criteria).
  generalize (Z.of_nat (pairs_same criteria)). clear.
  intros e d Hd a Hpairs Ha.
  assert (Hnonneg : ∀ k, 0 < k → 0 ≤ (k - 1) * (k - 2)).
  { intros k Hk. destruct (Z.eq_dec k 1) as [->|]; [lia|].
    apply Z.mul_nonneg_nonneg; lia. }
  pose proof (Hnonneg a). pose proof (Hnonneg d). clear Hnonneg.
  destruct (Z.ltb_spec 0 a), (Z.ltb_spec 0 d), (Z.eqb_spec a 0), (Z.eqb_spec d 0);
    try lia; nia.
Qed.

Lemma certificate_betti_numbers_witness :
  ∃ shape,
    GEOMETRIC_SHAPES !! CUBE = Some shape ∧
    NoDup (DecisionVertex.id <$> split_votes) ∧
    ∃ result betti,
      verifyConsensus sample_host split_votes CUBE "MAY" = Ret result ∧
      ConsensusCertificate.bettiNumbers (ConsensusResult.certificate result) = Some betti ∧
      ConsensusCertificate.partitionInfo (ConsensusResult.certificate result)
      = Some {| isPartitioned := beta_0 betti >? 1; partitionCount := beta_0 betti |} ∧
      beta_0 betti = b2z (0 <? agreeing split_votes) + b2z (0 <? disagreeing split_votes) ∧
      2 * beta_1 betti
      = clique_cycles2 (agreeing split_votes) + clique_cycles2 (disagreeing split_votes) ∧
      beta_2 betti = 0.
Proof.
  eexists.
  split; [by_evaluation|].
  split; [by_evaluation|].
  eapply (certificate_betti_numbers sample_host split_votes CUBE);
    first [by_evaluation | intros H; vm_compute in H; discriminate H].
Defined.

(** * Further results: examples *)

(** With a repeated identifier the two searches disagree: the matrix search
    counts three components, the search of the detector finds one, and
    [validatePartitionDetection] rejects the result. *)
Example detection_with_a_repeated_identifier :
  detection_summary same_id_votes = Ret (3, 1%nat, 1%nat, Some POINT, Ret false).
Proof. by_evaluation. Qed.

Example detection_of_split_votes :
  detection_summary split_votes = Ret (2, 2%nat, 2%nat, Some TRIANGLE, Ret true).
Proof. by_evaluation. Qed.

Example detection_of_no_votes :
  detection_summary [] = Ret (0, 0%nat, 0%nat, None, Ret false).
Proof. by_evaluation. Qed.

(** Five of six votes satisfy the octahedron, and the result is reported as
    a partitioned consensus. *)
Example valid_vote_reported_as_partitioned :
  (result ← verifyConsensusWithPartitionDetection sample_host octahedron_votes OCTAHEDRON;
   Ret (ConsensusResult.success result, ConsensusResult.message result))
  = Ret (true,
         "Partitioned consensus: Consensus achieved: 5/6 agree (?%) (2 partitions detected)").
Proof. by_evaluation. Qed.

(** A successful recovery of four votes against the cube requires 2
    agreements where the cube itself requires 4, so that its certificate
    does not pass [validateCertificate]. *)
Example recovered_certificate_fails_validation :
  (result ← recoverFromPartition sample_host line_pieces CUBE;
   Ret (DualRecoveryResult.success result,
        ConsensusCertificate.requiredCount (DualRecoveryResult.recoveredCertificate result),
        calculateRequiredAgreement
          (ConsensusCertificate.shape (DualRecoveryResult.recoveredCertificate result)),
        validateCertificate (DualRecoveryResult.recoveredCertificate result)))
  = Ret (true, 2, 4, false).
Proof. by_evaluation. Qed.

(** The truncated cube has no dual: [recoverFromPartition] fails for it, and
    [createRecoveryPlan] plans a [dual] recovery. *)
Example plan_for_a_shape_without_dual :
  (plan ← createRecoveryPlan sample_host line_pieces TRUNCATED_CUBE;
   Ret (PartitionRecoveryPlan.recoveryStrategy plan,
        RecoveryStep.geometricType <$> PartitionRecoveryPlan.recoverySteps plan,
        PartitionRecoveryPlan.estimatedRecoveryTime plan))
  = Ret (RecoveryStrategy.dual, [TRUNCATED_CUBE; TRUNCATED_CUBE; TRUNCATED_CUBE], 9000).
Proof. by_evaluation. Qed.

Example suitable_shapes_for_twenty_five :
  type <$> getSuitableShapes 25
  = [ICOSIDODECAHEDRON; TRUNCATED_CUBOCTAHEDRON; TRUNCATED_DODECAHEDRON;
     TRUNCATED_ICOSAHEDRON; RHOMBICOSIDODECAHEDRON; SNUB_DODECAHEDRON;
     SIX_HUNDRED_CELL; TRUNCATED_ICOSIDODECAHEDRON].
Proof. by_evaluation. Qed.
